(** * Row model of the side-by-side diff view

    A shallow embedding of [app/src/ui/diff/side-by-side-diff.tsx]: the row
    classifier ([getDiffRows], [getDiffRowsFromHunk], [getModifiedRows]), the
    token overlay ([createFullRow], [getRowDataPopulated], [getSearchTokens]),
    the selection engine ([isInSelection], [getDiffLineNumber],
    [onEndSelection]), whole-file expansion and the search engine
    ([calcSearchTokens], [onSearch]).

    JavaScript numbers that hold line numbers, row indexes and offsets are
    integers ([Z]); [undefined] and [null] are [None]; a thrown error
    ([forceUnwrap], [assertNonNullable], [assertNever], a property read on
    [undefined]) is [Fatal]. *)

From stdpp Require Import base option list gmap strings sorting.
From Stdlib Require Import ZArith Lia.

Open Scope Z_scope.

(** ** Thrown errors *)

Inductive Fallible (A : Type) : Type :=
| Ok (a : A)
| Fatal.
Arguments Ok {A} a.
Arguments Fatal {A}.

#[global] Instance Fallible_ret : MRet Fallible := fun A a => Ok a.
#[global] Instance Fallible_bind : MBind Fallible := fun A B f m =>
  match m with
  | Ok a => f a
  | Fatal => Fatal
  end.

(** [forceUnwrap(message, x)]: throws when [x] is [null] or [undefined]. *)
Definition forceUnwrap {A} (x : option A) : Fallible A :=
  match x with
  | Some a => Ok a
  | None => Fatal
  end.

(** [assertNonNullable(x, message)] throws exactly as [forceUnwrap] does. *)
Definition assertNonNullable {A} (x : option A) : Fallible A := forceUnwrap x.

(** ** Data model (models/diff, diff-helpers, highlighter/types) *)

Module DiffLineType.
Inductive t := Context | Add | Delete | Hunk.
#[global] Instance eq_dec : EqDecision t.
Proof. solve_decision. Defined.
End DiffLineType.

Module DiffHunkExpansionType.
Inductive t := None | Up | Down | Both.
End DiffHunkExpansionType.

Module DiffColumn.
Inductive t := Before | After.
#[global] Instance eq_dec : EqDecision t.
Proof. solve_decision. Defined.
#[global] Instance countable : Countable t.
Proof.
  refine (inj_countable'
            (fun c => match c with Before => false | After => true end)
            (fun b => if b then After else Before) _).
  by intros [].
Defined.
End DiffColumn.

Module IToken.
Record t := mk { length : Z; token : string }.
End IToken.

(** [ILineTokens]: a sparse object from character offset to token. *)
Abbreviation ILineTokens := (gmap Z IToken.t).
(** [ITokens]: a sparse object from line key to the tokens of that line. *)
Abbreviation ITokens := (gmap Z ILineTokens).

Module DiffLine.
(** The fields of [DiffLine] the view reads. [content] is a getter of the
    class (the text without its marker column); it is kept as a field. *)
Record t := mk {
  text : string;
  type : DiffLineType.t;
  originalLineNumber : option Z;
  oldLineNumber : option Z;
  newLineNumber : option Z;
  noTrailingNewLine : bool;
  content : string
}.
End DiffLine.

Module DiffHunk.
Record t := mk {
  lines : list DiffLine.t;
  unifiedDiffStart : Z;
  expansionType : DiffHunkExpansionType.t
}.
End DiffHunk.

Module ITextDiff.
Record t := mk {
  text : string;
  hunks : list DiffHunk.t;
  maxLineNumber : Z
}.
End ITextDiff.

(** [type ModifiedLine = { line: DiffLine; diffLineNumber: number }] *)
Module ModifiedLine.
Record t := mk { line : DiffLine.t; diffLineNumber : Z }.
End ModifiedLine.

Module SimplifiedDiffRowData.
Record t := mk {
  content : string;
  lineNumber : Z;
  diffLineNumber : option Z;
  noNewLineIndicator : bool;
  tokens : list ILineTokens
}.
End SimplifiedDiffRowData.

(** [SimplifiedDiffRow]: the tagged union over [DiffRowType]. *)
Inductive SimplifiedDiffRow :=
| HunkRow (content : string) (expansionType : DiffHunkExpansionType.t)
          (hunkIndex : Z)
| ContextRow (content : string) (beforeLineNumber afterLineNumber : Z)
             (beforeTokens afterTokens : list ILineTokens)
| AddedRow (data : SimplifiedDiffRowData.t) (hunkStartLine : Z)
| DeletedRow (data : SimplifiedDiffRowData.t) (hunkStartLine : Z)
| ModifiedRow (beforeData afterData : SimplifiedDiffRowData.t)
              (hunkStartLine : Z).

Definition MaxLineLengthToCalculateDiff : Z := 240.

(** JavaScript [s.length] on the content of a line. *)
Definition strlen (s : string) : Z := Z.of_nat (String.length s).

(** ** JavaScript arrays with holes

    [diffTokensBefore[i] = x] may write past the end, leaving holes that read
    as [undefined]; [shift()] removes and returns the first slot. *)

Definition array_set {A} (i : nat) (x : A) (arr : list (option A))
  : list (option A) :=
  if decide (i < List.length arr)%nat
  then <[i := Some x]> arr
  else arr ++ replicate (i - List.length arr) None ++ [Some x].

Definition array_shift {A} (arr : list (option A))
  : option A * list (option A) :=
  match arr with
  | [] => (None, [])
  | x :: rest => (x, rest)
  end.

(** [rows[i]] for a number [i]: [undefined] outside the array. *)
Definition array_get {A} (arr : list A) (i : Z) : option A :=
  if decide (i < 0) then None else arr !! Z.to_nat i.

(** ** Search results *)

Module Hit.
(** What [SearchResults.get] returns for a recorded hit. *)
Record t := mk {
  row : Z;
  column : DiffColumn.t;
  offset : Z;
  length : Z
}.
End Hit.

Module SearchResults.
(** [lookup] is the [Map] keyed by the string [row.column]; the key is
    kept as the pair it is built from. [hits] is the array of tuples
    [[row, column, offset, length]]. *)
Record t := mk {
  lookup : gmap (Z * DiffColumn.t) ILineTokens;
  hits : list (Z * DiffColumn.t * Z * Z)
}.

Definition empty : t := {| lookup := ∅; hits := [] |}.

Definition add (sr : t) (row : Z) (column : DiffColumn.t)
    (offset length : Z) : t :=
  let key := (row, column) in
  let existing := lookup sr !! key in
  let token := IToken.mk length "search-result" in
  {| lookup :=
       match existing with
       | Some existing => <[key := <[offset := token]> existing]> (lookup sr)
       | None => <[key := {[offset := token]}]> (lookup sr)
       end;
     hits := hits sr ++ [(row, column, offset, length)] |}.

Definition length (sr : t) : Z := Z.of_nat (List.length (hits sr)).

Definition get (sr : t) (index : Z) : option Hit.t :=
  match array_get (hits sr) index with
  | None => None
  | Some (row, column, offset, length) =>
      Some (Hit.mk row column offset length)
  end.

Definition getLineTokens (sr : t) (row : Z) (column : DiffColumn.t)
  : option ILineTokens :=
  lookup sr !! (row, column).
End SearchResults.

(** ** Selection points, file contents, component state *)

Module ISelectionPoint.
Record t := mk { column : DiffColumn.t; row : Z }.
End ISelectionPoint.

Module ISelection.
Record t := mk {
  from : ISelectionPoint.t;
  to : ISelectionPoint.t;
  isSelected : bool
}.
End ISelection.

Module IFileContents.
(** The fields of [IFileContents] the view reads. *)
Record t := mk {
  canBeExpanded : bool;
  newContents : list string
}.
End IFileContents.

Module State.
(** [ISideBySideDiffState], the fields the modelled handlers use. *)
Record t := mk {
  diff : ITextDiff.t;
  beforeTokens : option ITokens;
  afterTokens : option ITokens;
  temporarySelection : option ISelection.t;
  hoveredHunk : option Z;
  isSearching : bool;
  searchQuery : option string;
  searchResults : option SearchResults.t;
  selectedSearchResult : option Z
}.
End State.

Module IDiffRowData.
Record t := mk {
  content : string;
  lineNumber : Z;
  diffLineNumber : option Z;
  noNewLineIndicator : bool;
  tokens : list ILineTokens;
  isSelected : bool
}.
End IDiffRowData.

(** [DiffRow]: a row with its tokens and selection state filled in. *)
Inductive DiffRow :=
| FullHunkRow (content : string) (expansionType : DiffHunkExpansionType.t)
              (hunkIndex : Z)
| FullContextRow (content : string) (beforeLineNumber afterLineNumber : Z)
                 (beforeTokens afterTokens : list ILineTokens)
| FullAddedRow (data : IDiffRowData.t) (hunkStartLine : Z)
| FullDeletedRow (data : IDiffRowData.t) (hunkStartLine : Z)
| FullModifiedRow (beforeData afterData : IDiffRowData.t)
                  (hunkStartLine : Z).

(** ** Collaborators that live outside this file

    The source imports these; the model is parametric in them. *)

Class Collaborators := {
  (** [DiffSelection] of models/diff, with the two methods used here. *)
  DiffSelection : Type;
  isSelected : DiffSelection -> Z -> bool;
  withLineSelection : DiffSelection -> Z -> bool -> DiffSelection;
  (** [getDiffTokens(before, after)] of diff-helpers. *)
  getDiffTokens : string -> string -> ILineTokens * ILineTokens;
  (** [getTokens(lineNumber, tokens)] of diff-syntax-mode. *)
  getTokens : Z -> option ITokens -> option ILineTokens;
  (** [expandWholeTextDiff(diff, newContents)] of text-diff-expansion. *)
  expandWholeTextDiff : ITextDiff.t -> list string -> option ITextDiff.t;
  (** Case folding of one character by a regular expression with flag [i]. *)
  canonicalize : Ascii.ascii -> Ascii.ascii
}.

Module Props.
(** [ISideBySideDiffProps], the fields the modelled handlers use.
    [selection] is what [getSelection()] returns: the selection of the
    file when the file can be selected, [undefined] otherwise. *)
Record t `{Collaborators} := mk {
  diff : ITextDiff.t;
  fileContents : option IFileContents.t;
  showSideBySideDiff : bool;
  selection : option DiffSelection
}.
End Props.

Module Component.
(** The component instance: props, state and the private field
    [diffToRestore]. *)
Record t `{Collaborators} := mk {
  props : Props.t;
  state : State.t;
  diffToRestore : option ITextDiff.t
}.
End Component.

Section Model.
Context `{Collaborators}.

Inductive LineToUse := UseOldLineNumber | UseNewLineNumber.

Definition getDataFromLine (ml : ModifiedLine.t) (lineToUse : LineToUse)
    (diffTokens : option ILineTokens) : Fallible SimplifiedDiffRowData.t :=
  let line := ModifiedLine.line ml in
  lineNumber ← forceUnwrap
    (match lineToUse with
     | UseOldLineNumber => DiffLine.oldLineNumber line
     | UseNewLineNumber => DiffLine.newLineNumber line
     end);
  let tokens := match diffTokens with
                | Some t => [t]
                | None => []
                end in
  Ok {| SimplifiedDiffRowData.content := DiffLine.content line;
        SimplifiedDiffRowData.lineNumber := lineNumber;
        SimplifiedDiffRowData.diffLineNumber :=
          DiffLine.originalLineNumber line;
        SimplifiedDiffRowData.noNewLineIndicator :=
          DiffLine.noTrailingNewLine line;
        SimplifiedDiffRowData.tokens := tokens |}.

Definition isAdd (ml : ModifiedLine.t) : bool :=
  bool_decide (DiffLine.type (ModifiedLine.line ml) = DiffLineType.Add).
Definition isDelete (ml : ModifiedLine.t) : bool :=
  bool_decide (DiffLine.type (ModifiedLine.line ml) = DiffLineType.Delete).

(** The two sparse arrays [diffTokensBefore] and [diffTokensAfter]. *)
Definition DiffTokenArrays : Type :=
  list (option ILineTokens) * list (option ILineTokens).

Definition shortEnough (addedLine deletedLine : ModifiedLine.t) : bool :=
  bool_decide (strlen (DiffLine.content (ModifiedLine.line addedLine))
               < MaxLineLengthToCalculateDiff)
  && bool_decide (strlen (DiffLine.content (ModifiedLine.line deletedLine))
                  < MaxLineLengthToCalculateDiff).

(** [for (let i = 0; i < deletedLines.length; i++)] of the emphasis pass;
    [n] counts the iterations that remain. *)
Fixpoint diffTokensLoop (n : nat) (i : nat)
    (addedLines deletedLines : list ModifiedLine.t)
    (arrays : DiffTokenArrays) : Fallible DiffTokenArrays :=
  match n with
  | O => Ok arrays
  | S n' =>
      addedLine ← forceUnwrap (addedLines !! i);
      deletedLine ← forceUnwrap (deletedLines !! i);
      let arrays' :=
        if shortEnough addedLine deletedLine then
          let '(before, after) :=
            getDiffTokens
              (DiffLine.content (ModifiedLine.line deletedLine))
              (DiffLine.content (ModifiedLine.line addedLine)) in
          (array_set i before arrays.1, array_set i after arrays.2)
        else arrays in
      diffTokensLoop n' (S i) addedLines deletedLines arrays'
  end.

Definition computeDiffTokens (addedLines deletedLines : list ModifiedLine.t)
  : Fallible DiffTokenArrays :=
  let shouldDisplayDiffInChunk :=
    bool_decide (List.length addedLines = List.length deletedLines) in
  if shouldDisplayDiffInChunk
  then diffTokensLoop (List.length deletedLines) 0 addedLines deletedLines
                      ([], [])
  else Ok ([], []).

(** State of the three output loops of [getModifiedRows]. *)
Record OutputState := mkOutput {
  output : list SimplifiedDiffRow;
  indexModifiedRow : nat;
  diffTokensBefore : list (option ILineTokens);
  diffTokensAfter : list (option ILineTokens)
}.

(** The [while] loop that pairs lines; [fuel] bounds the iterations. *)
Fixpoint modifiedLoop (fuel : nat) (showSideBySideDiff : bool)
    (addedLines deletedLines : list ModifiedLine.t) (hunkStartLine : Z)
    (st : OutputState) : Fallible OutputState :=
  match fuel with
  | O => Ok st
  | S fuel' =>
      let i := indexModifiedRow st in
      if showSideBySideDiff
         && bool_decide (i < List.length addedLines)%nat
         && bool_decide (i < List.length deletedLines)%nat
      then
        addedLine ← forceUnwrap (addedLines !! i);
        deletedLine ← forceUnwrap (deletedLines !! i);
        let '(tb, restBefore) := array_shift (diffTokensBefore st) in
        beforeData ← getDataFromLine deletedLine UseOldLineNumber tb;
        let '(ta, restAfter) := array_shift (diffTokensAfter st) in
        afterData ← getDataFromLine addedLine UseNewLineNumber ta;
        modifiedLoop fuel' showSideBySideDiff addedLines deletedLines
          hunkStartLine
          {| output := output st
               ++ [ModifiedRow beforeData afterData hunkStartLine];
             indexModifiedRow := S i;
             diffTokensBefore := restBefore;
             diffTokensAfter := restAfter |}
      else Ok st
  end.

(** [for (let i = indexModifiedRow; i < deletedLines.length; i++)] *)
Fixpoint deletedLoop (n : nat) (i : nat) (deletedLines : list ModifiedLine.t)
    (hunkStartLine : Z) (out : list SimplifiedDiffRow)
    (tokensBefore : list (option ILineTokens))
  : Fallible (list SimplifiedDiffRow * list (option ILineTokens)) :=
  match n with
  | O => Ok (out, tokensBefore)
  | S n' =>
      line ← forceUnwrap (deletedLines !! i);
      let '(tb, rest) := array_shift tokensBefore in
      data ← getDataFromLine line UseOldLineNumber tb;
      deletedLoop n' (S i) deletedLines hunkStartLine
        (out ++ [DeletedRow data hunkStartLine]) rest
  end.

(** [for (let i = indexModifiedRow; i < addedLines.length; i++)] *)
Fixpoint addedLoop (n : nat) (i : nat) (addedLines : list ModifiedLine.t)
    (hunkStartLine : Z) (out : list SimplifiedDiffRow)
    (tokensAfter : list (option ILineTokens))
  : Fallible (list SimplifiedDiffRow * list (option ILineTokens)) :=
  match n with
  | O => Ok (out, tokensAfter)
  | S n' =>
      line ← forceUnwrap (addedLines !! i);
      let '(ta, rest) := array_shift tokensAfter in
      data ← getDataFromLine line UseNewLineNumber ta;
      addedLoop n' (S i) addedLines hunkStartLine
        (out ++ [AddedRow data hunkStartLine]) rest
  end.

Definition getModifiedRows (addedDeletedLines : list ModifiedLine.t)
    (showSideBySideDiff : bool) : Fallible (list SimplifiedDiffRow) :=
  match addedDeletedLines with
  | [] => Ok []
  | first :: _ =>
      let hunkStartLine := ModifiedLine.diffLineNumber first in
      let addedLines := filter (fun l => isAdd l = true) addedDeletedLines in
      let deletedLines :=
        filter (fun l => isDelete l = true) addedDeletedLines in
      arrays ← computeDiffTokens addedLines deletedLines;
      st ← modifiedLoop (List.length addedLines) showSideBySideDiff
              addedLines deletedLines hunkStartLine
              {| output := []; indexModifiedRow := 0;
                 diffTokensBefore := arrays.1;
                 diffTokensAfter := arrays.2 |};
      let i := indexModifiedRow st in
      '(out, _) ← deletedLoop (List.length deletedLines - i) i deletedLines
                      hunkStartLine (output st) (diffTokensBefore st);
      '(out, _) ← addedLoop (List.length addedLines - i) i addedLines
                      hunkStartLine out (diffTokensAfter st);
      Ok out
  end.

(** Flush of the buffered run: [if (modifiedLines.length > 0) ...]. *)
Definition flushModifiedLines (rows : list SimplifiedDiffRow)
    (modifiedLines : list ModifiedLine.t) (showSideBySideDiff : bool)
  : Fallible (list SimplifiedDiffRow) :=
  if bool_decide (0 < List.length modifiedLines)%nat then
    modified ← getModifiedRows modifiedLines showSideBySideDiff;
    Ok (rows ++ modified)
  else Ok rows.

(** [for (const [num, line] of hunk.lines.entries())] with the two
    mutable arrays [rows] and [modifiedLines]. *)
Fixpoint hunkLinesLoop (hunkIndex : Z) (hunk : DiffHunk.t)
    (showSideBySideDiff enableDiffExpansion : bool)
    (lines : list DiffLine.t) (num : Z)
    (rows : list SimplifiedDiffRow) (modifiedLines : list ModifiedLine.t)
  : Fallible (list SimplifiedDiffRow) :=
  match lines with
  | [] => flushModifiedLines rows modifiedLines showSideBySideDiff
  | line :: rest =>
      let diffLineNumber := DiffHunk.unifiedDiffStart hunk + num in
      match DiffLine.type line with
      | DiffLineType.Delete | DiffLineType.Add =>
          hunkLinesLoop hunkIndex hunk showSideBySideDiff
            enableDiffExpansion rest (num + 1) rows
            (modifiedLines ++ [ModifiedLine.mk line diffLineNumber])
      | DiffLineType.Hunk =>
          rows ← flushModifiedLines rows modifiedLines showSideBySideDiff;
          hunkLinesLoop hunkIndex hunk showSideBySideDiff
            enableDiffExpansion rest (num + 1)
            (rows ++ [HunkRow (DiffLine.text line)
                        (if enableDiffExpansion
                         then DiffHunk.expansionType hunk
                         else DiffHunkExpansionType.None)
                        hunkIndex])
            []
      | DiffLineType.Context =>
          rows ← flushModifiedLines rows modifiedLines showSideBySideDiff;
          oldLineNumber ← assertNonNullable (DiffLine.oldLineNumber line);
          newLineNumber ← assertNonNullable (DiffLine.newLineNumber line);
          hunkLinesLoop hunkIndex hunk showSideBySideDiff
            enableDiffExpansion rest (num + 1)
            (rows ++ [ContextRow (DiffLine.content line) oldLineNumber
                        newLineNumber [] []])
            []
      end
  end.

Definition getDiffRowsFromHunk (hunkIndex : Z) (hunk : DiffHunk.t)
    (showSideBySideDiff enableDiffExpansion : bool)
  : Fallible (list SimplifiedDiffRow) :=
  hunkLinesLoop hunkIndex hunk showSideBySideDiff enableDiffExpansion
    (DiffHunk.lines hunk) 0 [] [].

(** [diff.hunks.forEach((hunk, index) => ...)] *)
Fixpoint hunksLoop (showSideBySideDiff enableDiffExpansion : bool)
    (hunks : list DiffHunk.t) (index : Z)
    (outputRows : list SimplifiedDiffRow)
  : Fallible (list SimplifiedDiffRow) :=
  match hunks with
  | [] => Ok outputRows
  | hunk :: rest =>
      rows ← getDiffRowsFromHunk index hunk showSideBySideDiff
               enableDiffExpansion;
      hunksLoop showSideBySideDiff enableDiffExpansion rest (index + 1)
        (outputRows ++ rows)
  end.

(** [getDiffRows]; the memoisation only caches this pure function. *)
Definition getDiffRows (diff : ITextDiff.t)
    (showSideBySideDiff enableDiffExpansion : bool)
  : Fallible (list SimplifiedDiffRow) :=
  hunksLoop showSideBySideDiff enableDiffExpansion (ITextDiff.hunks diff)
    0 [].

(** ** Search *)

Definition enumerateColumnContents (row : SimplifiedDiffRow)
    (showSideBySideDiffs : bool) : list (DiffColumn.t * string) :=
  match row with
  | HunkRow content _ _ => [(DiffColumn.Before, content)]
  | AddedRow data _ =>
      let type := if showSideBySideDiffs
                  then DiffColumn.After else DiffColumn.Before in
      [(type, SimplifiedDiffRowData.content data)]
  | DeletedRow data _ =>
      [(DiffColumn.Before, SimplifiedDiffRowData.content data)]
  | ContextRow content _ _ _ _ =>
      (DiffColumn.Before, content)
        :: (if showSideBySideDiffs
            then [(DiffColumn.After, content)] else [])
  | ModifiedRow beforeData afterData _ =>
      [(DiffColumn.Before, SimplifiedDiffRowData.content beforeData);
       (DiffColumn.After, SimplifiedDiffRowData.content afterData)]
  end.

(** The literal [query] matches at the start of [content], characters
    compared after case folding. *)
Fixpoint matchesAt (query content : string) : bool :=
  match query, content with
  | EmptyString, _ => true
  | String q query', String c content' =>
      bool_decide (canonicalize q = canonicalize c)
      && matchesAt query' content'
  | String _ _, EmptyString => false
  end.

(** Modelled from the spec: [escapeRegExp] of lib/helpers/regex is not
    part of this file; the spec says that the query is escaped so that it
    is never interpreted as a pattern, so
    [content.matchAll(new RegExp(escapeRegExp(query), 'gi'))] is the
    left-to-right scan for the literal [query]: a match at [index] is
    reported with the length of the matched text and the scan resumes
    after it ([skip] counts the characters of the last match still to be
    passed). *)
Fixpoint matchAllFrom (query content : string) (index : Z) (skip : nat)
  : list (Z * Z) :=
  match content with
  | EmptyString => []
  | String _ content' =>
      match skip with
      | S skip' => matchAllFrom query content' (index + 1) skip'
      | O =>
          if matchesAt query content
          then (index, strlen query)
                 :: matchAllFrom query content' (index + 1)
                      (String.length query - 1)
          else matchAllFrom query content' (index + 1) O
      end
  end.

Definition matchAll (query content : string) : list (Z * Z) :=
  matchAllFrom query content 0 O.

(** [for (const match of column.content.matchAll(searchRe))] *)
Definition addMatches (hits : SearchResults.t) (rowNumber : Z)
    (column : DiffColumn.t) (matches : list (Z * Z)) : SearchResults.t :=
  foldl (fun hits m => SearchResults.add hits rowNumber column m.1 m.2)
        hits matches.

(** [for (const column of enumerateColumnContents(row, ...))] *)
Definition addColumns (searchQuery : string) (hits : SearchResults.t)
    (rowNumber : Z) (columns : list (DiffColumn.t * string))
  : SearchResults.t :=
  foldl (fun hits column =>
           addMatches hits rowNumber column.1
                      (matchAll searchQuery column.2))
        hits columns.

(** [for (const [rowNumber, row] of rows.entries())] *)
Fixpoint searchRowsLoop (showSideBySideDiffs : bool) (searchQuery : string)
    (rows : list SimplifiedDiffRow) (rowNumber : Z)
    (hits : SearchResults.t) : SearchResults.t :=
  match rows with
  | [] => hits
  | row :: rest =>
      let hits :=
        match row with
        | HunkRow _ _ _ => hits
        | _ => addColumns searchQuery hits rowNumber
                 (enumerateColumnContents row showSideBySideDiffs)
        end in
      searchRowsLoop showSideBySideDiffs searchQuery rest (rowNumber + 1)
        hits
  end.

Definition calcSearchTokens (diff : ITextDiff.t)
    (showSideBySideDiffs : bool) (searchQuery : string)
    (enableDiffExpansion : bool) : Fallible (option SearchResults.t) :=
  if bool_decide (strlen searchQuery = 0) then Ok None
  else
    rows ← getDiffRows diff showSideBySideDiffs enableDiffExpansion;
    Ok (Some (searchRowsLoop showSideBySideDiffs searchQuery rows 0
                SearchResults.empty)).

(** ** Selection *)

Definition isInTemporarySelection (row : Z) (column : DiffColumn.t)
    (selection : option ISelection.t) : bool :=
  match selection with
  | None => false
  | Some selection =>
      let from := ISelection.from selection in
      let to := ISelection.to selection in
      if bool_decide
           (Z.min (ISelectionPoint.row from) (ISelectionPoint.row to) <= row)
         && bool_decide
              (row <= Z.max (ISelectionPoint.row to)
                            (ISelectionPoint.row from))
         && (bool_decide (column = ISelectionPoint.column from)
             || bool_decide (column = ISelectionPoint.column to))
      then true
      else false
  end.

Definition isInSelection (diffLineNumber row : Z) (column : DiffColumn.t)
    (selection : option DiffSelection)
    (temporarySelection : option ISelection.t) : bool :=
  let isInStoredSelection :=
    match selection with
    | Some selection => isSelected selection diffLineNumber
    | None => false
    end in
  match temporarySelection with
  | None => isInStoredSelection
  | Some temporary =>
      let isInTemporary :=
        isInTemporarySelection row column temporarySelection in
      if ISelection.isSelected temporary
      then isInStoredSelection || isInTemporary
      else isInStoredSelection && negb isInTemporary
  end.

(** ** The component *)

Definition getSelection (c : Component.t) : option DiffSelection :=
  Props.selection (Component.props c).

Definition canExpandDiff (c : Component.t) : bool :=
  match Props.fileContents (Component.props c) with
  | None => false
  | Some contents =>
      IFileContents.canBeExpanded contents
      && bool_decide
           (0 < List.length (IFileContents.newContents contents))%nat
  end.

(** [this.setState(...)]: the component with a new state. *)
Definition setState (c : Component.t) (st : State.t) : Component.t :=
  {| Component.props := Component.props c;
     Component.state := st;
     Component.diffToRestore := Component.diffToRestore c |}.

(** *** Token overlay *)

Definition getSearchTokens (c : Component.t) (row : Z)
    (column : DiffColumn.t) : option (list ILineTokens) :=
  let st := Component.state c in
  match State.searchResults st with
  | None => None
  | Some searchTokens =>
      match SearchResults.getLineTokens searchTokens row column with
      | None => None
      | Some lineTokens =>
          match State.selectedSearchResult st with
          | None => Some [lineTokens]
          | Some selectedSearchResult =>
              match SearchResults.get searchTokens selectedSearchResult with
              | None => Some [lineTokens]
              | Some selected =>
                  if bool_decide (row = Hit.row selected)
                     && bool_decide (column = Hit.column selected)
                  then
                    match lineTokens !! Hit.offset selected with
                    | Some _ =>
                        let selectedToken : ILineTokens :=
                          {[ Hit.offset selected :=
                               IToken.mk (Hit.length selected) "selected" ]}
                        in Some [lineTokens; selectedToken]
                    | None => Some [lineTokens]
                    end
                  else Some [lineTokens]
              end
          end
      end
  end.

Definition getRowDataPopulated (c : Component.t)
    (data : SimplifiedDiffRowData.t) (row : Z) (column : DiffColumn.t)
    (tokens : option ITokens) : IDiffRowData.t :=
  let searchTokens := getSearchTokens c row column in
  let lineTokens := getTokens (SimplifiedDiffRowData.lineNumber data) tokens
  in
  let finalTokens := SimplifiedDiffRowData.tokens data in
  let finalTokens :=
    match searchTokens with
    | Some searchTokens => finalTokens ++ searchTokens
    | None => finalTokens
    end in
  let finalTokens :=
    match lineTokens with
    | Some lineTokens => finalTokens ++ [lineTokens]
    | None => finalTokens
    end in
  {| IDiffRowData.content := SimplifiedDiffRowData.content data;
     IDiffRowData.lineNumber := SimplifiedDiffRowData.lineNumber data;
     IDiffRowData.diffLineNumber :=
       SimplifiedDiffRowData.diffLineNumber data;
     IDiffRowData.noNewLineIndicator :=
       SimplifiedDiffRowData.noNewLineIndicator data;
     IDiffRowData.tokens := finalTokens;
     IDiffRowData.isSelected :=
       match SimplifiedDiffRowData.diffLineNumber data with
       | None => false
       | Some diffLineNumber =>
           isInSelection diffLineNumber row column (getSelection c)
             (State.temporarySelection (Component.state c))
       end |}.

Definition createFullRow (c : Component.t) (row : SimplifiedDiffRow)
    (numRow : Z) : DiffRow :=
  let st := Component.state c in
  match row with
  | AddedRow data hunkStartLine =>
      FullAddedRow
        (getRowDataPopulated c data numRow
           (if Props.showSideBySideDiff (Component.props c)
            then DiffColumn.After else DiffColumn.Before)
           (State.afterTokens st))
        hunkStartLine
  | DeletedRow data hunkStartLine =>
      FullDeletedRow
        (getRowDataPopulated c data numRow DiffColumn.Before
           (State.beforeTokens st))
        hunkStartLine
  | ModifiedRow beforeData afterData hunkStartLine =>
      FullModifiedRow
        (getRowDataPopulated c beforeData numRow DiffColumn.Before
           (State.beforeTokens st))
        (getRowDataPopulated c afterData numRow DiffColumn.After
           (State.afterTokens st))
        hunkStartLine
  | ContextRow content beforeLineNumber afterLineNumber
               rowBeforeTokens rowAfterTokens =>
      let lineTokens :=
        match getTokens beforeLineNumber (State.beforeTokens st) with
        | Some t => Some t
        | None => getTokens afterLineNumber (State.afterTokens st)
        end in
      let beforeTokens := rowBeforeTokens in
      let afterTokens := rowAfterTokens in
      let '(beforeTokens, afterTokens) :=
        match lineTokens with
        | Some lineTokens =>
            (beforeTokens ++ [lineTokens], afterTokens ++ [lineTokens])
        | None => (beforeTokens, afterTokens)
        end in
      let beforeTokens :=
        match getSearchTokens c numRow DiffColumn.Before with
        | Some beforeSearchTokens => beforeTokens ++ beforeSearchTokens
        | None => beforeTokens
        end in
      let afterTokens :=
        match getSearchTokens c numRow DiffColumn.After with
        | Some afterSearchTokens => afterTokens ++ afterSearchTokens
        | None => afterTokens
        end in
      FullContextRow content beforeLineNumber afterLineNumber
        beforeTokens afterTokens
  | HunkRow content expansionType hunkIndex =>
      FullHunkRow content expansionType hunkIndex
  end.

(** *** Drag selection *)

Definition getDiffLineNumber (c : Component.t) (rowNumber : Z)
    (column : DiffColumn.t) : Fallible (option Z) :=
  rows ← getDiffRows (State.diff (Component.state c))
            (Props.showSideBySideDiff (Component.props c))
            (canExpandDiff c);
  match array_get rows rowNumber with
  | None => Ok None
  | Some (AddedRow data _) | Some (DeletedRow data _) =>
      Ok (SimplifiedDiffRowData.diffLineNumber data)
  | Some (ModifiedRow beforeData afterData _) =>
      Ok (if bool_decide (column = DiffColumn.After)
          then SimplifiedDiffRowData.diffLineNumber afterData
          else SimplifiedDiffRowData.diffLineNumber beforeData)
  | Some _ => Ok None
  end.

Definition withTemporarySelection (st : State.t)
    (temporarySelection : option ISelection.t) : State.t :=
  {| State.diff := State.diff st;
     State.beforeTokens := State.beforeTokens st;
     State.afterTokens := State.afterTokens st;
     State.temporarySelection := temporarySelection;
     State.hoveredHunk := State.hoveredHunk st;
     State.isSearching := State.isSearching st;
     State.searchQuery := State.searchQuery st;
     State.searchResults := State.searchResults st;
     State.selectedSearchResult := State.selectedSearchResult st |}.

Definition onStartSelection (c : Component.t) (row : Z)
    (column : DiffColumn.t) (isSelected : bool) : Component.t :=
  let point := ISelectionPoint.mk column row in
  setState c (withTemporarySelection (Component.state c)
                (Some (ISelection.mk point point isSelected))).

Definition onUpdateSelection (c : Component.t) (row : Z)
    (column : DiffColumn.t) : Component.t :=
  match State.temporarySelection (Component.state c) with
  | None => c
  | Some temporarySelection =>
      let to := ISelectionPoint.mk column row in
      setState c (withTemporarySelection (Component.state c)
                    (Some (ISelection.mk
                             (ISelection.from temporarySelection) to
                             (ISelection.isSelected temporarySelection))))
  end.

(** One pass of the body of [for (let row = fromRow; ...)] in
    [onEndSelection]. *)
Definition endSelectionStep (c : Component.t)
    (fromColumn toColumn : DiffColumn.t) (isSelected : bool) (row : Z)
    (selection : DiffSelection) : Fallible DiffSelection :=
  lineBefore ← getDiffLineNumber c row fromColumn;
  lineAfter ← getDiffLineNumber c row toColumn;
  let selection :=
    match lineBefore with
    | Some lineBefore => withLineSelection selection lineBefore isSelected
    | None => selection
    end in
  let selection :=
    match lineAfter with
    | Some lineAfter => withLineSelection selection lineAfter isSelected
    | None => selection
    end in
  Ok selection.

(** [for (let row = fromRow; row <= toRow; row++)]; [n] counts the rows
    that remain. *)
Fixpoint endSelectionLoop (c : Component.t)
    (fromColumn toColumn : DiffColumn.t) (isSelected : bool)
    (n : nat) (row : Z) (selection : DiffSelection)
  : Fallible DiffSelection :=
  match n with
  | O => Ok selection
  | S n' =>
      selection ← endSelectionStep c fromColumn toColumn isSelected row
                    selection;
      endSelectionLoop c fromColumn toColumn isSelected n' (row + 1)
        selection
  end.

(** [onEndSelection]: the new component and the selection handed to
    [onIncludeChanged] ([None] when the handler returns early). *)
Definition onEndSelection (c : Component.t)
  : Fallible (Component.t * option DiffSelection) :=
  match getSelection c, State.temporarySelection (Component.state c) with
  | Some selection, Some temporarySelection =>
      let tmpFrom := ISelection.from temporarySelection in
      let tmpTo := ISelection.to temporarySelection in
      let isSelected := ISelection.isSelected temporarySelection in
      let fromRow :=
        Z.min (ISelectionPoint.row tmpFrom) (ISelectionPoint.row tmpTo) in
      let toRow :=
        Z.max (ISelectionPoint.row tmpFrom) (ISelectionPoint.row tmpTo) in
      selection ← endSelectionLoop c (ISelectionPoint.column tmpFrom)
                    (ISelectionPoint.column tmpTo) isSelected
                    (Z.to_nat (toRow - fromRow + 1)) fromRow selection;
      Ok (setState c (withTemporarySelection (Component.state c) None),
          Some selection)
  | _, _ => Ok (c, None)
  end.

(** *** Whole-file expansion *)

Definition withDiff (st : State.t) (diff : ITextDiff.t) : State.t :=
  {| State.diff := diff;
     State.beforeTokens := State.beforeTokens st;
     State.afterTokens := State.afterTokens st;
     State.temporarySelection := State.temporarySelection st;
     State.hoveredHunk := State.hoveredHunk st;
     State.isSearching := State.isSearching st;
     State.searchQuery := State.searchQuery st;
     State.searchResults := State.searchResults st;
     State.selectedSearchResult := State.selectedSearchResult st |}.

Definition onExpandWholeFile (c : Component.t) : Component.t :=
  match Props.fileContents (Component.props c) with
  | None => c
  | Some contents =>
      if negb (canExpandDiff c) then c
      else
        let diff := State.diff (Component.state c) in
        match expandWholeTextDiff diff (IFileContents.newContents contents)
        with
        | None => c
        | Some updatedDiff =>
            {| Component.props := Component.props c;
               Component.state := withDiff (Component.state c) updatedDiff;
               Component.diffToRestore := Some diff |}
        end
  end.

Definition onCollapseExpandedLines (c : Component.t) : Component.t :=
  match Component.diffToRestore c with
  | None => c
  | Some diffToRestore =>
      {| Component.props := Component.props c;
         Component.state := withDiff (Component.state c) diffToRestore;
         Component.diffToRestore := None |}
  end.

(** *** Search session *)

Definition resetSearch (c : Component.t) (isSearching : bool)
  : Component.t :=
  let st := Component.state c in
  setState c
    {| State.diff := State.diff st;
       State.beforeTokens := State.beforeTokens st;
       State.afterTokens := State.afterTokens st;
       State.temporarySelection := State.temporarySelection st;
       State.hoveredHunk := State.hoveredHunk st;
       State.isSearching := isSearching;
       State.searchQuery := None;
       State.searchResults := None;
       State.selectedSearchResult := None |}.

Definition onSearchCancel (c : Component.t) : Component.t :=
  resetSearch c false.

Definition showSearch (c : Component.t) : Component.t :=
  if negb (State.isSearching (Component.state c))
  then resetSearch c true else c.

Inductive Direction := next | previous.

Definition withSearch (st : State.t) (searchQuery : string)
    (searchResults : SearchResults.t) (selectedSearchResult : Z)
  : State.t :=
  {| State.diff := State.diff st;
     State.beforeTokens := State.beforeTokens st;
     State.afterTokens := State.afterTokens st;
     State.temporarySelection := State.temporarySelection st;
     State.hoveredHunk := State.hoveredHunk st;
     State.isSearching := State.isSearching st;
     State.searchQuery := Some searchQuery;
     State.searchResults := Some searchResults;
     State.selectedSearchResult := Some selectedSearchResult |}.

(** The tail of [onSearch]: the row handed to [scrollToRow] (if any) and
    the final [setState]. *)
Definition finishSearch (c : Component.t) (searchQuery : string)
    (searchResults : SearchResults.t) (selectedSearchResult : Z)
  : Component.t * option Z :=
  let scrollToRow :=
    match SearchResults.get searchResults selectedSearchResult with
    | Some hit => Some (Hit.row hit)
    | None => None
    end in
  (setState c (withSearch (Component.state c) searchQuery searchResults
                 selectedSearchResult),
   scrollToRow).

(** The [else] branch of [onSearch]: a fresh search for the query. *)
Definition restartSearch (c : Component.t) (searchQuery : string)
  : Fallible (Component.t * option Z) :=
  searchResults ← calcSearchTokens (State.diff (Component.state c))
                    (Props.showSideBySideDiff (Component.props c))
                    searchQuery (canExpandDiff c);
  match searchResults with
  | Some searchResults =>
      if bool_decide (SearchResults.length searchResults = 0)
      then Ok (resetSearch c true, None)
      else Ok (finishSearch c searchQuery searchResults 0)
  | None => Ok (resetSearch c true, None)
  end.

(** [onSearch]: the new component and the row scrolled to. JavaScript's
    [%] is the remainder of the truncating division, [Z.rem]; its divisor
    is the length of stored results, which [restartSearch] never stores
    empty. *)
Definition onSearch (c : Component.t) (searchQuery : string)
    (direction : Direction) : Fallible (Component.t * option Z) :=
  let st := Component.state c in
  match State.searchResults st with
  | Some searchResults =>
      if bool_decide (Some searchQuery = State.searchQuery st) then
        let selectedSearchResult :=
          match State.selectedSearchResult st with
          | None => 0
          | Some selectedSearchResult =>
              let delta := match direction with
                           | next => 1
                           | previous => -1
                           end in
              Z.rem (selectedSearchResult + delta
                     + SearchResults.length searchResults)
                    (SearchResults.length searchResults)
          end in
        Ok (finishSearch c searchQuery searchResults selectedSearchResult)
      else restartSearch c searchQuery
  | None => restartSearch c searchQuery
  end.

End Model.

(** ** Reference descriptions used by the statements *)

Section Descriptions.
Context `{Collaborators}.

(** Persisted membership: [selection?.isSelected(n) ?? false]. *)
Definition persistedMembership (selection : option DiffSelection)
    (diffLineNumber : Z) : bool :=
  match selection with
  | Some selection => isSelected selection diffLineNumber
  | None => false
  end.

(** Membership in the rectangle of a drag, in the words of the
    description: the row lies between start and current row in either
    order, and the column is that of one of the two end points. *)
Definition withinRectangle (row : Z) (column : DiffColumn.t)
    (drag : ISelection.t) : Prop :=
  let from := ISelection.from drag in
  let to := ISelection.to drag in
  ((ISelectionPoint.row from <= row <= ISelectionPoint.row to)
   \/ (ISelectionPoint.row to <= row <= ISelectionPoint.row from))
  /\ (column = ISelectionPoint.column from
      \/ column = ISelectionPoint.column to).

(** What the [i]-th of successive [shift()] calls on a sparse array hands
    out: the value in slot [i], [undefined] for a hole or past the end. *)
Definition slotAt {A} (arr : list (option A)) (i : nat) : option A :=
  match arr !! i with
  | Some slot => slot
  | None => None
  end.

(** A line as the diff producer guarantees it: a context line has both line
    numbers, a deleted line an old one, an added line a new one. *)
Definition wellFormedLine (l : DiffLine.t) : Prop :=
  match DiffLine.type l with
  | DiffLineType.Context =>
      is_Some (DiffLine.oldLineNumber l) /\ is_Some (DiffLine.newLineNumber l)
  | DiffLineType.Add => is_Some (DiffLine.newLineNumber l)
  | DiffLineType.Delete => is_Some (DiffLine.oldLineNumber l)
  | DiffLineType.Hunk => True
  end.

(** An added or deleted line. *)
Definition isChange (l : DiffLine.t) : Prop :=
  DiffLine.type l = DiffLineType.Add \/ DiffLine.type l = DiffLineType.Delete.

(** The lines of a run that starts at diff line number [start], each with
    its diff line number. *)
Definition runLines (start : Z) (run : list DiffLine.t)
  : list ModifiedLine.t :=
  imap (fun j l => ModifiedLine.mk l (start + Z.of_nat j)) run.

Definition addedOf (run : list ModifiedLine.t) : list ModifiedLine.t :=
  filter (fun l => isAdd l = true) run.
Definition deletedOf (run : list ModifiedLine.t) : list ModifiedLine.t :=
  filter (fun l => isDelete l = true) run.

(** [r] is the Modified row that [getDataFromLine] builds for deleted line
    [d] and added line [a], with emphasis tokens [tb] and [ta], in the group
    [start] (used in the lemmas about the loops). *)
Definition modifiedRowOf (start : Z) (d a : ModifiedLine.t)
    (tb ta : option ILineTokens) (r : SimplifiedDiffRow) : Prop :=
  exists beforeData afterData,
    getDataFromLine d UseOldLineNumber tb = Ok beforeData
    /\ getDataFromLine a UseNewLineNumber ta = Ok afterData
    /\ r = ModifiedRow beforeData afterData start.

(** [r] is the Deleted row that [getDataFromLine] builds for line [d] in
    the group [start]. *)
Definition deletedRowOf (start : Z) (d : ModifiedLine.t)
    (tb : option ILineTokens) (r : SimplifiedDiffRow) : Prop :=
  exists data,
    getDataFromLine d UseOldLineNumber tb = Ok data
    /\ r = DeletedRow data start.

(** [r] is the Added row that [getDataFromLine] builds for line [a] in
    the group [start]. *)
Definition addedRowOf (start : Z) (a : ModifiedLine.t)
    (ta : option ILineTokens) (r : SimplifiedDiffRow) : Prop :=
  exists data,
    getDataFromLine a UseNewLineNumber ta = Ok data
    /\ r = AddedRow data start.

(** The cell [data] shows the buffered line [ml]: its content, the line
    number [lineNumber] (the old or the new one of the line), the original
    diff line number of the line, its end-of-file marker, and the emphasis
    tokens [emphasis] as its only tokens, if any. Stated on the fields of
    the line and of the cell, not through [getDataFromLine]. *)
Definition showsLine (ml : ModifiedLine.t) (lineNumber : option Z)
    (emphasis : option ILineTokens) (data : SimplifiedDiffRowData.t) : Prop :=
  SimplifiedDiffRowData.content data
  = DiffLine.content (ModifiedLine.line ml)
  /\ Some (SimplifiedDiffRowData.lineNumber data) = lineNumber
  /\ SimplifiedDiffRowData.diffLineNumber data
     = DiffLine.originalLineNumber (ModifiedLine.line ml)
  /\ SimplifiedDiffRowData.noNewLineIndicator data
     = DiffLine.noTrailingNewLine (ModifiedLine.line ml)
  /\ SimplifiedDiffRowData.tokens data = option_list emphasis.

(** [r] is a Modified row of the group [start] whose before cell shows the
    deleted line [d] under its old line number and whose after cell shows
    the added line [a] under its new line number. *)
Definition modifiedRowShows (start : Z) (d a : ModifiedLine.t)
    (tb ta : option ILineTokens) (r : SimplifiedDiffRow) : Prop :=
  exists beforeData afterData,
    r = ModifiedRow beforeData afterData start
    /\ showsLine d (DiffLine.oldLineNumber (ModifiedLine.line d)) tb
         beforeData
    /\ showsLine a (DiffLine.newLineNumber (ModifiedLine.line a)) ta
         afterData.

(** [r] is a Deleted row of the group [start] that shows the deleted line
    [d] under its old line number. *)
Definition deletedRowShows (start : Z) (d : ModifiedLine.t)
    (tb : option ILineTokens) (r : SimplifiedDiffRow) : Prop :=
  exists data,
    r = DeletedRow data start
    /\ showsLine d (DiffLine.oldLineNumber (ModifiedLine.line d)) tb data.

(** [r] is an Added row of the group [start] that shows the added line [a]
    under its new line number. *)
Definition addedRowShows (start : Z) (a : ModifiedLine.t)
    (ta : option ILineTokens) (r : SimplifiedDiffRow) : Prop :=
  exists data,
    r = AddedRow data start
    /\ showsLine a (DiffLine.newLineNumber (ModifiedLine.line a)) ta data.

(** Number of Modified rows of a run: the shorter of its two sides in
    side-by-side mode, none in unified mode. *)
Definition pairCount (showSideBySideDiff : bool)
    (added deleted : list ModifiedLine.t) : nat :=
  if showSideBySideDiff
  then Nat.min (List.length added) (List.length deleted)
  else O.

(** Whether emphasis is computed for the pair of [d] and [a], in the words
    of the description: equal counts and both contents below the limit. *)
Definition emphasisComputed (added deleted : list ModifiedLine.t)
    (d a : ModifiedLine.t) : bool :=
  bool_decide (List.length added = List.length deleted)
  && bool_decide (strlen (DiffLine.content (ModifiedLine.line d)) < 240)
  && bool_decide (strlen (DiffLine.content (ModifiedLine.line a)) < 240).

(** A buffered line that has the line number its row needs. *)
Definition hasOld (d : ModifiedLine.t) : Prop :=
  is_Some (DiffLine.oldLineNumber (ModifiedLine.line d)).
Definition hasNew (a : ModifiedLine.t) : Prop :=
  is_Some (DiffLine.newLineNumber (ModifiedLine.line a)).

(** The emphasis tokens of one side ([fst]: before, [snd]: after) for
    the pair of [d] and [a], present when they are computed. *)
Definition emphasisOf (side : ILineTokens * ILineTokens -> ILineTokens)
    (computed : bool) (d a : ModifiedLine.t) : option ILineTokens :=
  if computed
  then Some (side (getDiffTokens (DiffLine.content (ModifiedLine.line d))
                                 (DiffLine.content (ModifiedLine.line a))))
  else None.

(** A buffered line whose underlying line is well formed. *)
Definition wellFormedModifiedLine (ml : ModifiedLine.t) : Prop :=
  wellFormedLine (ModifiedLine.line ml).

(** Where the run ends: at the end of the hunk or at a line that is neither
    added nor deleted. *)
Definition closes (post : list DiffLine.t) : Prop :=
  match post with
  | [] => True
  | l :: _ => ~ isChange l
  end.

(** What precedes the run: nothing, or lines the last of which is neither
    added nor deleted. *)
Definition opens (pre : list DiffLine.t) : Prop :=
  match last pre with
  | None => True
  | Some l => ~ isChange l
  end.

(** *** Drag release *)

(** A row that can resolve to diff line numbers: Added, Deleted or
    Modified. Hunk-header rows, Context rows and indexes outside the row
    sequence cannot. *)
Definition contributes (row : option SimplifiedDiffRow) : bool :=
  match row with
  | Some (AddedRow _ _) | Some (DeletedRow _ _) | Some (ModifiedRow _ _ _) =>
      true
  | _ => false
  end.

(** The diff line numbers that row [r] hands to the batch update of a drag
    from column [fromColumn] to column [toColumn], in the order in which
    they are applied. *)
Definition lineNumbersOfRow (rows : list SimplifiedDiffRow)
    (fromColumn toColumn : DiffColumn.t) (r : Z) : list Z :=
  match array_get rows r with
  | Some (AddedRow data _) | Some (DeletedRow data _) =>
      option_list (SimplifiedDiffRowData.diffLineNumber data)
      ++ option_list (SimplifiedDiffRowData.diffLineNumber data)
  | Some (ModifiedRow beforeData afterData _) =>
      let pick (column : DiffColumn.t) :=
        match column with
        | DiffColumn.After => SimplifiedDiffRowData.diffLineNumber afterData
        | DiffColumn.Before => SimplifiedDiffRowData.diffLineNumber beforeData
        end in
      option_list (pick fromColumn) ++ option_list (pick toColumn)
  | _ => []
  end.

(** The batch update: every line number gets the flag of the drag. *)
Definition applyLines (isSelected : bool) (selection : DiffSelection)
    (lineNumbers : list Z) : DiffSelection :=
  foldl (fun s l => withLineSelection s l isSelected) selection lineNumbers.

(** *** Token overlay *)

(** The search tokens of a cell, none when [getSearchTokens] has none. *)
Definition searchPart (c : Component.t) (row : Z) (column : DiffColumn.t)
  : list ILineTokens :=
  match getSearchTokens c row column with
  | Some searchTokens => searchTokens
  | None => []
  end.

(** The syntax tokens a Context row gets: those of its old line number in
    the table of the old file and, failing that, those of its new line
    number in the table of the new file. *)
Definition contextSyntax (c : Component.t)
    (beforeLineNumber afterLineNumber : Z) : option ILineTokens :=
  match getTokens beforeLineNumber (State.beforeTokens (Component.state c))
  with
  | Some t => Some t
  | None => getTokens afterLineNumber (State.afterTokens (Component.state c))
  end.

(** The order of the description: emphasis, then search, then syntax. *)
Definition describedOrder (emphasis search : list ILineTokens)
    (syntax : option ILineTokens) : list ILineTokens :=
  emphasis ++ search ++ option_list syntax.

(** Every recorded hit has its token in the lookup table of its cell. *)
Definition consistent (sr : SearchResults.t) : Prop :=
  forall row column offset length,
    (row, column, offset, length) ∈ SearchResults.hits sr ->
    exists lineTokens,
      SearchResults.lookup sr !! (row, column) = Some lineTokens
      /\ is_Some (lineTokens !! offset).

(** The selected hit lies in the cell ([row], [column]). *)
Definition selectedHitIn (c : Component.t) (sr : SearchResults.t)
    (row : Z) (column : DiffColumn.t) (hit : Hit.t) : Prop :=
  exists k,
    State.selectedSearchResult (Component.state c) = Some k
    /\ SearchResults.get sr k = Some hit
    /\ Hit.row hit = row /\ Hit.column hit = column.

(** *** Search *)

(** The cells of a row that the search scans. *)
Definition cellsToScan (row : SimplifiedDiffRow) (showSideBySideDiffs : bool)
  : list (DiffColumn.t * string) :=
  match row with
  | HunkRow _ _ _ => []
  | ContextRow content _ _ _ _ =>
      if showSideBySideDiffs
      then [(DiffColumn.Before, content); (DiffColumn.After, content)]
      else [(DiffColumn.Before, content)]
  | ModifiedRow beforeData afterData _ =>
      [(DiffColumn.Before, SimplifiedDiffRowData.content beforeData);
       (DiffColumn.After, SimplifiedDiffRowData.content afterData)]
  | DeletedRow data _ =>
      [(DiffColumn.Before, SimplifiedDiffRowData.content data)]
  | AddedRow data _ =>
      [(if showSideBySideDiffs then DiffColumn.After else DiffColumn.Before,
        SimplifiedDiffRowData.content data)]
  end.

(** The cells of a row as the description has them: both columns of a
    Context row in either mode. *)
Definition cellsToScanAsDescribed (row : SimplifiedDiffRow)
    (showSideBySideDiffs : bool) : list (DiffColumn.t * string) :=
  match row with
  | ContextRow content _ _ _ _ =>
      [(DiffColumn.Before, content); (DiffColumn.After, content)]
  | _ => cellsToScan row showSideBySideDiffs
  end.

(** The hits of one cell, in the order of the scan. *)
Definition hitsOfCell (query : string) (rowNumber : Z)
    (cell : DiffColumn.t * string) : list (Z * DiffColumn.t * Z * Z) :=
  (fun m => (rowNumber, cell.1, m.1, m.2)) <$> matchAll query cell.2.

(** The hits of a row sequence whose first row has index [first]. *)
Definition hitsOfRows (query : string) (showSideBySideDiffs : bool)
    (first : Z) (rows : list SimplifiedDiffRow)
  : list (Z * DiffColumn.t * Z * Z) :=
  concat (imap (fun i row =>
                  concat (hitsOfCell query (first + Z.of_nat i)
                            <$> cellsToScan row showSideBySideDiffs))
               rows).

(** A string with every character case folded. *)
Fixpoint foldCase (s : string) : string :=
  match s with
  | EmptyString => EmptyString
  | String ch s' => String (canonicalize ch) (foldCase s')
  end.

(** The literal [query] occurs in [content] at [offset], up to case. *)
Definition occursAt (query content : string) (offset : Z) : Prop :=
  exists pre mid post,
    content = pre +:+ mid +:+ post
    /\ strlen pre = offset
    /\ foldCase mid = foldCase query.

End Descriptions.

(** ** Sample collaborators and data for the examples *)

(** Modelled from the spec: [DiffSelection] of models/diff is not part of
    this file; the spec calls it a persisted mapping from diff line number
    to an included flag. Here: the set of included line numbers. *)
Definition sampleIsSelected (selection : gset Z) (n : Z) : bool :=
  bool_decide (n ∈ selection).
Definition sampleWithLineSelection (selection : gset Z) (n : Z) (b : bool)
  : gset Z :=
  if b then {[n]} ∪ selection else selection ∖ {[n]}.

(** A stand-in for [getDiffTokens]: one token over each whole line. *)
Definition sampleGetDiffTokens (before after : string)
  : ILineTokens * ILineTokens :=
  ({[ 0 := IToken.mk (strlen before) "diff-delete-inner" ]},
   {[ 0 := IToken.mk (strlen after) "diff-add-inner" ]}).

(** Modelled from the spec: [getTokens] of diff-syntax-mode is not part of
    this file; the spec says syntax tokens are looked up by line number and
    that an absent table contributes nothing. *)
Definition sampleGetTokens (lineNumber : Z) (tokens : option ITokens)
  : option ILineTokens :=
  match tokens with
  | Some table => table !! lineNumber
  | None => None
  end.

(** A stand-in for [expandWholeTextDiff]: the whole file as one hunk of
    context lines; no update for a diff without hunks. *)
Definition sampleExpandWholeTextDiff (diff : ITextDiff.t)
    (newContents : list string) : option ITextDiff.t :=
  match ITextDiff.hunks diff with
  | [] => None
  | _ =>
      Some {| ITextDiff.text := ITextDiff.text diff;
              ITextDiff.hunks :=
                [ {| DiffHunk.lines :=
                       imap (fun i l =>
                               let n := Z.of_nat (S i) in
                               DiffLine.mk (" " +:+ l)
                                 DiffLineType.Context None (Some n) (Some n)
                                 false l)
                            newContents;
                     DiffHunk.unifiedDiffStart := 0;
                     DiffHunk.expansionType := DiffHunkExpansionType.None |} ];
              ITextDiff.maxLineNumber :=
                Z.of_nat (List.length newContents) |}
  end.

(** Case folding of the letters a to z. *)
Definition sampleCanonicalize (c : Ascii.ascii) : Ascii.ascii :=
  let n := Ascii.nat_of_ascii c in
  if bool_decide (97 <= n <= 122)%nat
  then Ascii.ascii_of_nat (n - 32) else c.

Definition sample : Collaborators :=
  {| DiffSelection := gset Z;
     isSelected := sampleIsSelected;
     withLineSelection := sampleWithLineSelection;
     getDiffTokens := sampleGetDiffTokens;
     getTokens := sampleGetTokens;
     expandWholeTextDiff := sampleExpandWholeTextDiff;
     canonicalize := sampleCanonicalize |}.

(** The diff
<<
    @@ -1,3 +1,3 @@
     foo
    -bar
    +Foo bar
     baz
>>  *)
Definition sampleHeader : DiffLine.t :=
  DiffLine.mk "@@ -1,3 +1,3 @@" DiffLineType.Hunk None None None false
              "@ -1,3 +1,3 @@".
Definition sampleFoo : DiffLine.t :=
  DiffLine.mk " foo" DiffLineType.Context None (Some 1) (Some 1) false "foo".
Definition sampleBar : DiffLine.t :=
  DiffLine.mk "-bar" DiffLineType.Delete (Some 2) (Some 2) None false "bar".
Definition sampleFooBar : DiffLine.t :=
  DiffLine.mk "+Foo bar" DiffLineType.Add (Some 3) None (Some 2) false
              "Foo bar".
Definition sampleBaz : DiffLine.t :=
  DiffLine.mk " baz" DiffLineType.Context None (Some 3) (Some 3) false "baz".

Definition sampleHunk : DiffHunk.t :=
  {| DiffHunk.lines :=
       [sampleHeader; sampleFoo; sampleBar; sampleFooBar; sampleBaz];
     DiffHunk.unifiedDiffStart := 0;
     DiffHunk.expansionType := DiffHunkExpansionType.Both |}.

Definition sampleDiff : ITextDiff.t :=
  {| ITextDiff.text := "@@ -1,3 +1,3 @@";
     ITextDiff.hunks := [sampleHunk];
     ITextDiff.maxLineNumber := 3 |}.

Definition sampleState : State.t :=
  {| State.diff := sampleDiff;
     State.beforeTokens := None;
     State.afterTokens := None;
     State.temporarySelection := None;
     State.hoveredHunk := None;
     State.isSearching := true;
     State.searchQuery := None;
     State.searchResults := None;
     State.selectedSearchResult := None |}.

Definition sampleProps (showSideBySideDiff : bool) : @Props.t sample :=
  @Props.mk sample sampleDiff
    (Some {| IFileContents.canBeExpanded := true;
             IFileContents.newContents := ["foo"; "Foo bar"; "baz"] |})
    showSideBySideDiff
    (Some ({[3]} : gset Z)).

(** The component with the search box open and nothing searched yet. *)
Definition sampleComponent (showSideBySideDiff : bool) : @Component.t sample :=
  @Component.mk sample (sampleProps showSideBySideDiff) sampleState None.

(** The sample component in unified mode after a first search for "foo":
    two hits, the first one selected. *)
Definition sampleSearched : @Component.t sample :=
  match @onSearch sample (sampleComponent false) "foo" next with
  | Ok (c, _) => c
  | Fatal => sampleComponent false
  end.

(** The sample component in side-by-side mode after a first search for
    "foo" (three hits, the first one selected) and with syntax tokens: the
    table of the old file has line 1 only, the table of the new file has
    lines 1, 2 and 3. *)
Definition sampleBeforeTable : ITokens :=
  {[ 1 := {[ 0 := IToken.mk 3 "cm-variable" ]} ]}.
Definition sampleAfterTable : ITokens :=
  {[ 1 := {[ 0 := IToken.mk 3 "cm-keyword" ]};
     2 := {[ 0 := IToken.mk 7 "cm-string" ]};
     3 := {[ 0 := IToken.mk 3 "cm-def" ]} ]}.

Definition withTokens (st : State.t) (beforeTokens afterTokens : ITokens)
  : State.t :=
  {| State.diff := State.diff st;
     State.beforeTokens := Some beforeTokens;
     State.afterTokens := Some afterTokens;
     State.temporarySelection := State.temporarySelection st;
     State.hoveredHunk := State.hoveredHunk st;
     State.isSearching := State.isSearching st;
     State.searchQuery := State.searchQuery st;
     State.searchResults := State.searchResults st;
     State.selectedSearchResult := State.selectedSearchResult st |}.

Definition sampleHighlighted : @Component.t sample :=
  match @onSearch sample (sampleComponent true) "foo" next with
  | Ok (c, _) =>
      @setState sample c
        (withTokens (@Component.state sample c)
           sampleBeforeTable sampleAfterTable)
  | Fatal => sampleComponent true
  end.

(** The sample component in side-by-side mode during an additive drag that
    started at row 0 in the before column and is now at row 5 in the after
    column. *)
Definition sampleDragging : @Component.t sample :=
  @onUpdateSelection sample
    (@onStartSelection sample (sampleComponent true) 0 DiffColumn.Before true)
    5 DiffColumn.After.

(** The run of the sample hunk: one deleted and one added line. *)
Definition sampleRun : list ModifiedLine.t :=
  [ModifiedLine.mk sampleBar 2; ModifiedLine.mk sampleFooBar 3].

(** The rows of the sample diff. *)
Definition sampleRows (showSideBySideDiff : bool) : list SimplifiedDiffRow :=
  match @getDiffRows sample sampleDiff showSideBySideDiff true with
  | Ok rows => rows
  | Fatal => []
  end.

(** The results of searching the sample diff. *)
Definition sampleResults (showSideBySideDiff : bool) (query : string)
  : SearchResults.t :=
  match @calcSearchTokens sample sampleDiff showSideBySideDiff query true with
  | Ok (Some sr) => sr
  | _ => SearchResults.empty
  end.

(** ** More of the component: hover, hunk expansion, menu, keys, updates *)

(** What the host supplies besides the collaborators above. *)
Class HostCollaborators := {
  (** [DiffExpansionKind] of text-diff-expansion. *)
  DiffExpansionKind : Type;
  (** [expandTextDiffHunk(diff, hunk, kind, newContents)]; the hunk is
      whatever [diff.hunks[hunkIndex]] evaluates to. *)
  expandTextDiffHunk :
    ITextDiff.t -> option DiffHunk.t -> DiffExpansionKind -> list string ->
    option ITextDiff.t;
  (** The build constant [__DARWIN__]. *)
  DARWIN : bool
}.

Inductive MenuAction := ExpandWholeFileAction | CollapseExpandedLinesAction.

Module IMenuItem.
(** The fields of [IMenuItem] that [buildExpandMenuItem] sets; [enabled]
    is absent from the collapse item. *)
Record t := mk {
  label : string;
  action : MenuAction;
  enabled : option bool
}.
End IMenuItem.

Module KeyboardEvent.
Record t := mk {
  defaultPrevented : bool;
  metaKey : bool;
  ctrlKey : bool;
  shiftKey : bool;
  altKey : bool;
  key : string
}.
End KeyboardEvent.

Module Mounted.
(** A mounted component together with what the modelled props leave out:
    which object [this.props] is, [props.file.id],
    [props.fileContents.file.id] (read only when [fileContents] is not
    [null]) and whether [virtualListRef.current] is set. *)
Record t `{Collaborators} := mk {
  component : Component.t;
  propsIdentity : positive;
  fileId : string;
  fileContentsFileId : string;
  listMounted : bool
}.
End Mounted.

Module UpdateEffects.
(** What [componentDidUpdate] triggers besides changes of the component. *)
Record t := mk {
  initDiffSyntaxMode : bool;
  clearListRowsHeightCache : bool;
  scrollToTop : bool
}.
End UpdateEffects.

Section MoreModel.
Context `{Collaborators} `{HostCollaborators}.

(** *** Hover *)

Definition withHoveredHunk (st : State.t) (hoveredHunk : option Z)
  : State.t :=
  {| State.diff := State.diff st;
     State.beforeTokens := State.beforeTokens st;
     State.afterTokens := State.afterTokens st;
     State.temporarySelection := State.temporarySelection st;
     State.hoveredHunk := hoveredHunk;
     State.isSearching := State.isSearching st;
     State.searchQuery := State.searchQuery st;
     State.searchResults := State.searchResults st;
     State.selectedSearchResult := State.selectedSearchResult st |}.

Definition onMouseEnterHunk (c : Component.t) (hunkStartLine : Z)
  : Component.t :=
  match State.temporarySelection (Component.state c) with
  | None => setState c (withHoveredHunk (Component.state c)
                          (Some hunkStartLine))
  | Some _ => c
  end.

Definition onMouseLeaveHunk (c : Component.t) : Component.t :=
  setState c (withHoveredHunk (Component.state c) None).

(** [isHunkHovered] of [renderRow]:
    ['hunkStartLine' in row && this.state.hoveredHunk === row.hunkStartLine] *)
Definition isHunkHovered (c : Component.t) (row : SimplifiedDiffRow) : bool :=
  match row with
  | AddedRow _ hunkStartLine | DeletedRow _ hunkStartLine
  | ModifiedRow _ _ hunkStartLine =>
      bool_decide (State.hoveredHunk (Component.state c) = Some hunkStartLine)
  | _ => false
  end.

(** [renderRow]: [null] when there is no row at [index], else the row with
    its tokens and whether its group is hovered (the two values computed
    here that the row component receives). *)
Definition renderRow (c : Component.t) (index : Z)
  : Fallible (option (DiffRow * bool)) :=
  rows ← getDiffRows (State.diff (Component.state c))
            (Props.showSideBySideDiff (Component.props c))
            (canExpandDiff c);
  match array_get rows index with
  | None => Ok None
  | Some row => Ok (Some (createFullRow c row index, isHunkHovered c row))
  end.

(** *** Expansion of one hunk *)

Definition expandHunk (c : Component.t) (hunk : option DiffHunk.t)
    (kind : DiffExpansionKind) : Component.t :=
  match Props.fileContents (Component.props c) with
  | None => c
  | Some contents =>
      if negb (canExpandDiff c) then c
      else
        match expandTextDiffHunk (State.diff (Component.state c)) hunk kind
                (IFileContents.newContents contents) with
        | None => c
        | Some updatedDiff =>
            setState c (withDiff (Component.state c) updatedDiff)
        end
  end.

Definition onExpandHunk (c : Component.t) (hunkIndex : Z)
    (kind : DiffExpansionKind) : Component.t :=
  let diff := State.diff (Component.state c) in
  if bool_decide (hunkIndex = -1)
     || bool_decide (Z.of_nat (List.length (ITextDiff.hunks diff))
                     <= hunkIndex)
  then c
  else expandHunk c (array_get (ITextDiff.hunks diff) hunkIndex) kind.

(** *** The expand / collapse menu item *)

Definition buildExpandMenuItem (c : Component.t) : option IMenuItem.t :=
  let diff := State.diff (Component.state c) in
  if negb (canExpandDiff c) then None
  else
    match Component.diffToRestore c with
    | None =>
        Some {| IMenuItem.label :=
                  if DARWIN then "Expand Whole File" else "Expand whole file";
                IMenuItem.action := ExpandWholeFileAction;
                IMenuItem.enabled :=
                  Some (negb (bool_decide
                                (List.length (ITextDiff.hunks diff) = 1%nat))
                        || match ITextDiff.hunks diff with
                           | hunk :: _ =>
                               match DiffHunk.expansionType hunk with
                               | DiffHunkExpansionType.None => false
                               | _ => true
                               end
                           | [] => true
                           end) |}
    | Some _ =>
        Some {| IMenuItem.label :=
                  if DARWIN then "Collapse Expanded Lines"
                  else "Collapse expanded lines";
                IMenuItem.action := CollapseExpandedLinesAction;
                IMenuItem.enabled := None |}
    end.

(** Running the [action] of a menu item. *)
Definition runMenuAction (c : Component.t) (action : MenuAction)
  : Component.t :=
  match action with
  | ExpandWholeFileAction => onExpandWholeFile c
  | CollapseExpandedLinesAction => onCollapseExpandedLines c
  end.

(** [onContextMenuExpandHunk]: the items handed to [showContextualMenu],
    [None] when no menu is shown. *)
Definition onContextMenuExpandHunk (c : Component.t)
  : option (list IMenuItem.t) :=
  match buildExpandMenuItem c with
  | None => None
  | Some expandMenuItem => Some [expandMenuItem]
  end.

(** *** Keys *)

(** [onWindowKeyDown]: the component and whether [preventDefault] was
    called. *)
Definition onWindowKeyDown (c : Component.t) (event : KeyboardEvent.t)
  : Component.t * bool :=
  if KeyboardEvent.defaultPrevented event then (c, false)
  else
    let isCmdOrCtrl :=
      if DARWIN
      then KeyboardEvent.metaKey event && negb (KeyboardEvent.ctrlKey event)
      else KeyboardEvent.ctrlKey event in
    if isCmdOrCtrl && negb (KeyboardEvent.shiftKey event)
       && negb (KeyboardEvent.altKey event)
       && bool_decide (KeyboardEvent.key event = "f")
    then (showSearch c, true)
    else (c, false).

(** *** Updates and asynchronous highlighting *)

(** [props.fileContents?.file.id] *)
Definition contentsFileId (m : Mounted.t) : option string :=
  match Props.fileContents (Component.props (Mounted.component m)) with
  | Some _ => Some (Mounted.fileContentsFileId m)
  | None => None
  end.

(** [highlightParametersEqual(newProps, prevProps, newState, prevState)];
    the props are those of [new] and [prev]. *)
Definition highlightParametersEqual (new prev : Mounted.t)
    (newState prevState : State.t) : bool :=
  (bool_decide (Mounted.propsIdentity new = Mounted.propsIdentity prev)
   || (bool_decide (Mounted.fileId new = Mounted.fileId prev)
       && bool_decide
            (Props.showSideBySideDiff
               (Component.props (Mounted.component new))
             = Props.showSideBySideDiff
                 (Component.props (Mounted.component prev)))))
  && bool_decide (ITextDiff.text (State.diff newState)
                  = ITextDiff.text (State.diff prevState))
  && bool_decide (contentsFileId prev = contentsFileId new).

Definition withComponent (m : Mounted.t) (c : Component.t) : Mounted.t :=
  {| Mounted.component := c;
     Mounted.propsIdentity := Mounted.propsIdentity m;
     Mounted.fileId := Mounted.fileId m;
     Mounted.fileContentsFileId := Mounted.fileContentsFileId m;
     Mounted.listMounted := Mounted.listMounted m |}.

(** [componentDidUpdate(prevProps, prevState)]: [prev] holds the previous
    props and state. *)
Definition componentDidUpdate (m prev : Mounted.t)
  : Mounted.t * UpdateEffects.t :=
  let c := Mounted.component m in
  let stale :=
    negb (highlightParametersEqual m prev (Component.state c)
            (Component.state (Mounted.component prev))) in
  let m' :=
    if bool_decide
         (ITextDiff.text (Props.diff (Component.props c))
          <> ITextDiff.text
               (Props.diff (Component.props (Mounted.component prev))))
    then
      withComponent m
        {| Component.props := Component.props c;
           Component.state :=
             withDiff (Component.state c) (Props.diff (Component.props c));
           Component.diffToRestore := None |}
    else m in
  (m',
   {| UpdateEffects.initDiffSyntaxMode := stale;
      UpdateEffects.clearListRowsHeightCache := stale;
      UpdateEffects.scrollToTop :=
        Mounted.listMounted m
        && bool_decide (Mounted.fileId m <> Mounted.fileId prev) |}).

(** [initDiffSyntaxMode] up to its [await]: nothing is requested without
    file contents; else the props and state are kept as the snapshot. *)
Definition initDiffSyntaxMode_request (m : Mounted.t) : option Mounted.t :=
  match Props.fileContents (Component.props (Mounted.component m)) with
  | None => None
  | Some _ => Some m
  end.

Definition withLineTokens (st : State.t) (beforeTokens afterTokens : ITokens)
  : State.t :=
  {| State.diff := State.diff st;
     State.beforeTokens := Some beforeTokens;
     State.afterTokens := Some afterTokens;
     State.temporarySelection := State.temporarySelection st;
     State.hoveredHunk := State.hoveredHunk st;
     State.isSearching := State.isSearching st;
     State.searchQuery := State.searchQuery st;
     State.searchResults := State.searchResults st;
     State.selectedSearchResult := State.selectedSearchResult st |}.

(** [initDiffSyntaxMode] after its [await]: [m] is the component as it is
    when [highlightContents] resolves with [oldTokens] and [newTokens]. *)
Definition initDiffSyntaxMode_complete (m snapshot : Mounted.t)
    (oldTokens newTokens : ITokens) : Mounted.t :=
  if negb (highlightParametersEqual m snapshot
             (Component.state (Mounted.component m))
             (Component.state (Mounted.component snapshot)))
  then m
  else withComponent m
         (setState (Mounted.component m)
            (withLineTokens (Component.state (Mounted.component m))
               oldTokens newTokens)).

End MoreModel.

(** ** Further descriptions *)

Section MoreDescriptions.
Context `{Collaborators}.

(** A buffered line that is an added or a deleted line. *)
Definition changeLine (ml : ModifiedLine.t) : Prop :=
  isChange (ModifiedLine.line ml).

(** The number of lines a row shows: two for a Modified row, one
    otherwise. *)
Definition cellsOf (row : SimplifiedDiffRow) : nat :=
  match row with
  | ModifiedRow _ _ _ => 2
  | _ => 1
  end.

Definition isModifiedRow (row : SimplifiedDiffRow) : Prop :=
  match row with
  | ModifiedRow _ _ _ => True
  | _ => False
  end.

(** All hunks of a diff have only well-formed lines. *)
Definition wellFormedDiff (diff : ITextDiff.t) : Prop :=
  Forall (fun hunk => Forall wellFormedLine (DiffHunk.lines hunk))
         (ITextDiff.hunks diff).

(** The number of lines of a diff, hunk headers included. *)
Definition lineCount (diff : ITextDiff.t) : nat :=
  sum_list_with (fun hunk => List.length (DiffHunk.lines hunk))
                (ITextDiff.hunks diff).

(** What holds of every row the classifier makes for the hunks [hunks],
    the first of which has index [first]: a Hunk-header row carries the
    index of its hunk and that hunk's expansion type, or none when expansion
    is disabled; a Context row has no tokens yet; a Modified row exists in
    side-by-side mode only. *)
Definition classifierRow (first : Z) (hunks : list DiffHunk.t)
    (sbs en : bool) (row : SimplifiedDiffRow) : Prop :=
  match row with
  | HunkRow _ expansionType hunkIndex =>
      exists (k : nat) hunk,
        hunkIndex = first + Z.of_nat k /\ hunks !! k = Some hunk
        /\ expansionType = (if en then DiffHunk.expansionType hunk
                            else DiffHunkExpansionType.None)
  | ContextRow _ _ _ beforeTokens afterTokens =>
      beforeTokens = [] /\ afterTokens = []
  | ModifiedRow _ _ _ => sbs = true
  | _ => True
  end.

(** The order of the scan on hits: by row, then before column first, then
    by offset, a hit ending before the next one of its cell starts. *)
Definition columnRank (c : DiffColumn.t) : Z :=
  match c with
  | DiffColumn.Before => 0
  | DiffColumn.After => 1
  end.

Definition hitBefore (h1 h2 : Z * DiffColumn.t * Z * Z) : Prop :=
  h1.1.1.1 < h2.1.1.1
  \/ (h1.1.1.1 = h2.1.1.1
      /\ (columnRank h1.1.1.2 < columnRank h2.1.1.2
          \/ (h1.1.1.2 = h2.1.1.2 /\ h1.1.2 + h1.2 <= h2.1.2))).

(** The token every search hit of length [L] puts in the lookup table. *)
Definition searchToken (L : Z) : IToken.t := IToken.mk L "search-result".

(** The two indexes of search results agree: every hit has length [L] and
    its token at its offset in the table of its cell; every token of the
    table is the token of a hit; no cell has an empty table. *)
Definition indexesAgree (L : Z) (sr : SearchResults.t) : Prop :=
  (forall row column offset length,
     (row, column, offset, length) ∈ SearchResults.hits sr ->
     length = L
     /\ exists lineTokens,
          SearchResults.lookup sr !! (row, column) = Some lineTokens
          /\ lineTokens !! offset = Some (searchToken L))
  /\ (forall row column (lineTokens : ILineTokens) offset token,
        SearchResults.lookup sr !! (row, column) = Some lineTokens ->
        lineTokens !! offset = Some token ->
        token = searchToken L
        /\ (row, column, offset, L) ∈ SearchResults.hits sr)
  /\ (forall key (lineTokens : ILineTokens),
        SearchResults.lookup sr !! key = Some lineTokens ->
        lineTokens <> ∅).

(** The search fields of a state fit together: without results there is no
    query and no selected hit; with results there is a non-empty query, the
    results are consistent and the selected index addresses one of the
    hits. *)
Definition searchStateOk (st : State.t) : Prop :=
  match State.searchResults st with
  | None => State.searchQuery st = None /\ State.selectedSearchResult st = None
  | Some sr =>
      consistent sr
      /\ exists query i,
           State.searchQuery st = Some query /\ query <> EmptyString
           /\ State.selectedSearchResult st = Some i
           /\ 0 <= i < SearchResults.length sr
  end.

(** The laws of [DiffSelection] that the drag relies on: a line has the
    flag it was last given, and giving a flag to one line leaves the others
    alone. *)
Definition lawfulSelection : Prop :=
  (forall (s : DiffSelection) l b,
     isSelected (withLineSelection s l b) l = b)
  /\ (forall (s : DiffSelection) l l' b,
        l <> l' ->
        isSelected (withLineSelection s l b) l' = isSelected s l').

(** The cells of a row that can be selected, with the column under which
    [createFullRow] populates each. *)
Definition populatedCells (showSideBySideDiff : bool)
    (row : SimplifiedDiffRow)
  : list (SimplifiedDiffRowData.t * DiffColumn.t) :=
  match row with
  | AddedRow data _ =>
      [(data, if showSideBySideDiff
              then DiffColumn.After else DiffColumn.Before)]
  | DeletedRow data _ => [(data, DiffColumn.Before)]
  | ModifiedRow beforeData afterData _ =>
      [(beforeData, DiffColumn.Before); (afterData, DiffColumn.After)]
  | _ => []
  end.

(** The diff line numbers that the release of the drag [drag] over the rows
    [rows] hands to the batch update. *)
Definition releasedLines (rows : list SimplifiedDiffRow)
    (drag : ISelection.t) : list Z :=
  let tmpFrom := ISelection.from drag in
  let tmpTo := ISelection.to drag in
  let fromRow :=
    Z.min (ISelectionPoint.row tmpFrom) (ISelectionPoint.row tmpTo) in
  let toRow :=
    Z.max (ISelectionPoint.row tmpFrom) (ISelectionPoint.row tmpTo) in
  concat (lineNumbersOfRow rows (ISelectionPoint.column tmpFrom)
            (ISelectionPoint.column tmpTo)
          <$> seqZ fromRow (toRow - fromRow + 1)).

(** The mouse moves of a drag, one after the other. *)
Definition dragThrough (c : Component.t)
    (moves : list (Z * DiffColumn.t)) : Component.t :=
  foldl (fun c move => onUpdateSelection c move.1 move.2) c moves.

(** A line as a row shows it: its type, its text, its old and its new line
    number, its original diff line number and its end-of-file marker (a
    hunk header and a context line show neither of the last two, an added
    line no old and a deleted line no new line number). *)
Definition Shown : Type :=
  DiffLineType.t * string * option Z * option Z * option Z * bool.

(** What there is to show of a line of the diff. *)
Definition shownOfLine (l : DiffLine.t) : Shown :=
  match DiffLine.type l with
  | DiffLineType.Hunk =>
      (DiffLineType.Hunk, DiffLine.text l, None, None, None, false)
  | DiffLineType.Context =>
      (DiffLineType.Context, DiffLine.content l, DiffLine.oldLineNumber l,
       DiffLine.newLineNumber l, None, false)
  | DiffLineType.Add =>
      (DiffLineType.Add, DiffLine.content l, None, DiffLine.newLineNumber l,
       DiffLine.originalLineNumber l, DiffLine.noTrailingNewLine l)
  | DiffLineType.Delete =>
      (DiffLineType.Delete, DiffLine.content l, DiffLine.oldLineNumber l,
       None, DiffLine.originalLineNumber l, DiffLine.noTrailingNewLine l)
  end.

(** What there is to show of a buffered line. *)
Definition shownOfBuffered (ml : ModifiedLine.t) : Shown :=
  shownOfLine (ModifiedLine.line ml).

(** What a cell of a deleted line, and of an added line, shows. *)
Definition shownDeleted (data : SimplifiedDiffRowData.t) : Shown :=
  (DiffLineType.Delete, SimplifiedDiffRowData.content data,
   Some (SimplifiedDiffRowData.lineNumber data), None,
   SimplifiedDiffRowData.diffLineNumber data,
   SimplifiedDiffRowData.noNewLineIndicator data).
Definition shownAdded (data : SimplifiedDiffRowData.t) : Shown :=
  (DiffLineType.Add, SimplifiedDiffRowData.content data, None,
   Some (SimplifiedDiffRowData.lineNumber data),
   SimplifiedDiffRowData.diffLineNumber data,
   SimplifiedDiffRowData.noNewLineIndicator data).

(** The lines that a row shows: one, or the deleted and the added line of
    a Modified row. *)
Definition shownOfRow (row : SimplifiedDiffRow) : list Shown :=
  match row with
  | HunkRow content _ _ =>
      [(DiffLineType.Hunk, content, None, None, None, false)]
  | ContextRow content beforeLineNumber afterLineNumber _ _ =>
      [(DiffLineType.Context, content, Some beforeLineNumber,
        Some afterLineNumber, None, false)]
  | AddedRow data _ => [shownAdded data]
  | DeletedRow data _ => [shownDeleted data]
  | ModifiedRow beforeData afterData _ =>
      [shownDeleted beforeData; shownAdded afterData]
  end.

(** The lines of a diff, hunk by hunk, as there is to show them. *)
Definition shownOfDiff (diff : ITextDiff.t) : list Shown :=
  shownOfLine <$> concat (DiffHunk.lines <$> ITextDiff.hunks diff).

End MoreDescriptions.

Section HostDescriptions.
Context `{Collaborators} `{HostCollaborators}.

(** The [hunkStartLine] of a row that has one. *)
Definition hunkStartLineOf (row : DiffRow) : option Z :=
  match row with
  | FullAddedRow _ hunkStartLine | FullDeletedRow _ hunkStartLine
  | FullModifiedRow _ _ hunkStartLine => Some hunkStartLine
  | _ => None
  end.

(** What [renderRow] gives for a rendered row when the hovered group is
    [hoveredHunk] and all else is as it was. *)
Definition withHover (hoveredHunk : option Z)
    (rendered : option (DiffRow * bool)) : option (DiffRow * bool) :=
  match rendered with
  | Some (row, _) =>
      Some (row,
            match hunkStartLineOf row with
            | Some hunkStartLine =>
                bool_decide (hoveredHunk = Some hunkStartLine)
            | None => false
            end)
  | None => None
  end.

(** Hunk expansions, one after the other. *)
Definition expandThrough (c : Component.t)
    (expansions : list (Z * DiffExpansionKind)) : Component.t :=
  foldl (fun c e => onExpandHunk c e.1 e.2) c expansions.

End HostDescriptions.

(** ** Sample host and further sample data *)

(** A stand-in for [expandTextDiffHunk]: expanding a hunk that exists shows
    the whole file; no update without a hunk. The kinds are up and down. *)
Definition sampleExpandTextDiffHunk (diff : ITextDiff.t)
    (hunk : option DiffHunk.t) (kind : bool) (newContents : list string)
  : option ITextDiff.t :=
  match hunk with
  | Some _ => sampleExpandWholeTextDiff diff newContents
  | None => None
  end.

Definition sampleHost : HostCollaborators :=
  {| DiffExpansionKind := bool;
     expandTextDiffHunk := sampleExpandTextDiffHunk;
     DARWIN := false |}.

(** The sample component in unified mode during a subtractive drag in the
    before column from row 1 to row 3: over the Context row of foo, the
    Deleted row of bar and the Added row of Foo bar. *)
Definition sampleDraggingUnified : @Component.t sample :=
  @onUpdateSelection sample
    (@onStartSelection sample (sampleComponent false) 1 DiffColumn.Before
       false)
    3 DiffColumn.Before.

(** Another diff of the same file, with another text. *)
Definition sampleOtherDiff : ITextDiff.t :=
  {| ITextDiff.text := "@@ -1,3 +1,4 @@";
     ITextDiff.hunks := [];
     ITextDiff.maxLineNumber := 4 |}.

(** The mounted sample component before new props arrive. *)
Definition sampleMounted : @Mounted.t sample :=
  @Mounted.mk sample (sampleComponent true) 1%positive "a.txt" "a.txt" true.

(** The mounted sample component when props with [sampleOtherDiff] have
    arrived and the state still shows [sampleDiff]. *)
Definition sampleMountedNewProps : @Mounted.t sample :=
  @Mounted.mk sample
    (@Component.mk sample
       (@Props.mk sample sampleOtherDiff
          (Props.fileContents (sampleProps true)) true
          (Props.selection (sampleProps true)))
       sampleState None)
    2%positive "a.txt" "a.txt" true.


(** * Properties *)

(** One step of the error monad: [Ok a >>= f] is [f a]. *)
Ltac bind_step :=
  cbn [mbind Fallible_bind assertNonNullable forceUnwrap].

Section Selection.
Context `{Collaborators}.

Lemma isInTemporarySelection_rectangle (row : Z) (column : DiffColumn.t)
    (drag : ISelection.t) :
  isInTemporarySelection row column (Some drag) = true
  <-> withinRectangle row column drag.
Proof.
  unfold isInTemporarySelection, withinRectangle.
  destruct drag as [[fc fr] [tc tr] b]; simpl.
  repeat case_bool_decide; simpl; split; intros; try discriminate;
    try reflexivity; try (exfalso; lia); try (split; [lia | tauto]);
    intuition (try congruence; try lia).
Qed.

(** C2. [isInSelection] answers with the persisted membership when no drag is
    in progress, with persisted membership or rectangle membership during an
    additive drag, and with persisted membership and not rectangle membership
    during a subtractive drag; rectangle membership is: the row lies between
    the two end points' rows in either order, and the column is that of the
    start or of the current point. *)
Theorem isInSelection_combines_persisted_and_drag
    (diffLineNumber row : Z) (column : DiffColumn.t)
    (selection : option DiffSelection)
    (temporarySelection : option ISelection.t) :
  isInSelection diffLineNumber row column selection temporarySelection
  = match temporarySelection with
    | None => persistedMembership selection diffLineNumber
    | Some drag =>
        if ISelection.isSelected drag
        then persistedMembership selection diffLineNumber
             || bool_decide (withinRectangle row column drag)
        else persistedMembership selection diffLineNumber
             && negb (bool_decide (withinRectangle row column drag))
    end.
Proof.
  unfold isInSelection, persistedMembership.
  destruct temporarySelection as [drag|]; [|reflexivity].
  assert (isInTemporarySelection row column (Some drag)
          = bool_decide (withinRectangle row column drag)) as ->; [|done].
  destruct (isInTemporarySelection row column (Some drag)) eqn:E; symmetry.
  - apply bool_decide_eq_true, isInTemporarySelection_rectangle, E.
  - apply bool_decide_eq_false. intros W.
    apply isInTemporarySelection_rectangle in W. congruence.
Qed.

End Selection.

Section Expansion.
Context `{Collaborators}.

Lemma withDiff_withDiff_same (st : State.t) (d : ITextDiff.t) :
  withDiff (withDiff st d) (State.diff st) = st.
Proof. by destruct st. Qed.

(** C6. When whole-file expansion produces an updated diff, the diff [D] that
    was current is kept in [diffToRestore]; collapsing right after makes [D]
    itself the current diff again, empties [diffToRestore] and leaves the rest
    of the component as it was before the expansion. *)
Theorem expand_whole_file_then_collapse (c : Component.t)
    (contents : IFileContents.t) (updatedDiff : ITextDiff.t) :
  Props.fileContents (Component.props c) = Some contents ->
  canExpandDiff c = true ->
  expandWholeTextDiff (State.diff (Component.state c))
                      (IFileContents.newContents contents)
  = Some updatedDiff ->
  Component.diffToRestore (onExpandWholeFile c)
  = Some (State.diff (Component.state c))
  /\ State.diff (Component.state (onExpandWholeFile c)) = updatedDiff
  /\ State.diff (Component.state
                   (onCollapseExpandedLines (onExpandWholeFile c)))
     = State.diff (Component.state c)
  /\ Component.diffToRestore (onCollapseExpandedLines (onExpandWholeFile c))
     = None
  /\ Component.state (onCollapseExpandedLines (onExpandWholeFile c))
     = Component.state c
  /\ Component.props (onCollapseExpandedLines (onExpandWholeFile c))
     = Component.props c.
Proof.
  intros Hcontents Hcan Hexpand.
  unfold onExpandWholeFile. rewrite Hcontents, Hcan, Hexpand. simpl.
  unfold onCollapseExpandedLines. simpl.
  rewrite withDiff_withDiff_same. by destruct (Component.state c).
Qed.

End Expansion.

Section SearchSession.
Context `{Collaborators}.

Lemma onSearch_restarts (c : Component.t) (q : string) (d : Direction) :
  State.searchQuery (Component.state c) <> Some q
  \/ State.searchResults (Component.state c) = None ->
  onSearch c q d = restartSearch c q.
Proof.
  intros Hfresh. unfold onSearch.
  destruct (State.searchResults (Component.state c)) as [sr|]; [|done].
  case_bool_decide as E; [|done].
  destruct Hfresh as [Hq|Hq]; [|done]. by rewrite <- E in Hq.
Qed.

Lemma onSearch_continues (c : Component.t) (q : string) (d : Direction)
    (sr : SearchResults.t) (i : Z) :
  State.searchQuery (Component.state c) = Some q ->
  State.searchResults (Component.state c) = Some sr ->
  State.selectedSearchResult (Component.state c) = Some i ->
  onSearch c q d
  = Ok (finishSearch c q sr
          (Z.rem (i + match d with next => 1 | previous => -1 end
                  + SearchResults.length sr)
                 (SearchResults.length sr))).
Proof.
  intros Hq Hsr Hi. unfold onSearch. rewrite Hsr, Hq, Hi.
  by rewrite bool_decide_eq_true_2.
Qed.

Lemma wrap_next (i n : Z) :
  0 <= i -> 0 < n -> Z.rem (i + 1 + n) n = (i + 1) mod n.
Proof.
  intros Hi Hn. rewrite Z.rem_mod_nonneg by lia.
  replace (i + 1 + n) with (i + 1 + 1 * n) by lia.
  apply Z_mod_plus_full.
Qed.

Lemma wrap_previous (i n : Z) :
  0 <= i -> 0 < n -> Z.rem (i + -1 + n) n = (i - 1 + n) mod n.
Proof.
  intros Hi Hn. by rewrite Z.rem_mod_nonneg by lia.
Qed.

(** C7 (amended). A search that is performed for a non-empty query and finds
    no hit clears the query, the results and the selected hit exactly as
    cancelling does, but it leaves [isSearching] set, whereas cancelling
    clears it: the two resulting components differ in that flag only. *)
Theorem zero_hit_search_resets_but_keeps_searching (c : Component.t)
    (q : string) (d : Direction) (sr : SearchResults.t) :
  strlen q <> 0 ->
  State.searchQuery (Component.state c) <> Some q
  \/ State.searchResults (Component.state c) = None ->
  calcSearchTokens (State.diff (Component.state c))
    (Props.showSideBySideDiff (Component.props c)) q (canExpandDiff c)
  = Ok (Some sr) ->
  SearchResults.length sr = 0 ->
  onSearch c q d = Ok (resetSearch c true, None)
  /\ State.searchQuery (Component.state (resetSearch c true)) = None
  /\ State.searchResults (Component.state (resetSearch c true)) = None
  /\ State.selectedSearchResult (Component.state (resetSearch c true)) = None
  /\ State.searchQuery (Component.state (onSearchCancel c)) = None
  /\ State.searchResults (Component.state (onSearchCancel c)) = None
  /\ State.selectedSearchResult (Component.state (onSearchCancel c)) = None
  /\ State.isSearching (Component.state (resetSearch c true)) = true
  /\ State.isSearching (Component.state (onSearchCancel c)) = false
  /\ resetSearch c true = resetSearch (onSearchCancel c) true.
Proof.
  intros _ Hfresh Hcalc Hzero.
  rewrite onSearch_restarts by done.
  unfold restartSearch. rewrite Hcalc. simpl.
  rewrite bool_decide_eq_true_2 by done.
  repeat split.
Qed.

(** C8. With the query unchanged, a hit set of [n > 0] hits and hit [i]
    selected, "next" selects [(i + 1) mod n] and "previous" selects
    [(i - 1 + n) mod n], so "previous" from hit 0 selects [n - 1]; on a set
    of two hits "next" goes from 0 to 1 and back to 0. This holds whatever
    other queries would find. A changed query, whenever its search finds
    hits, stores the rebuilt hit set and selects hit 0. *)
Theorem search_navigation_wraps (c : Component.t) (q : string)
    (sr : SearchResults.t) (i : Z) :
  State.searchQuery (Component.state c) = Some q ->
  State.searchResults (Component.state c) = Some sr ->
  State.selectedSearchResult (Component.state c) = Some i ->
  0 < SearchResults.length sr ->
  0 <= i ->
  onSearch c q next
  = Ok (finishSearch c q sr ((i + 1) mod SearchResults.length sr))
  /\ onSearch c q previous
     = Ok (finishSearch c q sr
             ((i - 1 + SearchResults.length sr) mod SearchResults.length sr))
  /\ (i = 0 ->
      onSearch c q previous
      = Ok (finishSearch c q sr (SearchResults.length sr - 1)))
  /\ (forall j,
        State.selectedSearchResult
          (Component.state (finishSearch c q sr j).1) = Some j
        /\ State.searchResults (Component.state (finishSearch c q sr j).1)
           = Some sr
        /\ State.searchQuery (Component.state (finishSearch c q sr j).1)
           = Some q)
  /\ (SearchResults.length sr = 2 -> i = 0 ->
      onSearch c q next = Ok (finishSearch c q sr 1)
      /\ onSearch (finishSearch c q sr 1).1 q next
         = Ok (finishSearch (finishSearch c q sr 1).1 q sr 0))
  /\ (forall (q' : string) (sr' : SearchResults.t) (d : Direction),
        q' <> q ->
        calcSearchTokens (State.diff (Component.state c))
          (Props.showSideBySideDiff (Component.props c)) q'
          (canExpandDiff c)
        = Ok (Some sr') ->
        0 < SearchResults.length sr' ->
        onSearch c q' d = Ok (finishSearch c q' sr' 0)
        /\ State.selectedSearchResult
             (Component.state (finishSearch c q' sr' 0).1) = Some 0
        /\ State.searchResults
             (Component.state (finishSearch c q' sr' 0).1) = Some sr'
        /\ State.searchQuery
             (Component.state (finishSearch c q' sr' 0).1) = Some q').
Proof.
  intros Hq Hsr Hi Hn Hi0.
  assert (onSearch c q next
          = Ok (finishSearch c q sr ((i + 1) mod SearchResults.length sr)))
    as Hnext.
  { rewrite (onSearch_continues c q next sr i) by done.
    by rewrite wrap_next. }
  assert (onSearch c q previous
          = Ok (finishSearch c q sr
                  ((i - 1 + SearchResults.length sr)
                   mod SearchResults.length sr))) as Hprev.
  { rewrite (onSearch_continues c q previous sr i) by done.
    by rewrite wrap_previous. }
  split; [exact Hnext|]. split; [exact Hprev|].
  split.
  { intros ->. rewrite Hprev. do 2 f_equal.
    replace (0 - 1 + SearchResults.length sr)
      with (SearchResults.length sr - 1) by lia.
    apply Z.mod_small. lia. }
  split; [done|].
  split.
  { intros Hlen ->. rewrite Hlen in Hnext. split; [exact Hnext|].
    rewrite (onSearch_continues _ q next sr 1) by done.
    by rewrite Hlen. }
  intros q' sr' d Hq' Hcalc Hn'.
  split; [|done].
  rewrite onSearch_restarts.
  - unfold restartSearch. rewrite Hcalc. simpl.
    rewrite bool_decide_eq_false_2 by lia. done.
  - left. rewrite Hq. congruence.
Qed.

End SearchSession.

Section SparseArrays.
Context {A : Type}.
Implicit Types (arr : list (option A)) (i j : nat).

Lemma array_shift_drop arr j :
  array_shift (drop j arr) = (slotAt arr j, drop (S j) arr).
Proof.
  unfold slotAt. destruct (arr !! j) as [slot|] eqn:E.
  - by rewrite (drop_S _ _ _ E).
  - apply lookup_ge_None in E.
    rewrite !drop_ge by lia. done.
Qed.

Lemma slotAt_nil j : slotAt ([] : list (option A)) j = None.
Proof. unfold slotAt. by rewrite lookup_nil. Qed.

Lemma slotAt_array_set arr i j (x : A) :
  slotAt (array_set i x arr) j
  = if decide (j = i) then Some x else slotAt arr j.
Proof.
  unfold slotAt, array_set. case_decide as Hlt.
  - case_decide as Hj.
    + subst. by rewrite list_lookup_insert_eq.
    + by rewrite list_lookup_insert_ne.
  - destruct (decide (j < List.length arr)%nat) as [Hin|Hout].
    + rewrite lookup_app_l by done. case_decide; [lia|done].
    + rewrite lookup_app_r by lia.
      rewrite (proj2 (lookup_ge_None arr j)) by lia.
      destruct (decide (j < i)%nat) as [Hji|Hji].
      * rewrite lookup_app_l by (rewrite length_replicate; lia).
        rewrite lookup_replicate_2 by lia. case_decide; [lia|done].
      * rewrite lookup_app_r by (rewrite length_replicate; lia).
        rewrite length_replicate. case_decide as Hj.
        -- subst. by replace (i - List.length arr - (i - List.length arr))%nat
             with O by lia.
        -- replace (j - List.length arr - (i - List.length arr))%nat
             with (S (j - i - 1)) by lia. done.
Qed.

End SparseArrays.

Section Classifier.
Context `{Collaborators}.
Implicit Types (A D run : list ModifiedLine.t) (d a : ModifiedLine.t).

Lemma getDataFromLine_old d tok :
  hasOld d -> exists data, getDataFromLine d UseOldLineNumber tok = Ok data.
Proof.
  intros [n Hn]. unfold getDataFromLine. rewrite Hn. simpl. eauto.
Qed.

Lemma getDataFromLine_new a tok :
  hasNew a -> exists data, getDataFromLine a UseNewLineNumber tok = Ok data.
Proof.
  intros [n Hn]. unfold getDataFromLine. rewrite Hn. simpl. eauto.
Qed.

Lemma getDataFromLine_tokens ml use tok data :
  getDataFromLine ml use tok = Ok data ->
  SimplifiedDiffRowData.tokens data = option_list tok
  /\ SimplifiedDiffRowData.content data
     = DiffLine.content (ModifiedLine.line ml)
  /\ SimplifiedDiffRowData.diffLineNumber data
     = DiffLine.originalLineNumber (ModifiedLine.line ml).
Proof.
  unfold getDataFromLine.
  destruct (forceUnwrap _) as [n|]; simpl; [|discriminate].
  intros [= <-]. simpl. by destruct tok.
Qed.

Lemma deletedLoop_spec D start (arr : list (option ILineTokens)) :
  Forall hasOld D ->
  forall n i out k,
    (i + n = List.length D)%nat ->
    exists rows,
      deletedLoop n i D start out (drop k arr)
      = Ok (out ++ rows, drop (k + n) arr)
      /\ List.length rows = n
      /\ forall j d, D !! (i + j)%nat = Some d -> (j < n)%nat ->
           exists r, rows !! j = Some r
                     /\ deletedRowOf start d (slotAt arr (k + j)) r.
Proof.
  intros Hwf. induction n as [|n IH]; intros i out k Hlen.
  - exists []. simpl. rewrite app_nil_r, Nat.add_0_r.
    split; [done|]. split; [done|]. intros; lia.
  - simpl.
    destruct (lookup_lt_is_Some_2 D i) as [d Hd]; [lia|].
    rewrite Hd. simpl. rewrite array_shift_drop.
    destruct (getDataFromLine_old d (slotAt arr k)) as [data Hdata].
    { by eapply Forall_lookup_1. }
    rewrite Hdata. simpl.
    destruct (IH (S i) (out ++ [DeletedRow data start]) (S k))
      as (rows & Hloop & Hrows & Hpoint); [lia|].
    exists (DeletedRow data start :: rows).
    rewrite Hloop, <- app_assoc. simpl.
    replace (S (k + n)) with (k + S n)%nat by lia.
    split; [done|]. split; [by rewrite Hrows|].
    intros [|j] d' Hd' Hj.
    + rewrite Nat.add_0_r in *. simplify_eq. eexists. split; [done|].
      by exists data.
    + simpl. replace (k + S j)%nat with (S k + j)%nat by lia.
      apply Hpoint; [|lia]. by replace (S i + j)%nat with (i + S j)%nat by lia.
Qed.

Lemma addedLoop_spec A start (arr : list (option ILineTokens)) :
  Forall hasNew A ->
  forall n i out k,
    (i + n = List.length A)%nat ->
    exists rows,
      addedLoop n i A start out (drop k arr)
      = Ok (out ++ rows, drop (k + n) arr)
      /\ List.length rows = n
      /\ forall j a, A !! (i + j)%nat = Some a -> (j < n)%nat ->
           exists r, rows !! j = Some r
                     /\ addedRowOf start a (slotAt arr (k + j)) r.
Proof.
  intros Hwf. induction n as [|n IH]; intros i out k Hlen.
  - exists []. simpl. rewrite app_nil_r, Nat.add_0_r.
    split; [done|]. split; [done|]. intros; lia.
  - simpl.
    destruct (lookup_lt_is_Some_2 A i) as [a Ha]; [lia|].
    rewrite Ha. simpl. rewrite array_shift_drop.
    destruct (getDataFromLine_new a (slotAt arr k)) as [data Hdata].
    { by eapply Forall_lookup_1. }
    rewrite Hdata. simpl.
    destruct (IH (S i) (out ++ [AddedRow data start]) (S k))
      as (rows & Hloop & Hrows & Hpoint); [lia|].
    exists (AddedRow data start :: rows).
    rewrite Hloop, <- app_assoc. simpl.
    replace (S (k + n)) with (k + S n)%nat by lia.
    split; [done|]. split; [by rewrite Hrows|].
    intros [|j] a' Ha' Hj.
    + rewrite Nat.add_0_r in *. simplify_eq. eexists. split; [done|].
      by exists data.
    + simpl. replace (k + S j)%nat with (S k + j)%nat by lia.
      apply Hpoint; [|lia]. by replace (S i + j)%nat with (i + S j)%nat by lia.
Qed.

Lemma modifiedLoop_spec A D start sbs (tb ta : list (option ILineTokens)) :
  Forall hasNew A -> Forall hasOld D ->
  forall fuel i out,
    (i <= pairCount sbs A D)%nat ->
    (pairCount sbs A D - i <= fuel)%nat ->
    exists rows,
      modifiedLoop fuel sbs A D start
        {| output := out; indexModifiedRow := i;
           diffTokensBefore := drop i tb; diffTokensAfter := drop i ta |}
      = Ok {| output := out ++ rows;
              indexModifiedRow := pairCount sbs A D;
              diffTokensBefore := drop (pairCount sbs A D) tb;
              diffTokensAfter := drop (pairCount sbs A D) ta |}
      /\ List.length rows = (pairCount sbs A D - i)%nat
      /\ forall j d a,
           D !! (i + j)%nat = Some d -> A !! (i + j)%nat = Some a ->
           (j < pairCount sbs A D - i)%nat ->
           exists r, rows !! j = Some r
                     /\ modifiedRowOf start d a (slotAt tb (i + j))
                          (slotAt ta (i + j)) r.
Proof.
  intros HwfA HwfD.
  assert (forall i, i = pairCount sbs A D ->
            sbs && bool_decide (i < List.length A)%nat
                && bool_decide (i < List.length D)%nat = false) as Hstop.
  { intros i ->. unfold pairCount. destruct sbs; [|done]. simpl.
    destruct (decide (List.length A <= List.length D)%nat).
    - rewrite Nat.min_l by done.
      rewrite (bool_decide_eq_false_2 (_ < List.length A)%nat) by lia. done.
    - rewrite Nat.min_r by lia.
      rewrite (bool_decide_eq_false_2 (_ < List.length D)%nat) by lia.
      by rewrite andb_false_r. }
  induction fuel as [|fuel IH]; intros i out Hi Hfuel.
  - assert (i = pairCount sbs A D) as -> by lia.
    exists []. simpl. rewrite app_nil_r, Nat.sub_diag.
    split; [done|]. split; [done|]. intros; lia.
  - destruct (decide (i = pairCount sbs A D)) as [->|Hne].
    + exists []. simpl. rewrite (Hstop _ eq_refl).
      rewrite app_nil_r, Nat.sub_diag.
      split; [done|]. split; [done|]. intros; lia.
    + assert (sbs = true /\ (i < List.length A)%nat
              /\ (i < List.length D)%nat) as (-> & HiA & HiD).
      { unfold pairCount in *. destruct sbs; [split; [done|lia]|lia]. }
      simpl.
      rewrite (bool_decide_eq_true_2 (i < List.length A)%nat) by done.
      rewrite (bool_decide_eq_true_2 (i < List.length D)%nat) by done.
      simpl.
      destruct (lookup_lt_is_Some_2 A i) as [a Ha]; [lia|].
      destruct (lookup_lt_is_Some_2 D i) as [d Hd]; [lia|].
      rewrite Ha, Hd. simpl. rewrite !array_shift_drop.
      destruct (getDataFromLine_old d (slotAt tb i)) as [bd Hbd].
      { by eapply Forall_lookup_1. }
      destruct (getDataFromLine_new a (slotAt ta i)) as [ad Had].
      { by eapply Forall_lookup_1. }
      rewrite Hbd. simpl. rewrite Had. simpl.
      destruct (IH (S i) (out ++ [ModifiedRow bd ad start]))
        as (rows & Hloop & Hrows & Hpoint); [lia|lia|].
      exists (ModifiedRow bd ad start :: rows).
      rewrite Hloop, <- app_assoc. simpl.
      split; [done|].
      split; [simpl; rewrite Hrows; unfold pairCount in *; simpl in *; lia|].
      intros [|j] d' a' Hd' Ha' Hj.
      * rewrite Nat.add_0_r in *. simplify_eq. eexists. split; [done|].
        by exists bd, ad.
      * simpl. replace (i + S j)%nat with (S i + j)%nat in * by lia.
        apply Hpoint; [done|done|unfold pairCount in *; simpl in *; lia].
Qed.

Lemma diffTokensLoop_spec A D :
  List.length A = List.length D ->
  forall n i arrays,
    (i + n = List.length D)%nat ->
    exists arrays',
      diffTokensLoop n i A D arrays = Ok arrays'
      /\ forall j d a, D !! j = Some d -> A !! j = Some a ->
           slotAt arrays'.1 j
           = (if bool_decide (i <= j)%nat && shortEnough a d
              then emphasisOf fst true d a else slotAt arrays.1 j)
           /\ slotAt arrays'.2 j
              = (if bool_decide (i <= j)%nat && shortEnough a d
                 then emphasisOf snd true d a else slotAt arrays.2 j).
Proof.
  intros Hlen. induction n as [|n IH]; intros i arrays Hi.
  - exists arrays. split; [done|]. intros j d a Hd Ha.
    apply lookup_lt_Some in Hd.
    rewrite bool_decide_eq_false_2 by lia. done.
  - simpl.
    destruct (lookup_lt_is_Some_2 A i) as [ai Hai]; [lia|].
    destruct (lookup_lt_is_Some_2 D i) as [di Hdi]; [lia|].
    rewrite Hai, Hdi. simpl.
    match goal with
    | |- context [diffTokensLoop n (S i) A D ?arr] =>
        destruct (IH (S i) arr) as (arrays' & Hloop & Hslots); [lia|]
    end.
    exists arrays'. split; [exact Hloop|].
    intros j d a Hd Ha. destruct (Hslots j d a Hd Ha) as [H1 H2].
    rewrite H1, H2. clear H1 H2 Hslots Hloop.
    destruct (decide (j = i)) as [->|Hji].
    + simplify_eq.
      rewrite (bool_decide_eq_false_2 (S i <= i)%nat) by lia.
      rewrite (bool_decide_eq_true_2 (i <= i)%nat) by lia. simpl.
      unfold emphasisOf.
      destruct (shortEnough _ _); [|done].
      destruct (getDiffTokens _ _) as [before after]. simpl.
      rewrite !slotAt_array_set. by rewrite !decide_True.
    + destruct (decide (S i <= j)%nat) as [Hle|Hgt].
      * rewrite (bool_decide_eq_true_2 (S i <= j)%nat) by lia.
        rewrite (bool_decide_eq_true_2 (i <= j)%nat) by lia. simpl.
        destruct (shortEnough a d); [done|].
        destruct (shortEnough ai di); [|done].
        destruct (getDiffTokens _ _) as [before after]. simpl.
        rewrite !slotAt_array_set. by rewrite !decide_False.
      * rewrite (bool_decide_eq_false_2 (S i <= j)%nat) by lia.
        rewrite (bool_decide_eq_false_2 (i <= j)%nat) by lia. simpl.
        destruct (shortEnough ai di); [|done].
        destruct (getDiffTokens _ _) as [before after]. simpl.
        rewrite !slotAt_array_set. by rewrite !decide_False.
Qed.

Lemma computeDiffTokens_spec A D :
  exists arrays,
    computeDiffTokens A D = Ok arrays
    /\ forall j d a, D !! j = Some d -> A !! j = Some a ->
         slotAt arrays.1 j = emphasisOf fst (emphasisComputed A D d a) d a
         /\ slotAt arrays.2 j = emphasisOf snd (emphasisComputed A D d a) d a.
Proof.
  unfold computeDiffTokens, emphasisComputed. case_bool_decide as Hlen.
  - destruct (diffTokensLoop_spec A D Hlen (List.length D) O ([], []))
      as (arrays & Hloop & Hslots); [done|].
    exists arrays. split; [exact Hloop|].
    intros j d a Hd Ha. destruct (Hslots j d a Hd Ha) as [H1 H2].
    rewrite H1, H2. rewrite (bool_decide_eq_true_2 (0 <= j)%nat) by lia.
    simpl. rewrite !slotAt_nil. unfold shortEnough, emphasisOf.
    unfold MaxLineLengthToCalculateDiff.
    repeat case_bool_decide; done.
  - exists ([], []). split; [done|]. intros. simpl.
    by rewrite !slotAt_nil.
Qed.

Lemma pairCount_le sbs A D :
  (pairCount sbs A D <= List.length A)%nat
  /\ (pairCount sbs A D <= List.length D)%nat.
Proof. unfold pairCount. destruct sbs; lia. Qed.

(** The rows of one run, piece by piece. *)
Lemma getModifiedRows_spec run sbs first rest :
  run = first :: rest ->
  Forall hasNew (addedOf run) -> Forall hasOld (deletedOf run) ->
  exists arrays mods dels adds,
    computeDiffTokens (addedOf run) (deletedOf run) = Ok arrays
    /\ getModifiedRows run sbs = Ok (mods ++ dels ++ adds)
    /\ List.length mods = pairCount sbs (addedOf run) (deletedOf run)
    /\ List.length dels
       = (List.length (deletedOf run)
          - pairCount sbs (addedOf run) (deletedOf run))%nat
    /\ List.length adds
       = (List.length (addedOf run)
          - pairCount sbs (addedOf run) (deletedOf run))%nat
    /\ (forall j d a,
          deletedOf run !! j = Some d -> addedOf run !! j = Some a ->
          (j < pairCount sbs (addedOf run) (deletedOf run))%nat ->
          exists r, mods !! j = Some r
                    /\ modifiedRowOf (ModifiedLine.diffLineNumber first) d a
                         (slotAt arrays.1 j) (slotAt arrays.2 j) r)
    /\ (forall j d,
          deletedOf run
            !! (pairCount sbs (addedOf run) (deletedOf run) + j)%nat
          = Some d ->
          exists r, dels !! j = Some r
                    /\ deletedRowOf (ModifiedLine.diffLineNumber first) d
                         (slotAt arrays.1
                            (pairCount sbs (addedOf run) (deletedOf run) + j))
                         r)
    /\ (forall j a,
          addedOf run
            !! (pairCount sbs (addedOf run) (deletedOf run) + j)%nat
          = Some a ->
          exists r, adds !! j = Some r
                    /\ addedRowOf (ModifiedLine.diffLineNumber first) a
                         (slotAt arrays.2
                            (pairCount sbs (addedOf run) (deletedOf run) + j))
                         r).
Proof.
  intros -> HwfA HwfD.
  set (run := first :: rest) in *.
  set (A := addedOf run) in *. set (D := deletedOf run) in *.
  set (m := pairCount sbs A D).
  set (start := ModifiedLine.diffLineNumber first).
  destruct (pairCount_le sbs A D) as [HmA HmD]. fold m in HmA, HmD.
  destruct (computeDiffTokens_spec A D) as (arrays & Harrays & _).
  destruct (modifiedLoop_spec A D start sbs arrays.1 arrays.2 HwfA HwfD
              (List.length A) O [])
    as (mods & Hmods & Hlmods & Hpmods); [lia|lia|].
  destruct (deletedLoop_spec D start arrays.1 HwfD
              (List.length D - m) m mods m)
    as (dels & Hdels & Hldels & Hpdels); [lia|].
  destruct (addedLoop_spec A start arrays.2 HwfA
              (List.length A - m) m (mods ++ dels) m)
    as (adds & Hadds & Hladds & Hpadds); [lia|].
  exists arrays, mods, dels, adds.
  split; [exact Harrays|].
  split.
  { unfold getModifiedRows. fold run. unfold run at 1.
    change (filter (fun l => isAdd l = true) run) with A.
    change (filter (fun l => isDelete l = true) run) with D.
    rewrite Harrays. simpl.
    rewrite !drop_0 in Hmods. fold start. rewrite Hmods. simpl.
    fold m. rewrite Hdels. simpl. rewrite Hadds. simpl.
    by rewrite <- app_assoc. }
  split; [fold m in Hlmods; lia|].
  split; [done|]. split; [done|].
  split.
  { intros j d a Hd Ha Hj. apply (Hpmods j d a); [done|done|].
    fold m. lia. }
  split.
  { intros j d Hd. apply Hpdels; [done|].
    apply lookup_lt_Some in Hd. lia. }
  intros j a Ha. apply Hpadds; [done|].
  apply lookup_lt_Some in Ha. lia.
Qed.

Lemma emphasisComputed_true A D d a :
  emphasisComputed A D d a = true
  <-> List.length A = List.length D
      /\ strlen (DiffLine.content (ModifiedLine.line d)) < 240
      /\ strlen (DiffLine.content (ModifiedLine.line a)) < 240.
Proof.
  unfold emphasisComputed. rewrite !andb_true_iff, !bool_decide_eq_true.
  tauto.
Qed.

(** C5. For the pair of [deleted[i]] and [added[i]] of a run, emphasis tokens
    are computed exactly when the run has as many added as deleted lines and
    both contents are shorter than 240 characters; otherwise the pair gets no
    emphasis tokens. Either way nothing is thrown: the token pass and the
    rows are produced, and the rows of the pair carry exactly those tokens
    (the Modified row in side-by-side mode, the Deleted and Added rows of the
    two lines in unified mode). *)
Theorem emphasis_tokens_iff_equal_counts_and_short_lines
    run (sbs : bool) (i : nat) d a :
  Forall hasNew (addedOf run) -> Forall hasOld (deletedOf run) ->
  deletedOf run !! i = Some d -> addedOf run !! i = Some a ->
  exists arrays rows,
    computeDiffTokens (addedOf run) (deletedOf run) = Ok arrays
    /\ getModifiedRows run sbs = Ok rows
    /\ slotAt arrays.1 i
       = emphasisOf fst (emphasisComputed (addedOf run) (deletedOf run) d a)
           d a
    /\ slotAt arrays.2 i
       = emphasisOf snd (emphasisComputed (addedOf run) (deletedOf run) d a)
           d a
    /\ (is_Some (slotAt arrays.1 i) /\ is_Some (slotAt arrays.2 i)
        <-> List.length (addedOf run) = List.length (deletedOf run)
            /\ strlen (DiffLine.content (ModifiedLine.line d)) < 240
            /\ strlen (DiffLine.content (ModifiedLine.line a)) < 240)
    /\ (is_Some (slotAt arrays.1 i) \/ is_Some (slotAt arrays.2 i)
        -> List.length (addedOf run) = List.length (deletedOf run)
           /\ strlen (DiffLine.content (ModifiedLine.line d)) < 240
           /\ strlen (DiffLine.content (ModifiedLine.line a)) < 240)
    /\ (sbs = true ->
        exists beforeData afterData start,
          rows !! i = Some (ModifiedRow beforeData afterData start)
          /\ SimplifiedDiffRowData.tokens beforeData
             = option_list (slotAt arrays.1 i)
          /\ SimplifiedDiffRowData.tokens afterData
             = option_list (slotAt arrays.2 i))
    /\ (sbs = false ->
        exists beforeData afterData start,
          rows !! i = Some (DeletedRow beforeData start)
          /\ rows !! (List.length (deletedOf run) + i)%nat
             = Some (AddedRow afterData start)
          /\ SimplifiedDiffRowData.tokens beforeData
             = option_list (slotAt arrays.1 i)
          /\ SimplifiedDiffRowData.tokens afterData
             = option_list (slotAt arrays.2 i)).
Proof.
  intros HwfA HwfD Hd Ha.
  assert (exists first rest, run = first :: rest) as (first & rest & Hrun).
  { destruct run as [|first rest]; [|by eauto].
    unfold deletedOf in Hd. by rewrite filter_nil, lookup_nil in Hd. }
  destruct (getModifiedRows_spec run sbs first rest Hrun HwfA HwfD)
    as (arrays & mods & dels & adds & Harrays & Hrows & Hlmods & Hldels
        & Hladds & Hpmods & Hpdels & Hpadds).
  destruct (computeDiffTokens_spec (addedOf run) (deletedOf run))
    as (arrays' & Harrays' & Hslots).
  assert (arrays' = arrays) as -> by congruence.
  destruct (Hslots i d a Hd Ha) as [Hs1 Hs2].
  pose proof (lookup_lt_Some _ _ _ Hd) as HiD.
  pose proof (lookup_lt_Some _ _ _ Ha) as HiA.
  exists arrays, (mods ++ dels ++ adds).
  split; [done|]. split; [done|]. split; [done|]. split; [done|].
  split.
  { rewrite Hs1, Hs2, <- emphasisComputed_true. unfold emphasisOf.
    destruct (emphasisComputed _ _ d a).
    - split; [done|]. intros _. split; eexists; reflexivity.
    - split; [|done]. intros [[? ?] _]. done. }
  split.
  { rewrite Hs1, Hs2, <- emphasisComputed_true. unfold emphasisOf.
    destruct (emphasisComputed _ _ d a); [done|].
    intros [[? ?]|[? ?]]; done. }
  split.
  - intros ->. unfold pairCount in *.
    destruct (Hpmods i d a Hd Ha) as (r & Hr & bd & ad & Hbd & Had & ->);
      [lia|].
    exists bd, ad, (ModifiedLine.diffLineNumber first).
    split; [by rewrite lookup_app_l by (apply lookup_lt_Some in Hr; lia)|].
    apply getDataFromLine_tokens in Hbd, Had. by destruct Hbd, Had.
  - intros ->. unfold pairCount in *. simpl in *.
    destruct mods; [|done]. simpl.
    destruct (Hpdels i d Hd) as (r & Hr & bd & Hbd & ->).
    destruct (Hpadds i a Ha) as (r & Hr' & ad & Had & ->).
    exists bd, ad, (ModifiedLine.diffLineNumber first).
    split; [by rewrite lookup_app_l by (apply lookup_lt_Some in Hr; lia)|].
    split.
    { rewrite lookup_app_r by lia.
      by replace (List.length (deletedOf run) + i - List.length dels)%nat
        with i by lia. }
    apply getDataFromLine_tokens in Hbd, Had. by destruct Hbd, Had.
Qed.

End Classifier.

Section HunkWalk.
Context `{Collaborators}.
Context (hunkIndex : Z) (hunk : DiffHunk.t) (sbs en : bool).
Implicit Types (lines pre run post : list DiffLine.t) (num : Z)
  (rows : list SimplifiedDiffRow) (ml : list ModifiedLine.t).

Local Abbreviation walk := (hunkLinesLoop hunkIndex hunk sbs en).
Local Abbreviation start := (DiffHunk.unifiedDiffStart hunk).

Lemma flushModifiedLines_rows rows ml :
  flushModifiedLines rows ml sbs
  = match flushModifiedLines [] ml sbs with
    | Ok r => Ok (rows ++ r)
    | Fatal => Fatal
    end.
Proof.
  unfold flushModifiedLines. case_bool_decide.
  - by destruct (getModifiedRows ml sbs).
  - by rewrite app_nil_r.
Qed.

Lemma flushModifiedLines_nil rows : flushModifiedLines rows [] sbs = Ok rows.
Proof. done. Qed.

Lemma flushModifiedLines_cons rows m ml :
  flushModifiedLines rows (m :: ml) sbs
  = match getModifiedRows (m :: ml) sbs with
    | Ok r => Ok (rows ++ r)
    | Fatal => Fatal
    end.
Proof. done. Qed.

(** Rows already emitted stay in front of what the walk adds. *)
Lemma walk_rows lines : forall num rows ml,
  walk lines num rows ml
  = match walk lines num [] ml with
    | Ok r => Ok (rows ++ r)
    | Fatal => Fatal
    end.
Proof.
  induction lines as [|l lines IH]; intros num rows ml.
  - apply flushModifiedLines_rows.
  - simpl. destruct (DiffLine.type l).
    + rewrite (flushModifiedLines_rows rows).
      destruct (flushModifiedLines [] ml sbs) as [r0|]; simpl; [|done].
      destruct (DiffLine.oldLineNumber l); simpl; [|done].
      destruct (DiffLine.newLineNumber l); simpl; [|done].
      rewrite IH. rewrite (IH _ (r0 ++ _)).
      destruct (walk lines (num + 1) [] []); [|done].
      by rewrite <- !app_assoc.
    + apply IH.
    + apply IH.
    + rewrite (flushModifiedLines_rows rows).
      destruct (flushModifiedLines [] ml sbs) as [r0|]; simpl; [|done].
      rewrite IH. rewrite (IH _ (r0 ++ _)).
      destruct (walk lines (num + 1) [] []); [|done].
      by rewrite <- !app_assoc.
Qed.

Lemma runLines_cons (s : Z) l run :
  runLines s (l :: run) = ModifiedLine.mk l s :: runLines (s + 1) run.
Proof.
  unfold runLines. rewrite imap_cons. f_equal.
  - f_equal. lia.
  - apply imap_ext. intros i x _. simpl. f_equal. lia.
Qed.

(** The lines of a run are only buffered. *)
Lemma walk_run run post : Forall isChange run -> forall num rows ml,
  walk (run ++ post) num rows ml
  = walk post (num + Z.of_nat (List.length run)) rows
      (ml ++ runLines (start + num) run).
Proof.
  induction 1 as [|l run Hl _ IH]; intros num rows ml.
  - simpl. by rewrite Z.add_0_r, app_nil_r.
  - rewrite runLines_cons. simpl.
    replace (num + Z.of_nat (S (List.length run)))
      with (num + 1 + Z.of_nat (List.length run)) by lia.
    replace (start + num + 1) with (start + (num + 1)) by lia.
    destruct Hl as [Hl|Hl]; rewrite Hl; rewrite IH;
      by rewrite <- app_assoc.
Qed.

(** At the end of a run the buffer is flushed first. *)
Lemma walk_boundary post m ml num rows :
  closes post ->
  walk post num rows (m :: ml)
  = match getModifiedRows (m :: ml) sbs with
    | Ok r => walk post num (rows ++ r) []
    | Fatal => Fatal
    end.
Proof.
  intros Hpost. destruct post as [|l post]; cbn [hunkLinesLoop].
  - rewrite flushModifiedLines_cons.
    destruct (getModifiedRows (m :: ml) sbs); [|done].
    cbn [hunkLinesLoop]. by rewrite flushModifiedLines_nil.
  - simpl in Hpost. unfold isChange in Hpost.
    rewrite flushModifiedLines_cons.
    destruct (DiffLine.type l) eqn:E; try (exfalso; tauto);
      destruct (getModifiedRows (m :: ml) sbs); try done;
      by rewrite flushModifiedLines_nil.
Qed.

Lemma walk_prefix pre rest : pre <> [] -> opens pre -> forall num rows ml,
  walk (pre ++ rest) num rows ml
  = match walk pre num rows ml with
    | Ok rp => walk rest (num + Z.of_nat (List.length pre)) rp []
    | Fatal => Fatal
    end.
Proof.
  induction pre as [|l pre IH]; [done|]. intros _ Hopen num rows ml.
  destruct pre as [|l2 pre].
  - unfold opens in Hopen. simpl in Hopen. unfold isChange in Hopen.
    simpl.
    destruct (DiffLine.type l) eqn:E; try tauto.
    + destruct (flushModifiedLines rows ml sbs); simpl; [|done].
      destruct (DiffLine.oldLineNumber l); simpl; [|done].
      by destruct (DiffLine.newLineNumber l).
    + by destruct (flushModifiedLines rows ml sbs).
  - assert (opens (l2 :: pre)) as Hopen' by done.
    specialize (IH ltac:(done) Hopen').
    change ((l :: l2 :: pre) ++ rest) with (l :: ((l2 :: pre) ++ rest)).
    remember (l2 :: pre) as pre' eqn:Epre.
    cbn [hunkLinesLoop].
    replace (num + Z.of_nat (List.length (l :: pre')))
      with (num + 1 + Z.of_nat (List.length pre'))
      by (cbn [List.length]; lia).
    destruct (DiffLine.type l) eqn:E.
    + destruct (flushModifiedLines rows ml sbs); bind_step; [|done].
      destruct (DiffLine.oldLineNumber l); bind_step; [|done].
      destruct (DiffLine.newLineNumber l); bind_step; [|done].
      apply IH.
    + apply IH.
    + apply IH.
    + destruct (flushModifiedLines rows ml sbs); bind_step; [|done].
      apply IH.
Qed.

End HunkWalk.

Section HunkRows.
Context `{Collaborators}.

Lemma wellFormed_added (ml : list ModifiedLine.t) :
  Forall wellFormedModifiedLine ml -> Forall hasNew (addedOf ml).
Proof.
  rewrite !Forall_forall. intros Hwf x Hx.
  apply list_elem_of_filter in Hx as [Hadd Hin].
  specialize (Hwf x Hin). unfold isAdd in Hadd.
  apply bool_decide_eq_true in Hadd.
  unfold wellFormedModifiedLine, wellFormedLine in Hwf.
  by rewrite Hadd in Hwf.
Qed.

Lemma wellFormed_deleted (ml : list ModifiedLine.t) :
  Forall wellFormedModifiedLine ml -> Forall hasOld (deletedOf ml).
Proof.
  rewrite !Forall_forall. intros Hwf x Hx.
  apply list_elem_of_filter in Hx as [Hdel Hin].
  specialize (Hwf x Hin). unfold isDelete in Hdel.
  apply bool_decide_eq_true in Hdel.
  unfold wellFormedModifiedLine, wellFormedLine in Hwf.
  by rewrite Hdel in Hwf.
Qed.

Lemma runLines_wellFormed (run : list DiffLine.t) : forall s,
  Forall wellFormedLine run -> Forall wellFormedModifiedLine (runLines s run).
Proof.
  induction run as [|l run IH]; intros s Hwf; [constructor|].
  rewrite runLines_cons. inversion_clear Hwf.
  constructor; [done|]. by apply IH.
Qed.

Lemma getModifiedRows_total (ml : list ModifiedLine.t) (sbs : bool) :
  Forall wellFormedModifiedLine ml -> exists r, getModifiedRows ml sbs = Ok r.
Proof.
  intros Hwf. destruct ml as [|first rest] eqn:E; [by exists []|].
  rewrite <- E in *.
  destruct (getModifiedRows_spec ml sbs first rest E
              (wellFormed_added ml Hwf) (wellFormed_deleted ml Hwf))
    as (_ & mods & dels & adds & _ & Hrows & _).
  eauto.
Qed.

Lemma flushModifiedLines_total rows (ml : list ModifiedLine.t) (sbs : bool) :
  Forall wellFormedModifiedLine ml ->
  exists r, flushModifiedLines rows ml sbs = Ok r.
Proof.
  intros Hwf. unfold flushModifiedLines. case_bool_decide; [|by eauto].
  destruct (getModifiedRows_total ml sbs Hwf) as [r ->]. by eexists.
Qed.

Lemma walk_total hunkIndex hunk sbs en (lines : list DiffLine.t) :
  Forall wellFormedLine lines ->
  forall num rows (ml : list ModifiedLine.t),
    Forall wellFormedModifiedLine ml ->
    exists r, hunkLinesLoop hunkIndex hunk sbs en lines num rows ml = Ok r.
Proof.
  induction 1 as [|l lines Hl _ IH]; intros num rows ml Hml.
  - by apply flushModifiedLines_total.
  - cbn [hunkLinesLoop]. unfold wellFormedLine in Hl.
    destruct (DiffLine.type l) eqn:E.
    + destruct (flushModifiedLines_total rows ml sbs Hml) as [r ->].
      destruct Hl as [[o ->] [n ->]]. bind_step. by apply IH.
    + apply IH. apply Forall_app. split; [done|].
      constructor; [|done].
      unfold wellFormedModifiedLine, wellFormedLine. simpl. by rewrite E.
    + apply IH. apply Forall_app. split; [done|].
      constructor; [|done].
      unfold wellFormedModifiedLine, wellFormedLine. simpl. by rewrite E.
    + destruct (flushModifiedLines_total rows ml sbs Hml) as [r ->].
      bind_step. by apply IH.
Qed.

(** The rows of a hunk are the rows of what precedes a run, the rows of the
    run, and the rows of what follows it. *)
Lemma getDiffRowsFromHunk_split hunkIndex hunk sbs en
    (pre run post : list DiffLine.t) :
  DiffHunk.lines hunk = pre ++ run ++ post ->
  opens pre -> run <> [] -> Forall isChange run -> closes post ->
  getDiffRowsFromHunk hunkIndex hunk sbs en
  = match hunkLinesLoop hunkIndex hunk sbs en pre 0 [] [] with
    | Ok rowsBefore =>
        match getModifiedRows
                (runLines (DiffHunk.unifiedDiffStart hunk
                           + Z.of_nat (List.length pre)) run) sbs with
        | Ok rowsRun =>
            match hunkLinesLoop hunkIndex hunk sbs en post
                    (Z.of_nat (List.length pre + List.length run)) [] [] with
            | Ok rowsAfter => Ok (rowsBefore ++ rowsRun ++ rowsAfter)
            | Fatal => Fatal
            end
        | Fatal => Fatal
        end
    | Fatal => Fatal
    end.
Proof.
  intros Hlines Hopen Hrun Hchange Hclose.
  unfold getDiffRowsFromHunk. rewrite Hlines.
  assert (forall rowsBefore,
            hunkLinesLoop hunkIndex hunk sbs en (run ++ post)
              (Z.of_nat (List.length pre)) rowsBefore []
            = match getModifiedRows
                      (runLines (DiffHunk.unifiedDiffStart hunk
                                 + Z.of_nat (List.length pre)) run) sbs with
              | Ok rowsRun =>
                  match hunkLinesLoop hunkIndex hunk sbs en post
                          (Z.of_nat (List.length pre + List.length run))
                          [] [] with
                  | Ok rowsAfter => Ok (rowsBefore ++ rowsRun ++ rowsAfter)
                  | Fatal => Fatal
                  end
              | Fatal => Fatal
              end) as Hrest.
  { intros rowsBefore. rewrite walk_run by done.
    rewrite app_nil_l.
    destruct run as [|l run']; [done|].
    rewrite runLines_cons. rewrite walk_boundary by done.
    rewrite <- runLines_cons.
    destruct (getModifiedRows _ sbs) as [rowsRun|]; [|done].
    rewrite walk_rows.
    replace (Z.of_nat (List.length pre) + Z.of_nat (List.length (l :: run')))
      with (Z.of_nat (List.length pre + List.length (l :: run'))) by lia.
    destruct (hunkLinesLoop _ _ _ _ post _ [] []); [|done].
    by rewrite <- app_assoc. }
  destruct pre as [|p pre'].
  - cbn [hunkLinesLoop app]. rewrite flushModifiedLines_nil.
    apply (Hrest []).
  - rewrite walk_prefix by done.
    destruct (hunkLinesLoop _ _ _ _ (p :: pre') 0 [] []); [|done].
    rewrite Z.add_0_l. apply Hrest.
Qed.

Lemma getDataFromLine_shows (ml : ModifiedLine.t) (lineToUse : LineToUse)
    (emphasis : option ILineTokens) (data : SimplifiedDiffRowData.t) :
  getDataFromLine ml lineToUse emphasis = Ok data ->
  showsLine ml
    (match lineToUse with
     | UseOldLineNumber => DiffLine.oldLineNumber (ModifiedLine.line ml)
     | UseNewLineNumber => DiffLine.newLineNumber (ModifiedLine.line ml)
     end) emphasis data.
Proof.
  unfold getDataFromLine, showsLine. cbv zeta.
  destruct (match lineToUse with
            | UseOldLineNumber => _
            | UseNewLineNumber => _
            end) as [n|]; [|done].
  bind_step. intros [= <-]. simpl. by destruct emphasis.
Qed.

Lemma modifiedRowOf_shows start d a tb ta r :
  modifiedRowOf start d a tb ta r -> modifiedRowShows start d a tb ta r.
Proof.
  intros (bd & ad & Hb & Ha & ->). exists bd, ad. split; [done|].
  split.
  - exact (getDataFromLine_shows d UseOldLineNumber tb bd Hb).
  - exact (getDataFromLine_shows a UseNewLineNumber ta ad Ha).
Qed.

Lemma deletedRowOf_shows start d tb r :
  deletedRowOf start d tb r -> deletedRowShows start d tb r.
Proof.
  intros (data & Hd & ->). exists data. split; [done|].
  exact (getDataFromLine_shows d UseOldLineNumber tb data Hd).
Qed.

Lemma addedRowOf_shows start a ta r :
  addedRowOf start a ta r -> addedRowShows start a ta r.
Proof.
  intros (data & Ha & ->). exists data. split; [done|].
  exact (getDataFromLine_shows a UseNewLineNumber ta data Ha).
Qed.

(** C1. For a run of consecutive added and deleted lines of a hunk (preceded
    by nothing or by a line that is neither, and followed likewise), the rows
    of the hunk are the rows of the lines before the run, then the rows of
    the run, then the rows of the lines after it, and the rows of the run
    are: in side-by-side mode min(#added, #deleted) Modified rows, the i-th
    showing deleted[i] in its before cell and added[i] in its after cell,
    then the remaining deleted lines as Deleted rows in order, then the
    remaining added lines as Added rows in order; in unified mode no
    Modified row, all deleted lines as Deleted rows in order and then all
    added lines as Added rows in order. A cell shows a line when it has the
    content of the line, its old (deleted) or new (added) line number, its
    original diff line number and its end-of-file marker. Every row of the
    run carries the diff line number at which the run starts. *)
Theorem run_becomes_modified_deleted_added_rows
    hunkIndex hunk (sbs en : bool) (pre run post : list DiffLine.t) :
  DiffHunk.lines hunk = pre ++ run ++ post ->
  Forall wellFormedLine (DiffHunk.lines hunk) ->
  opens pre -> run <> [] -> Forall isChange run -> closes post ->
  let start :=
    DiffHunk.unifiedDiffStart hunk + Z.of_nat (List.length pre) in
  let added := addedOf (runLines start run) in
  let deleted := deletedOf (runLines start run) in
  let pairs := pairCount sbs added deleted in
  exists rowsBefore mods dels adds rowsAfter,
    getDiffRowsFromHunk hunkIndex hunk sbs en
    = Ok (rowsBefore ++ (mods ++ dels ++ adds) ++ rowsAfter)
    /\ hunkLinesLoop hunkIndex hunk sbs en pre 0 [] [] = Ok rowsBefore
    /\ hunkLinesLoop hunkIndex hunk sbs en post
         (Z.of_nat (List.length pre + List.length run)) [] [] = Ok rowsAfter
    /\ getModifiedRows (runLines start run) sbs = Ok (mods ++ dels ++ adds)
    /\ List.length mods
       = (if sbs then Nat.min (List.length added) (List.length deleted)
          else O)
    /\ Forall2 (fun da r => exists tb ta,
                  modifiedRowShows start da.1 da.2 tb ta r)
         (zip (take pairs deleted) (take pairs added)) mods
    /\ Forall2 (fun d r => exists tb, deletedRowShows start d tb r)
         (drop pairs deleted) dels
    /\ Forall2 (fun a r => exists ta, addedRowShows start a ta r)
         (drop pairs added) adds
    /\ (sbs = false ->
        mods = []
        /\ Forall2 (fun d r => exists tb, deletedRowShows start d tb r)
             deleted dels
        /\ Forall2 (fun a r => exists ta, addedRowShows start a ta r)
             added adds).
Proof.
  intros Hlines Hwf Hopen Hrun Hchange Hclose start added deleted pairs.
  subst pairs added deleted.
  rewrite Hlines in Hwf.
  apply Forall_app in Hwf as [Hwfpre Hwf].
  apply Forall_app in Hwf as [Hwfrun Hwfpost].
  pose proof (runLines_wellFormed run start Hwfrun) as Hwfml.
  destruct (walk_total hunkIndex hunk sbs en pre Hwfpre 0 [] [])
    as [rowsBefore HrowsBefore]; [constructor|].
  destruct (walk_total hunkIndex hunk sbs en post Hwfpost
              (Z.of_nat (List.length pre + List.length run)) [] [])
    as [rowsAfter HrowsAfter]; [constructor|].
  destruct run as [|l run'] eqn:Erun; [done|]. rewrite <- Erun in *.
  assert (runLines start run
          = ModifiedLine.mk l start :: runLines (start + 1) run') as Efirst.
  { rewrite Erun. apply runLines_cons. }
  destruct (getModifiedRows_spec (runLines start run) sbs _ _ Efirst
              (wellFormed_added _ Hwfml) (wellFormed_deleted _ Hwfml))
    as (arrays & mods & dels & adds & _ & Hrows & Hlmods & Hldels & Hladds
        & Hpmods & Hpdels & Hpadds).
  set (added := addedOf (runLines start run)) in *.
  set (deleted := deletedOf (runLines start run)) in *.
  set (pairs := pairCount sbs added deleted) in *.
  simpl in Hpmods, Hpdels, Hpadds.
  destruct (pairCount_le sbs added deleted) as [HpA HpD].
  fold pairs in HpA, HpD.
  assert (Forall2 (fun d r => exists tb, deletedRowShows start d tb r)
            (drop pairs deleted) dels) as Hdels.
  { apply Forall2_same_length_lookup_2.
    - rewrite length_drop. lia.
    - intros i d r Hd Hr. rewrite lookup_drop in Hd.
      destruct (Hpdels i d Hd) as (r' & Hr' & Hrow).
      assert (r' = r) as -> by congruence.
      eexists. apply deletedRowOf_shows. exact Hrow. }
  assert (Forall2 (fun a r => exists ta, addedRowShows start a ta r)
            (drop pairs added) adds) as Hadds.
  { apply Forall2_same_length_lookup_2.
    - rewrite length_drop. lia.
    - intros i a r Ha Hr. rewrite lookup_drop in Ha.
      destruct (Hpadds i a Ha) as (r' & Hr' & Hrow).
      assert (r' = r) as -> by congruence.
      eexists. apply addedRowOf_shows. exact Hrow. }
  exists rowsBefore, mods, dels, adds, rowsAfter.
  split.
  { rewrite (getDiffRowsFromHunk_split hunkIndex hunk sbs en pre run post)
      by done.
    fold start. by rewrite HrowsBefore, Hrows, HrowsAfter. }
  split; [done|]. split; [done|]. split; [done|].
  split; [by rewrite Hlmods|].
  split.
  { apply Forall2_same_length_lookup_2.
    - rewrite length_zip, !length_take. lia.
    - intros i [d a] r Hda Hr.
      apply lookup_zip_with_Some in Hda as (d' & a' & [= -> ->] & Hd & Ha).
      apply lookup_take_Some in Hd as [Hd Hi].
      apply lookup_take_Some in Ha as [Ha _].
      destruct (Hpmods i d' a' Hd Ha Hi) as (r' & Hr' & Hrow).
      assert (r' = r) as -> by congruence. simpl.
      eexists _, _. apply modifiedRowOf_shows. exact Hrow. }
  split; [done|]. split; [done|].
  intros ->. unfold pairs, pairCount in *. simpl in *.
  split; [by destruct mods|]. by rewrite !drop_0 in *.
Qed.

End HunkRows.

Section DragRelease.
Context `{Collaborators}.

Lemma contributes_false (row : option SimplifiedDiffRow) :
  contributes row = false
  <-> row = None
      \/ (exists content expansionType hunkIndex,
            row = Some (HunkRow content expansionType hunkIndex))
      \/ (exists content b a bt at_,
            row = Some (ContextRow content b a bt at_)).
Proof.
  split.
  - destruct row as [[]|]; simpl; intros; try discriminate; eauto 10.
  - intros [->|[(?&?&?&->)|(?&?&?&?&?&->)]]; done.
Qed.

Lemma getDiffLineNumber_rows (c : Component.t) rows (r : Z)
    (column : DiffColumn.t) :
  getDiffRows (State.diff (Component.state c))
    (Props.showSideBySideDiff (Component.props c)) (canExpandDiff c)
  = Ok rows ->
  getDiffLineNumber c r column
  = Ok match array_get rows r with
       | Some (AddedRow data _) | Some (DeletedRow data _) =>
           SimplifiedDiffRowData.diffLineNumber data
       | Some (ModifiedRow beforeData afterData _) =>
           match column with
           | DiffColumn.After =>
               SimplifiedDiffRowData.diffLineNumber afterData
           | DiffColumn.Before =>
               SimplifiedDiffRowData.diffLineNumber beforeData
           end
       | _ => None
       end.
Proof.
  intros Hrows. unfold getDiffLineNumber. rewrite Hrows. bind_step.
  destruct (array_get rows r) as [[]|]; try done. by destruct column.
Qed.

Lemma endSelectionStep_rows (c : Component.t) rows fromColumn toColumn
    (b : bool) (r : Z) (selection : DiffSelection) :
  getDiffRows (State.diff (Component.state c))
    (Props.showSideBySideDiff (Component.props c)) (canExpandDiff c)
  = Ok rows ->
  endSelectionStep c fromColumn toColumn b r selection
  = Ok (applyLines b selection
          (lineNumbersOfRow rows fromColumn toColumn r)).
Proof.
  intros Hrows. unfold endSelectionStep.
  rewrite !(getDiffLineNumber_rows c rows) by done. bind_step.
  unfold lineNumbersOfRow, applyLines.
  destruct (array_get rows r) as [[| |data ?|data ?|bd ad ?]|]; try done.
  - by destruct (SimplifiedDiffRowData.diffLineNumber data).
  - by destruct (SimplifiedDiffRowData.diffLineNumber data).
  - destruct fromColumn, toColumn;
      by destruct (SimplifiedDiffRowData.diffLineNumber bd),
                  (SimplifiedDiffRowData.diffLineNumber ad).
Qed.

Lemma lineNumbersOfRow_nil rows fromColumn toColumn (r : Z) :
  contributes (array_get rows r) = false ->
  lineNumbersOfRow rows fromColumn toColumn r = [].
Proof.
  unfold lineNumbersOfRow. by destruct (array_get rows r) as [[]|].
Qed.

Lemma endSelectionLoop_rows (c : Component.t) rows fromColumn toColumn
    (b : bool) :
  getDiffRows (State.diff (Component.state c))
    (Props.showSideBySideDiff (Component.props c)) (canExpandDiff c)
  = Ok rows ->
  forall (n : nat) (r : Z) (selection : DiffSelection),
    endSelectionLoop c fromColumn toColumn b n r selection
    = Ok (applyLines b selection
            (concat (lineNumbersOfRow rows fromColumn toColumn
                       <$> filter (fun i => contributes (array_get rows i)
                                            = true)
                                  (seqZ r (Z.of_nat n))))).
Proof.
  intros Hrows. induction n as [|n IH]; intros r selection; [done|].
  cbn [endSelectionLoop].
  rewrite (endSelectionStep_rows c rows) by done. bind_step.
  rewrite IH. f_equal.
  rewrite (seqZ_cons r) by lia.
  replace (Z.pred (Z.of_nat (S n))) with (Z.of_nat n) by lia.
  replace (Z.succ r) with (r + 1) by lia.
  rewrite filter_cons. unfold applyLines.
  destruct (decide (contributes (array_get rows r) = true)) as [Hc|Hc].
  - by rewrite fmap_cons, concat_cons, foldl_app.
  - apply not_true_is_false in Hc.
    by rewrite (lineNumbersOfRow_nil rows _ _ r Hc).
Qed.

(** C10. For a row index outside the row sequence and for one that addresses
    a Hunk-header or Context row, [getDiffLineNumber] returns [null] for
    either column and does not throw; such a row leaves the selection of a
    drag release as it is, and the selection handed on by [onEndSelection]
    is the batch update with the line numbers of the Added, Deleted and
    Modified rows of the dragged range only. *)
Theorem only_changed_rows_contribute_to_drag_release (c : Component.t)
    (rows : list SimplifiedDiffRow) :
  getDiffRows (State.diff (Component.state c))
    (Props.showSideBySideDiff (Component.props c)) (canExpandDiff c)
  = Ok rows ->
  (forall (r : Z) (column : DiffColumn.t),
     array_get rows r = None
     \/ (exists content expansionType hunkIndex,
           array_get rows r = Some (HunkRow content expansionType hunkIndex))
     \/ (exists content b a bt at_,
           array_get rows r = Some (ContextRow content b a bt at_)) ->
     getDiffLineNumber c r column = Ok None)
  /\ (forall (r : Z) fromColumn toColumn (b : bool)
             (selection : DiffSelection),
        contributes (array_get rows r) = false ->
        endSelectionStep c fromColumn toColumn b r selection = Ok selection)
  /\ (forall (selection : DiffSelection) (drag : ISelection.t),
        getSelection c = Some selection ->
        State.temporarySelection (Component.state c) = Some drag ->
        let fromRow := Z.min (ISelectionPoint.row (ISelection.from drag))
                             (ISelectionPoint.row (ISelection.to drag)) in
        let toRow := Z.max (ISelectionPoint.row (ISelection.from drag))
                           (ISelectionPoint.row (ISelection.to drag)) in
        onEndSelection c
        = Ok (setState c (withTemporarySelection (Component.state c) None),
              Some (applyLines (ISelection.isSelected drag) selection
                      (concat
                         (lineNumbersOfRow rows
                            (ISelectionPoint.column (ISelection.from drag))
                            (ISelectionPoint.column (ISelection.to drag))
                          <$> filter
                                (fun i => contributes (array_get rows i)
                                          = true)
                                (seqZ fromRow (toRow - fromRow + 1))))))).
Proof.
  intros Hrows. split; [|split].
  - intros r column Hrow. apply contributes_false in Hrow.
    rewrite (getDiffLineNumber_rows c rows) by done.
    by destruct (array_get rows r) as [[]|].
  - intros r fromColumn toColumn b selection Hrow.
    rewrite (endSelectionStep_rows c rows) by done.
    by rewrite lineNumbersOfRow_nil.
  - intros selection drag Hsel Hdrag fromRow toRow.
    unfold onEndSelection. rewrite Hsel, Hdrag.
    rewrite (endSelectionLoop_rows c rows) by done. bind_step.
    fold fromRow toRow. rewrite Z2Nat.id by lia. done.
Qed.

End DragRelease.

Section SearchResultsInvariant.
Context `{Collaborators}.

Lemma consistent_empty : consistent SearchResults.empty.
Proof. intros r c o l Hin. by apply elem_of_nil in Hin. Qed.

Lemma consistent_add (sr : SearchResults.t) (r : Z) (c : DiffColumn.t)
    (o l : Z) :
  consistent sr -> consistent (SearchResults.add sr r c o l).
Proof.
  intros Hsr r' c' o' l' Hin. unfold SearchResults.add in *. simpl in *.
  apply elem_of_app in Hin as [Hold|Hnew].
  - destruct (Hsr r' c' o' l' Hold) as (lt & Hlt & Ho').
    destruct (decide ((r, c) = (r', c'))) as [[= <- <-]|Hne].
    + rewrite Hlt. rewrite lookup_insert_eq. eexists. split; [done|].
      destruct (decide (o = o')) as [<-|Hoo].
      * by rewrite lookup_insert_eq.
      * by rewrite lookup_insert_ne.
    + exists lt. split; [|done].
      destruct (SearchResults.lookup sr !! (r, c));
        by rewrite lookup_insert_ne.
  - apply list_elem_of_singleton in Hnew as [= -> -> -> ->].
    destruct (SearchResults.lookup sr !! (r, c)) as [existing|];
      rewrite lookup_insert_eq; eexists; (split; [done|]).
    + by rewrite lookup_insert_eq.
    + by rewrite lookup_singleton_eq.
Qed.

Lemma consistent_addMatches (matches : list (Z * Z)) :
  forall (sr : SearchResults.t) (r : Z) (c : DiffColumn.t),
    consistent sr -> consistent (addMatches sr r c matches).
Proof.
  induction matches as [|m matches IH]; intros sr r c Hsr; [done|].
  apply IH. by apply consistent_add.
Qed.

Lemma consistent_addColumns (q : string)
    (columns : list (DiffColumn.t * string)) :
  forall (sr : SearchResults.t) (r : Z),
    consistent sr -> consistent (addColumns q sr r columns).
Proof.
  induction columns as [|col columns IH]; intros sr r Hsr; [done|].
  apply IH. by apply consistent_addMatches.
Qed.

Lemma consistent_searchRowsLoop (sbs : bool) (q : string)
    (rows : list SimplifiedDiffRow) :
  forall (r : Z) (sr : SearchResults.t),
    consistent sr -> consistent (searchRowsLoop sbs q rows r sr).
Proof.
  induction rows as [|row rows IH]; intros r sr Hsr; [done|].
  cbn [searchRowsLoop]. apply IH.
  destruct row; try done; by apply consistent_addColumns.
Qed.

(** The results of a search are consistent. *)
Lemma calcSearchTokens_consistent (diff : ITextDiff.t) (sbs : bool)
    (q : string) (en : bool) (sr : SearchResults.t) :
  calcSearchTokens diff sbs q en = Ok (Some sr) -> consistent sr.
Proof.
  unfold calcSearchTokens. case_bool_decide; [done|].
  destruct (getDiffRows diff sbs en) as [rows|]; [|done]. bind_step.
  intros [= <-]. apply consistent_searchRowsLoop, consistent_empty.
Qed.

End SearchResultsInvariant.

Section TokenOverlay.
Context `{Collaborators}.

Lemma getRowDataPopulated_tokens (c : Component.t)
    (data : SimplifiedDiffRowData.t) (row : Z) (column : DiffColumn.t)
    (table : option ITokens) :
  IDiffRowData.tokens (getRowDataPopulated c data row column table)
  = describedOrder (SimplifiedDiffRowData.tokens data)
      (searchPart c row column)
      (getTokens (SimplifiedDiffRowData.lineNumber data) table).
Proof.
  unfold getRowDataPopulated, describedOrder, searchPart. simpl.
  destruct (getSearchTokens c row column), (getTokens _ table); simpl;
    by rewrite ?app_nil_r, <- ?app_assoc.
Qed.

Lemma createFullRow_context (c : Component.t) (content : string) (b a : Z)
    (rowBefore rowAfter : list ILineTokens) (numRow : Z) :
  createFullRow c (ContextRow content b a rowBefore rowAfter) numRow
  = FullContextRow content b a
      (rowBefore ++ option_list (contextSyntax c b a)
       ++ searchPart c numRow DiffColumn.Before)
      (rowAfter ++ option_list (contextSyntax c b a)
       ++ searchPart c numRow DiffColumn.After).
Proof.
  unfold createFullRow, contextSyntax, searchPart.
  destruct (getTokens b _) as [t|]; [|destruct (getTokens a _) as [t|]];
    destruct (getSearchTokens c numRow DiffColumn.Before),
             (getSearchTokens c numRow DiffColumn.After); simpl;
    by rewrite ?app_nil_r, <- ?app_assoc.
Qed.

Lemma searchPart_cases (c : Component.t) (row : Z) (column : DiffColumn.t) :
  (forall sr, State.searchResults (Component.state c) = Some sr ->
              consistent sr) ->
  (forall sr lineTokens hit,
     State.searchResults (Component.state c) = Some sr ->
     SearchResults.getLineTokens sr row column = Some lineTokens ->
     selectedHitIn c sr row column hit ->
     searchPart c row column
     = [lineTokens;
        {[ Hit.offset hit := IToken.mk (Hit.length hit) "selected" ]}])
  /\ (forall sr lineTokens,
        State.searchResults (Component.state c) = Some sr ->
        SearchResults.getLineTokens sr row column = Some lineTokens ->
        ~ (exists hit, selectedHitIn c sr row column hit) ->
        searchPart c row column = [lineTokens])
  /\ (forall sr,
        State.searchResults (Component.state c) = Some sr ->
        SearchResults.getLineTokens sr row column = None ->
        searchPart c row column = [])
  /\ (State.searchResults (Component.state c) = None ->
      searchPart c row column = []).
Proof.
  intros Hcons. unfold searchPart, getSearchTokens.
  split; [|split; [|split]].
  - intros sr lineTokens hit Hsr Hlt (k & Hk & Hget & Hrow & Hcol).
    rewrite Hsr, Hlt, Hk, Hget.
    rewrite !bool_decide_eq_true_2 by done. simpl.
    destruct (Hcons sr Hsr (Hit.row hit) (Hit.column hit) (Hit.offset hit)
                (Hit.length hit)) as (lt & Hlookup & [tok Htok]).
    { unfold SearchResults.get in Hget.
      destruct (array_get (SearchResults.hits sr) k) as [[[[r c'] o] l]|]
        eqn:E; [|done].
      injection Hget as <-. simpl.
      unfold array_get in E. case_decide; [done|].
      by eapply list_elem_of_lookup_2. }
    unfold SearchResults.getLineTokens in Hlt. subst row column.
    assert (lt = lineTokens) as -> by congruence. by rewrite Htok.
  - intros sr lineTokens Hsr Hlt Hnone. rewrite Hsr, Hlt.
    destruct (State.selectedSearchResult (Component.state c)) as [k|] eqn:Hk;
      [|done].
    destruct (SearchResults.get sr k) as [hit|] eqn:Hget; [|done].
    destruct (bool_decide (row = Hit.row hit)
              && bool_decide (column = Hit.column hit)) eqn:Hcell; [|done].
    exfalso. apply Hnone. exists hit, k.
    apply andb_true_iff in Hcell as [Hr Hc].
    apply bool_decide_eq_true in Hr, Hc. done.
  - intros sr Hsr Hlt. by rewrite Hsr, Hlt.
  - by intros ->.
Qed.

(** X26. For every column of an Added, Deleted or Modified row the final
    token list is in the described order: the emphasis tokens of the cell,
    the search tokens of the cell (the tokens of its hits, followed by the
    token of the selected hit when the selected hit lies in this cell), and
    last the syntax tokens found for the line number of the cell. A
    Hunk-header row has no tokens. *)
Theorem changed_row_tokens_in_described_order (c : Component.t)
    (numRow : Z) :
  (forall sr, State.searchResults (Component.state c) = Some sr ->
              consistent sr) ->
  (forall data start,
     createFullRow c (AddedRow data start) numRow
     = FullAddedRow
         (getRowDataPopulated c data numRow
            (if Props.showSideBySideDiff (Component.props c)
             then DiffColumn.After else DiffColumn.Before)
            (State.afterTokens (Component.state c)))
         start)
  /\ (forall data start,
        createFullRow c (DeletedRow data start) numRow
        = FullDeletedRow
            (getRowDataPopulated c data numRow DiffColumn.Before
               (State.beforeTokens (Component.state c)))
            start)
  /\ (forall beforeData afterData start,
        createFullRow c (ModifiedRow beforeData afterData start) numRow
        = FullModifiedRow
            (getRowDataPopulated c beforeData numRow DiffColumn.Before
               (State.beforeTokens (Component.state c)))
            (getRowDataPopulated c afterData numRow DiffColumn.After
               (State.afterTokens (Component.state c)))
            start)
  /\ (forall data column table,
        IDiffRowData.tokens (getRowDataPopulated c data numRow column table)
        = describedOrder (SimplifiedDiffRowData.tokens data)
            (searchPart c numRow column)
            (getTokens (SimplifiedDiffRowData.lineNumber data) table))
  /\ (forall content expansionType hunkIndex,
        createFullRow c (HunkRow content expansionType hunkIndex) numRow
        = FullHunkRow content expansionType hunkIndex)
  /\ (forall column sr lineTokens hit,
        State.searchResults (Component.state c) = Some sr ->
        SearchResults.getLineTokens sr numRow column = Some lineTokens ->
        selectedHitIn c sr numRow column hit ->
        searchPart c numRow column
        = [lineTokens;
           {[ Hit.offset hit := IToken.mk (Hit.length hit) "selected" ]}])
  /\ (forall column sr lineTokens,
        State.searchResults (Component.state c) = Some sr ->
        SearchResults.getLineTokens sr numRow column = Some lineTokens ->
        ~ (exists hit, selectedHitIn c sr numRow column hit) ->
        searchPart c numRow column = [lineTokens])
  /\ (forall column,
        (forall sr, State.searchResults (Component.state c) = Some sr ->
                    SearchResults.getLineTokens sr numRow column = None) ->
        searchPart c numRow column = []).
Proof.
  intros Hcons.
  split; [done|]. split; [done|]. split; [done|].
  split; [intros; apply getRowDataPopulated_tokens|].
  split; [done|].
  split; [intros column; apply (searchPart_cases c numRow column Hcons)|].
  split; [intros column; apply (searchPart_cases c numRow column Hcons)|].
  intros column Hnone.
  destruct (searchPart_cases c numRow column Hcons) as (_ & _ & H3 & H4).
  destruct (State.searchResults (Component.state c)) as [sr|] eqn:Hsr.
  - apply (H3 sr eq_refl (Hnone sr eq_refl)).
  - by apply H4.
Qed.

(** C4 (amended). A Context row gets the same syntax tokens in both columns:
    those found for its old line number in the table of the old file, or,
    when that lookup misses, those found for its new line number in the
    table of the new file; a column gets no syntax tokens only when both
    lookups miss. *)
Theorem context_row_syntax_falls_back_to_new_file (c : Component.t)
    (content : string) (b a : Z) (rowBefore rowAfter : list ILineTokens)
    (numRow : Z) :
  exists syntax : list ILineTokens,
    createFullRow c (ContextRow content b a rowBefore rowAfter) numRow
    = FullContextRow content b a
        (rowBefore ++ syntax ++ searchPart c numRow DiffColumn.Before)
        (rowAfter ++ syntax ++ searchPart c numRow DiffColumn.After)
    /\ (forall t,
          getTokens b (State.beforeTokens (Component.state c)) = Some t ->
          syntax = [t])
    /\ (forall t,
          getTokens b (State.beforeTokens (Component.state c)) = None ->
          getTokens a (State.afterTokens (Component.state c)) = Some t ->
          syntax = [t])
    /\ (getTokens b (State.beforeTokens (Component.state c)) = None ->
        getTokens a (State.afterTokens (Component.state c)) = None ->
        syntax = []).
Proof.
  exists (option_list (contextSyntax c b a)).
  split; [apply createFullRow_context|]. unfold contextSyntax.
  split; [by intros t ->|]. split; [by intros t -> ->|]. by intros -> ->.
Qed.

End TokenOverlay.

Section Search.
Context `{Collaborators}.
Implicit Types (q content pre mid post rest : string).

Lemma foldCase_nil mid : foldCase mid = EmptyString -> mid = EmptyString.
Proof. by destruct mid. Qed.

Lemma append_nil_l rest : EmptyString +:+ rest = rest.
Proof. done. Qed.

Lemma append_cons ch pre rest :
  String ch pre +:+ rest = String ch (pre +:+ rest).
Proof. done. Qed.

Lemma matchesAt_spec q : forall rest,
  matchesAt q rest = true
  <-> exists mid post, rest = mid +:+ post /\ foldCase mid = foldCase q.
Proof.
  induction q as [|a q IH]; intros rest.
  - split; [by exists EmptyString, rest|done].
  - destruct rest as [|ch rest]; simpl.
    + split; [done|]. intros (mid & post & Hrest & Hfold).
      destruct mid; [done|discriminate].
    + rewrite andb_true_iff, bool_decide_eq_true, IH. split.
      * intros (Hch & mid & post & -> & Hfold).
        exists (String ch mid), post. simpl. by rewrite Hfold, Hch.
      * intros (mid & post & Hrest & Hfold).
        destruct mid as [|ch' mid]; [done|].
        rewrite append_cons in Hrest. simpl in Hfold.
        injection Hrest as Hc Hr.
        injection Hfold as Hch Hfold. subst. eauto.
Qed.

Lemma strlen_cons ch content :
  strlen (String ch content) = 1 + strlen content.
Proof. unfold strlen. simpl. lia. Qed.

Lemma strlen_nonneg content : 0 <= strlen content.
Proof. unfold strlen. lia. Qed.

(** Every reported match is an occurrence of the literal query. *)
Lemma matchAllFrom_sound q content : forall (index : Z) (skip : nat) o l,
  (o, l) ∈ matchAllFrom q content index skip ->
  l = strlen q
  /\ exists pre rest,
       content = pre +:+ rest /\ strlen pre = o - index
       /\ matchesAt q rest = true.
Proof.
  induction content as [|ch content IH]; intros index skip o l Hin.
  - by apply elem_of_nil in Hin.
  - assert (forall skip',
              (o, l) ∈ matchAllFrom q content (index + 1) skip' ->
              l = strlen q
              /\ exists pre rest,
                   String ch content = pre +:+ rest
                   /\ strlen pre = o - index /\ matchesAt q rest = true)
      as Htail.
    { intros skip' Hin'.
      destruct (IH _ _ _ _ Hin') as (-> & pre & rest & -> & Hpre & Hm).
      split; [done|]. exists (String ch pre), rest.
      split; [done|]. rewrite strlen_cons. split; [lia|done]. }
    cbn [matchAllFrom] in Hin. destruct skip as [|skip]; [|by eauto].
    destruct (matchesAt q (String ch content)) eqn:Hm; [|by eauto].
    apply elem_of_cons in Hin as [[= -> ->]|Hin]; [|by eauto].
    split; [done|]. exists EmptyString, (String ch content).
    split; [done|]. split; [unfold strlen; simpl; lia|done].
Qed.

(** Every occurrence of the query lies within a reported match. *)
Lemma matchAllFrom_complete q content :
  q <> EmptyString ->
  forall (index : Z) (skip : nat) pre rest,
    content = pre +:+ rest -> matchesAt q rest = true ->
    Z.of_nat skip <= strlen pre ->
    exists o l,
      (o, l) ∈ matchAllFrom q content index skip
      /\ o <= index + strlen pre < o + l.
Proof.
  intros Hq. induction content as [|ch content IH];
    intros index skip pre rest Hcontent Hm Hskip.
  - destruct pre; [|done]. rewrite append_nil_l in Hcontent. subst rest.
    destruct q; [done|discriminate].
  - assert (forall skip' pre',
              pre = String ch pre' -> Z.of_nat skip' <= strlen pre' ->
              exists o l,
                (o, l) ∈ matchAllFrom q content (index + 1) skip'
                /\ o <= index + strlen pre < o + l) as Htail.
    { intros skip' pre' -> Hskip'. rewrite append_cons in Hcontent.
      injection Hcontent as ->.
      destruct (IH (index + 1) skip' pre' rest eq_refl Hm Hskip')
        as (o & l & Hin & Hrange).
      exists o, l. split; [done|]. rewrite strlen_cons. lia. }
    assert (forall P : Prop,
              0 < strlen pre ->
              (forall pre', pre = String ch pre' -> P) -> P) as Hpre.
    { intros P Hlen HP. destruct pre as [|ch' pre'].
      - unfold strlen in Hlen. simpl in Hlen. lia.
      - rewrite append_cons in Hcontent.
        injection Hcontent as -> _. by apply (HP pre'). }
    cbn [matchAllFrom]. destruct skip as [|skip].
    + destruct (matchesAt q (String ch content)) eqn:Hhere.
      * destruct (decide (strlen pre < strlen q)) as [Hin|Hout].
        -- exists index, (strlen q). split; [by left|].
           pose proof (strlen_nonneg pre). lia.
        -- apply Hpre;
             [destruct q; [done|];
              unfold strlen in Hout |- *; cbn [String.length] in Hout; lia|].
           intros pre' Epre.
           destruct (Htail (String.length q - 1)%nat pre' Epre)
             as (o & l & Hin & Hrange).
           { subst pre. rewrite strlen_cons in Hout. unfold strlen in *.
             lia. }
           exists o, l. split; [by right|done].
      * apply Hpre.
        { destruct pre as [|ch' pre'].
          - rewrite append_nil_l in Hcontent. subst rest. congruence.
          - rewrite strlen_cons. pose proof (strlen_nonneg pre'). lia. }
        intros pre' Epre.
        apply (Htail O pre' Epre). apply strlen_nonneg.
    + apply Hpre; [lia|]. intros pre' Epre.
      apply (Htail skip pre' Epre). subst pre.
      rewrite strlen_cons in Hskip. lia.
Qed.

Lemma occursAt_matchAll q content :
  q <> EmptyString ->
  (forall o l, (o, l) ∈ matchAll q content ->
               l = strlen q /\ occursAt q content o)
  /\ (forall p, occursAt q content p ->
                exists o l, (o, l) ∈ matchAll q content /\ o <= p < o + l).
Proof.
  intros Hq. split.
  - intros o l Hin.
    destruct (matchAllFrom_sound q content 0 O o l Hin)
      as (-> & pre & rest & -> & Hpre & Hm).
    split; [done|].
    apply matchesAt_spec in Hm as (mid & post & -> & Hfold).
    exists pre, mid, post. split; [done|]. split; [lia|done].
  - intros p (pre & mid & post & -> & <- & Hfold).
    destruct (matchAllFrom_complete q (pre +:+ mid +:+ post) Hq 0 O pre
                (mid +:+ post) eq_refl) as (o & l & Hin & Hrange).
    + apply matchesAt_spec. eauto.
    + apply strlen_nonneg.
    + exists o, l. split; [done|lia].
Qed.

Lemma hits_addMatches (matches : list (Z * Z)) :
  forall (sr : SearchResults.t) (r : Z) (c : DiffColumn.t),
    SearchResults.hits (addMatches sr r c matches)
    = SearchResults.hits sr ++ ((fun m => (r, c, m.1, m.2)) <$> matches).
Proof.
  induction matches as [|m matches IH]; intros sr r c.
  - by rewrite app_nil_r.
  - unfold addMatches in *. cbn [foldl]. rewrite IH. simpl.
    by rewrite <- app_assoc.
Qed.

Lemma hits_addColumns q (columns : list (DiffColumn.t * string)) :
  forall (sr : SearchResults.t) (r : Z),
    SearchResults.hits (addColumns q sr r columns)
    = SearchResults.hits sr ++ concat (hitsOfCell q r <$> columns).
Proof.
  induction columns as [|col columns IH]; intros sr r.
  - by rewrite app_nil_r.
  - unfold addColumns in *. cbn [foldl]. rewrite IH, hits_addMatches.
    by rewrite <- app_assoc.
Qed.

Lemma enumerateColumnContents_cells (row : SimplifiedDiffRow) (sbs : bool) :
  match row with
  | HunkRow _ _ _ => cellsToScan row sbs = []
  | _ => enumerateColumnContents row sbs = cellsToScan row sbs
  end.
Proof. by destruct row, sbs. Qed.

Lemma hitsOfRows_cons q (sbs : bool) (first : Z) row rows :
  hitsOfRows q sbs first (row :: rows)
  = concat (hitsOfCell q first <$> cellsToScan row sbs)
    ++ hitsOfRows q sbs (first + 1) rows.
Proof.
  unfold hitsOfRows. rewrite imap_cons. cbn [concat].
  rewrite Z.add_0_r. f_equal. f_equal.
  apply imap_ext. intros i x _. simpl. do 3 f_equal. lia.
Qed.

Lemma hits_searchRowsLoop (sbs : bool) q (rows : list SimplifiedDiffRow) :
  forall (first : Z) (sr : SearchResults.t),
    SearchResults.hits (searchRowsLoop sbs q rows first sr)
    = SearchResults.hits sr ++ hitsOfRows q sbs first rows.
Proof.
  induction rows as [|row rows IH]; intros first sr.
  - by rewrite app_nil_r.
  - cbn [searchRowsLoop]. rewrite IH, hitsOfRows_cons.
    pose proof (enumerateColumnContents_cells row sbs) as Hcells.
    destruct row; rewrite ?Hcells, ?hits_addColumns, <- ?app_assoc;
      done.
Qed.

Lemma elem_of_hitsOfCells q (r : Z) (cells : list (DiffColumn.t * string))
    (h : Z * DiffColumn.t * Z * Z) :
  h ∈ concat (hitsOfCell q r <$> cells)
  <-> exists c content o l,
        h = (r, c, o, l) /\ (c, content) ∈ cells
        /\ (o, l) ∈ matchAll q content.
Proof.
  induction cells as [|[c content] cells IH].
  - split; [by intros ?%elem_of_nil|].
    by intros (? & ? & ? & ? & _ & ?%elem_of_nil & _).
  - rewrite fmap_cons. cbn [concat]. rewrite elem_of_app, IH.
    unfold hitsOfCell at 1. rewrite list_elem_of_fmap. simpl. split.
    + intros [([o l] & -> & Hin)|(c' & content' & o & l & -> & Hc & Hin)].
      * exists c, content, o, l. split; [done|]. split; [by left|done].
      * exists c', content', o, l. split; [done|]. split; [by right|done].
    + intros (c' & content' & o & l & -> & Hc & Hin).
      apply elem_of_cons in Hc as [[= -> ->]|Hc].
      * left. by exists (o, l).
      * right. by exists c', content', o, l.
Qed.

Lemma elem_of_hitsOfRows q (sbs : bool) (rows : list SimplifiedDiffRow) :
  forall (first : Z) (h : Z * DiffColumn.t * Z * Z),
    h ∈ hitsOfRows q sbs first rows
    <-> exists (i : nat) row c content o l,
          h = (first + Z.of_nat i, c, o, l) /\ rows !! i = Some row
          /\ (c, content) ∈ cellsToScan row sbs
          /\ (o, l) ∈ matchAll q content.
Proof.
  induction rows as [|row rows IH]; intros first h.
  - split; [by intros ?%elem_of_nil|].
    by intros (? & ? & ? & ? & ? & ? & _ & ? & _).
  - rewrite hitsOfRows_cons, elem_of_app, IH, elem_of_hitsOfCells. split.
    + intros [(c & content & o & l & -> & Hc & Hin)
             |(i & row' & c & content & o & l & -> & Hrow & Hc & Hin)].
      * exists O, row, c, content, o, l. by rewrite Z.add_0_r.
      * exists (S i), row', c, content, o, l.
        split; [do 3 f_equal; lia|done].
    + intros (i & row' & c & content & o & l & -> & Hrow & Hc & Hin).
      destruct i as [|i].
      * left. injection Hrow as <-. exists c, content, o, l.
        by rewrite Z.add_0_r.
      * right. exists i, row', c, content, o, l.
        split; [do 3 f_equal; lia|done].
Qed.

(** C9 (amended). For a non-empty query the hits of a search are, row by
    row in the order of the rows, the matches of the cells scanned in each
    row: none for a Hunk-header row; both columns of a Modified row; both
    columns of a Context row in side-by-side mode and only its before column
    in unified mode; the before column of a Deleted row; the after column of
    an Added row in side-by-side mode and its before column in unified mode.
    Every hit carries its row index, column, offset and length, and is an
    occurrence of the literal query up to case; every such occurrence in a
    scanned cell lies within a hit. *)
Theorem search_scans_cells_by_row_type (diff : ITextDiff.t) (sbs : bool)
    q (en : bool) (rows : list SimplifiedDiffRow) :
  q <> EmptyString ->
  getDiffRows diff sbs en = Ok rows ->
  exists sr,
    calcSearchTokens diff sbs q en = Ok (Some sr)
    /\ SearchResults.hits sr = hitsOfRows q sbs 0 rows
    /\ (forall r c o l,
          (r, c, o, l) ∈ SearchResults.hits sr ->
          exists row content,
            array_get rows r = Some row
            /\ (c, content) ∈ cellsToScan row sbs
            /\ l = strlen q /\ occursAt q content o)
    /\ (forall (i : nat) row c content p,
          rows !! i = Some row -> (c, content) ∈ cellsToScan row sbs ->
          occursAt q content p ->
          exists o l,
            (Z.of_nat i, c, o, l) ∈ SearchResults.hits sr
            /\ o <= p < o + l)
    /\ (forall row,
          cellsToScan row sbs
          = match row with
            | HunkRow _ _ _ => []
            | ContextRow content _ _ _ _ =>
                if sbs
                then [(DiffColumn.Before, content);
                      (DiffColumn.After, content)]
                else [(DiffColumn.Before, content)]
            | ModifiedRow beforeData afterData _ =>
                [(DiffColumn.Before,
                  SimplifiedDiffRowData.content beforeData);
                 (DiffColumn.After,
                  SimplifiedDiffRowData.content afterData)]
            | DeletedRow data _ =>
                [(DiffColumn.Before, SimplifiedDiffRowData.content data)]
            | AddedRow data _ =>
                [(if sbs then DiffColumn.After else DiffColumn.Before,
                  SimplifiedDiffRowData.content data)]
            end).
Proof.
  intros Hq Hrows.
  exists (searchRowsLoop sbs q rows 0 SearchResults.empty).
  assert (SearchResults.hits (searchRowsLoop sbs q rows 0 SearchResults.empty)
          = hitsOfRows q sbs 0 rows) as Hhits.
  { by rewrite hits_searchRowsLoop. }
  split.
  { unfold calcSearchTokens. rewrite Hrows.
    rewrite bool_decide_eq_false_2; [done|].
    destruct q; [done|]. rewrite strlen_cons.
    pose proof (strlen_nonneg q). lia. }
  split; [exact Hhits|]. rewrite Hhits.
  split; [|split; [|done]].
  - intros r c o l Hin.
    apply elem_of_hitsOfRows
      in Hin as (i & row & c' & content & o' & l' & [= -> -> -> ->]
                 & Hrow & Hc & Hm).
    exists row, content.
    split.
    { unfold array_get. rewrite decide_False by lia.
      by rewrite Z.add_0_l, Nat2Z.id. }
    split; [done|]. by apply occursAt_matchAll.
  - intros i row c content p Hrow Hc Hocc.
    destruct (proj2 (occursAt_matchAll q content Hq) p Hocc)
      as (o & l & Hin & Hrange).
    exists o, l. split; [|done].
    apply elem_of_hitsOfRows. by exists i, row, c, content, o, l.
Qed.

End Search.

(** One step of the error monad in a hypothesis. *)
Ltac bind_step_in H :=
  cbn [mbind Fallible_bind assertNonNullable forceUnwrap] in H.

Section ClassifierErrors.
Context `{Collaborators}.
Implicit Types (A D run : list ModifiedLine.t) (d a : ModifiedLine.t).

Lemma getDataFromLine_ok_old d tok data :
  getDataFromLine d UseOldLineNumber tok = Ok data -> hasOld d.
Proof.
  unfold getDataFromLine, hasOld.
  destruct (DiffLine.oldLineNumber (ModifiedLine.line d)); [by eauto|done].
Qed.

Lemma getDataFromLine_ok_new a tok data :
  getDataFromLine a UseNewLineNumber tok = Ok data -> hasNew a.
Proof.
  unfold getDataFromLine, hasNew.
  destruct (DiffLine.newLineNumber (ModifiedLine.line a)); [by eauto|done].
Qed.

Lemma deletedLoop_ok D start : forall n i out tb res,
  deletedLoop n i D start out tb = Ok res ->
  forall j d, (i <= j < i + n)%nat -> D !! j = Some d -> hasOld d.
Proof.
  induction n as [|n IH]; intros i out tb res Hloop j d Hj Hd; [lia|].
  cbn [deletedLoop] in Hloop.
  destruct (D !! i) as [di|] eqn:Hdi; [|done]. bind_step_in Hloop.
  destruct (array_shift tb) as [t rest].
  destruct (getDataFromLine di UseOldLineNumber t) as [data|] eqn:Hdata;
    [|done].
  bind_step_in Hloop.
  destruct (decide (j = i)) as [->|Hne].
  - simplify_eq. by eapply getDataFromLine_ok_old.
  - eapply IH; [exact Hloop| |exact Hd]. lia.
Qed.

Lemma addedLoop_ok A start : forall n i out ta res,
  addedLoop n i A start out ta = Ok res ->
  forall j a, (i <= j < i + n)%nat -> A !! j = Some a -> hasNew a.
Proof.
  induction n as [|n IH]; intros i out ta res Hloop j a Hj Ha; [lia|].
  cbn [addedLoop] in Hloop.
  destruct (A !! i) as [ai|] eqn:Hai; [|done]. bind_step_in Hloop.
  destruct (array_shift ta) as [t rest].
  destruct (getDataFromLine ai UseNewLineNumber t) as [data|] eqn:Hdata;
    [|done].
  bind_step_in Hloop.
  destruct (decide (j = i)) as [->|Hne].
  - simplify_eq. by eapply getDataFromLine_ok_new.
  - eapply IH; [exact Hloop| |exact Ha]. lia.
Qed.

Lemma modifiedLoop_ok A D start sbs : forall fuel st st',
  modifiedLoop fuel sbs A D start st = Ok st' ->
  (indexModifiedRow st <= pairCount sbs A D)%nat ->
  (pairCount sbs A D - indexModifiedRow st <= fuel)%nat ->
  indexModifiedRow st' = pairCount sbs A D
  /\ forall j d a,
       (indexModifiedRow st <= j < pairCount sbs A D)%nat ->
       D !! j = Some d -> A !! j = Some a -> hasOld d /\ hasNew a.
Proof.
  induction fuel as [|fuel IH]; intros st st' Hloop Hi Hfuel.
  - cbn [modifiedLoop] in Hloop. injection Hloop as <-.
    split; [lia|]. intros; lia.
  - cbn [modifiedLoop] in Hloop.
    destruct (sbs && bool_decide (indexModifiedRow st < List.length A)%nat
              && bool_decide (indexModifiedRow st < List.length D)%nat)
      eqn:Hcond.
    + destruct (A !! indexModifiedRow st) as [ai|] eqn:Hai; [|done].
      destruct (D !! indexModifiedRow st) as [di|] eqn:Hdi; [|done].
      bind_step_in Hloop.
      destruct (array_shift (diffTokensBefore st)) as [tb restB].
      destruct (getDataFromLine di UseOldLineNumber tb) as [bd|] eqn:Hbd;
        [|done].
      bind_step_in Hloop.
      destruct (array_shift (diffTokensAfter st)) as [ta restA].
      destruct (getDataFromLine ai UseNewLineNumber ta) as [ad|] eqn:Had;
        [|done].
      bind_step_in Hloop.
      apply andb_true_iff in Hcond as [Hcond HD].
      apply andb_true_iff in Hcond as [-> HA].
      apply bool_decide_eq_true in HA, HD.
      assert (indexModifiedRow st < pairCount true A D)%nat as Hlt.
      { unfold pairCount. lia. }
      apply IH in Hloop as [Hindex Hrange];
        [|unfold pairCount in *; simpl in *; lia
         |unfold pairCount in *; simpl in *; lia].
      split; [exact Hindex|].
      intros j d a Hj Hd Ha.
      destruct (decide (j = indexModifiedRow st)) as [->|Hne].
      * simplify_eq. split.
        -- by eapply getDataFromLine_ok_old.
        -- by eapply getDataFromLine_ok_new.
      * apply (Hrange j); [simpl in *; lia|done|done].
    + injection Hloop as <-.
      assert (indexModifiedRow st = pairCount sbs A D) as Heq.
      { unfold pairCount in *. destruct sbs; [|lia]. simpl in Hcond.
        apply andb_false_iff in Hcond as [Hc|Hc];
          apply bool_decide_eq_false in Hc; lia. }
      split; [done|]. intros; lia.
Qed.

(** A run whose rows are produced has the line numbers its rows need. *)
Lemma getModifiedRows_ok_wf run sbs rows :
  getModifiedRows run sbs = Ok rows ->
  Forall hasNew (addedOf run) /\ Forall hasOld (deletedOf run).
Proof.
  intros Hrows. destruct run as [|first rest] eqn:Erun.
  { split; constructor. }
  rewrite <- Erun in *.
  unfold getModifiedRows in Hrows. rewrite Erun in Hrows at 1.
  fold (addedOf run) (deletedOf run) in Hrows.
  set (A := addedOf run) in *. set (D := deletedOf run) in *.
  destruct (computeDiffTokens A D) as [arrays|]; [|done].
  bind_step_in Hrows.
  destruct (modifiedLoop _ sbs A D _ _) as [st|] eqn:Hmod; [|done].
  bind_step_in Hrows.
  destruct (pairCount_le sbs A D) as [HmA HmD].
  apply modifiedLoop_ok in Hmod as [Hindex Hpairs]; simpl; [|lia|lia].
  simpl in Hpairs. rewrite Hindex in Hrows.
  destruct (deletedLoop _ _ D _ _ _) as [[out1 tb1]|] eqn:Hdel; [|done].
  bind_step_in Hrows.
  destruct (addedLoop _ _ A _ _ _) as [[out2 ta2]|] eqn:Hadd; [|done].
  split; apply Forall_lookup_2.
  - intros j a Ha. pose proof (lookup_lt_Some _ _ _ Ha) as Hj.
    destruct (decide (j < pairCount sbs A D)%nat) as [Hlt|Hge].
    + destruct (lookup_lt_is_Some_2 D j) as [d Hd]; [lia|].
      by destruct (Hpairs j d a ltac:(lia) Hd Ha).
    + eapply addedLoop_ok; [exact Hadd| |exact Ha]. lia.
  - intros j d Hd. pose proof (lookup_lt_Some _ _ _ Hd) as Hj.
    destruct (decide (j < pairCount sbs A D)%nat) as [Hlt|Hge].
    + destruct (lookup_lt_is_Some_2 A j) as [a Ha]; [lia|].
      by destruct (Hpairs j d a ltac:(lia) Hd Ha).
    + eapply deletedLoop_ok; [exact Hdel| |exact Hd]. lia.
Qed.

End ClassifierErrors.

Section ClassifierInvariants.
Context `{Collaborators}.
Implicit Types (run ml : list ModifiedLine.t) (lines : list DiffLine.t)
  (rows out : list SimplifiedDiffRow).

Lemma changeLine_wellFormed ml :
  Forall changeLine ml ->
  Forall hasNew (addedOf ml) -> Forall hasOld (deletedOf ml) ->
  Forall wellFormedModifiedLine ml.
Proof.
  rewrite !Forall_forall. intros Hchange Hnew Hold x Hx.
  unfold wellFormedModifiedLine, wellFormedLine.
  destruct (Hchange x Hx) as [Hadd|Hdel].
  - rewrite Hadd. apply Hnew. apply list_elem_of_filter. split; [|done].
    unfold isAdd. by apply bool_decide_eq_true.
  - rewrite Hdel. apply Hold. apply list_elem_of_filter. split; [|done].
    unfold isDelete. by apply bool_decide_eq_true.
Qed.

Lemma added_deleted_length ml :
  Forall changeLine ml ->
  (List.length (addedOf ml) + List.length (deletedOf ml))%nat
  = List.length ml.
Proof.
  induction 1 as [|x ml Hx _ IH]; [done|].
  unfold addedOf, deletedOf in *. rewrite !filter_cons.
  assert (isAdd x = negb (isDelete x)) as Hkind.
  { unfold isAdd, isDelete. destruct Hx as [Hx|Hx]; by rewrite Hx. }
  repeat case_decide; simpl; destruct (isDelete x); simpl in *;
    try congruence; lia.
Qed.

(** The rows of a run by kind, whenever they are produced. *)
Lemma getModifiedRows_kinds first rest sbs rows :
  getModifiedRows (first :: rest) sbs = Ok rows ->
  exists mods dels adds,
    rows = mods ++ dels ++ adds
    /\ List.length mods
       = pairCount sbs (addedOf (first :: rest)) (deletedOf (first :: rest))
    /\ (List.length mods + List.length dels)%nat
       = List.length (deletedOf (first :: rest))
    /\ (List.length mods + List.length adds)%nat
       = List.length (addedOf (first :: rest))
    /\ Forall (fun r => exists bd ad,
                 r = ModifiedRow bd ad (ModifiedLine.diffLineNumber first))
         mods
    /\ Forall (fun r => exists data,
                 r = DeletedRow data (ModifiedLine.diffLineNumber first))
         dels
    /\ Forall (fun r => exists data,
                 r = AddedRow data (ModifiedLine.diffLineNumber first))
         adds.
Proof.
  intros Hrows.
  destruct (getModifiedRows_ok_wf _ _ _ Hrows) as [HwfA HwfD].
  destruct (getModifiedRows_spec (first :: rest) sbs first rest eq_refl
              HwfA HwfD)
    as (arrays & mods & dels & adds & _ & Hrows' & Hlmods & Hldels & Hladds
        & Hpmods & Hpdels & Hpadds).
  set (A := addedOf (first :: rest)) in *.
  set (D := deletedOf (first :: rest)) in *.
  destruct (pairCount_le sbs A D) as [HmA HmD].
  exists mods, dels, adds.
  split; [congruence|]. split; [done|]. split; [lia|]. split; [lia|].
  split; [|split]; apply Forall_lookup_2.
  - intros j r Hr. pose proof (lookup_lt_Some _ _ _ Hr) as Hj.
    destruct (lookup_lt_is_Some_2 D j) as [d Hd]; [lia|].
    destruct (lookup_lt_is_Some_2 A j) as [a Ha]; [lia|].
    destruct (Hpmods j d a Hd Ha) as (r' & Hr' & bd & ad & _ & _ & ->);
      [lia|].
    exists bd, ad. congruence.
  - intros j r Hr. pose proof (lookup_lt_Some _ _ _ Hr) as Hj.
    destruct (lookup_lt_is_Some_2 D (pairCount sbs A D + j)) as [d Hd];
      [lia|].
    destruct (Hpdels j d Hd) as (r' & Hr' & data & _ & ->).
    exists data. congruence.
  - intros j r Hr. pose proof (lookup_lt_Some _ _ _ Hr) as Hj.
    destruct (lookup_lt_is_Some_2 A (pairCount sbs A D + j)) as [a Ha];
      [lia|].
    destruct (Hpadds j a Ha) as (r' & Hr' & data & _ & ->).
    exists data. congruence.
Qed.

Lemma sum_cells_app rows out :
  sum_list_with cellsOf (rows ++ out)
  = (sum_list_with cellsOf rows + sum_list_with cellsOf out)%nat.
Proof. apply sum_list_with_app. Qed.

Lemma sum_cells_modified rows :
  Forall isModifiedRow rows ->
  sum_list_with cellsOf rows = (2 * List.length rows)%nat.
Proof.
  induction 1 as [|r rows Hr _ IH]; [done|].
  destruct r; try done. simpl. rewrite IH. lia.
Qed.

Lemma sum_cells_single rows :
  Forall (fun r => ~ isModifiedRow r) rows ->
  sum_list_with cellsOf rows = List.length rows.
Proof.
  induction 1 as [|r rows Hr _ IH]; [done|].
  destruct r; simpl in *; try tauto; by rewrite IH.
Qed.

(** A run shows each of its lines once; unified mode pairs nothing. *)
Lemma getModifiedRows_cells run sbs rows :
  Forall changeLine run ->
  getModifiedRows run sbs = Ok rows ->
  sum_list_with cellsOf rows = List.length run
  /\ (sbs = false -> Forall (fun r => ~ isModifiedRow r) rows).
Proof.
  intros Hchange Hrows. destruct run as [|first rest].
  { injection Hrows as <-. split; [done|]. by constructor. }
  destruct (getModifiedRows_kinds first rest sbs rows Hrows)
    as (mods & dels & adds & -> & Hlmods & Hldels & Hladds & Hmods & Hdels
        & Hadds).
  pose proof (added_deleted_length _ Hchange) as Hlen.
  assert (Forall (fun r => ~ isModifiedRow r) dels) as Hdels'.
  { eapply Forall_impl; [exact Hdels|]. intros r (? & ->). simpl. tauto. }
  assert (Forall (fun r => ~ isModifiedRow r) adds) as Hadds'.
  { eapply Forall_impl; [exact Hadds|]. intros r (? & ->). simpl. tauto. }
  assert (Forall isModifiedRow mods) as Hmods'.
  { eapply Forall_impl; [exact Hmods|]. by intros r (? & ? & ->). }
  split.
  - rewrite !sum_cells_app, sum_cells_modified, !sum_cells_single by done.
    lia.
  - intros ->. unfold pairCount in Hlmods. destruct mods; [|done].
    simpl. apply Forall_app. by split.
Qed.

End ClassifierInvariants.

Section DiffRowsInvariants.
Context `{Collaborators}.
Implicit Types (run ml : list ModifiedLine.t) (lines : list DiffLine.t)
  (rows out : list SimplifiedDiffRow) (hunks : list DiffHunk.t).

Lemma getModifiedRows_classifierRow first hunks sbs en run rows :
  Forall changeLine run ->
  getModifiedRows run sbs = Ok rows ->
  Forall (classifierRow first hunks sbs en) rows.
Proof.
  intros Hchange Hrows. destruct run as [|l rest].
  { injection Hrows as <-. constructor. }
  destruct (getModifiedRows_kinds l rest sbs rows Hrows)
    as (mods & dels & adds & -> & Hlmods & _ & _ & Hmods & Hdels & Hadds).
  apply Forall_app. split; [|apply Forall_app; split].
  - unfold pairCount in Hlmods. destruct sbs.
    + eapply Forall_impl; [exact Hmods|]. by intros r (? & ? & ->).
    + destruct mods; [constructor|done].
  - eapply Forall_impl; [exact Hdels|]. by intros r (? & ->).
  - eapply Forall_impl; [exact Hadds|]. by intros r (? & ->).
Qed.

Lemma flushModifiedLines_ok_inv first hunks sbs en rows ml out :
  Forall changeLine ml ->
  flushModifiedLines rows ml sbs = Ok out ->
  exists new,
    out = rows ++ new
    /\ Forall wellFormedModifiedLine ml
    /\ sum_list_with cellsOf new = List.length ml
    /\ (sbs = false -> Forall (fun r => ~ isModifiedRow r) new)
    /\ Forall (classifierRow first hunks sbs en) new.
Proof.
  intros Hchange Hflush. unfold flushModifiedLines in Hflush.
  case_bool_decide as Hlen.
  - destruct (getModifiedRows ml sbs) as [r|] eqn:Hr; [|done].
    injection Hflush as <-. exists r. split; [done|].
    destruct (getModifiedRows_ok_wf _ _ _ Hr) as [HA HD].
    destruct (getModifiedRows_cells _ _ _ Hchange Hr) as [Hcells Hunified].
    split; [by apply changeLine_wellFormed|]. split; [done|].
    split; [done|]. by eapply getModifiedRows_classifierRow.
  - injection Hflush as <-. exists []. rewrite app_nil_r.
    destruct ml; [|simpl in Hlen; lia].
    repeat split; try done; constructor.
Qed.

(** What the walk over the lines of a hunk keeps, whenever it ends. *)
Lemma walk_ok_inv hunkIndex hunk sbs en hunks (k : nat) (first : Z) lines :
  hunks !! k = Some hunk -> hunkIndex = first + Z.of_nat k ->
  forall num rows ml out,
    Forall changeLine ml ->
    hunkLinesLoop hunkIndex hunk sbs en lines num rows ml = Ok out ->
    exists new,
      out = rows ++ new
      /\ Forall wellFormedLine lines
      /\ Forall wellFormedModifiedLine ml
      /\ sum_list_with cellsOf new = (List.length ml + List.length lines)%nat
      /\ (sbs = false -> Forall (fun r => ~ isModifiedRow r) new)
      /\ Forall (classifierRow first hunks sbs en) new.
Proof.
  intros Hhunk Hindex.
  induction lines as [|l lines IH]; intros num rows ml out Hchange Hwalk.
  - cbn [hunkLinesLoop] in Hwalk.
    destruct (flushModifiedLines_ok_inv first hunks sbs en _ _ _ Hchange
                Hwalk) as (new & -> & Hml & Hcells & Hunified & Hrows).
    exists new. rewrite Nat.add_0_r. repeat split; try done.
  - cbn [hunkLinesLoop] in Hwalk.
    destruct (DiffLine.type l) eqn:Htype.
    + destruct (flushModifiedLines rows ml sbs) as [flushed|] eqn:Hflush;
        [|done].
      bind_step_in Hwalk.
      destruct (DiffLine.oldLineNumber l) as [o|] eqn:Hold; [|done].
      destruct (DiffLine.newLineNumber l) as [n|] eqn:Hnew; [|done].
      bind_step_in Hwalk.
      destruct (flushModifiedLines_ok_inv first hunks sbs en _ _ _ Hchange
                  Hflush) as (new1 & -> & Hml & Hcells1 & Hunified1 & Hrows1).
      apply IH in Hwalk as (new2 & -> & Hlines & _ & Hcells2 & Hunified2
                            & Hrows2); [|constructor].
      exists (new1 ++ [ContextRow (DiffLine.content l) o n [] []] ++ new2).
      split; [by rewrite <- !app_assoc|].
      split.
      { constructor; [|done]. unfold wellFormedLine.
        rewrite Htype, Hold, Hnew. by eauto. }
      split; [done|].
      split.
      { rewrite !sum_list_with_app, Hcells1, Hcells2. simpl. lia. }
      split.
      { intros Hsbs. apply Forall_app. split; [by apply Hunified1|].
        apply Forall_app. split; [|by apply Hunified2].
        constructor; [|constructor]. simpl. tauto. }
      apply Forall_app. split; [done|]. apply Forall_app. split; [|done].
      constructor; [|constructor]. done.
    + apply IH in Hwalk as (new & -> & Hlines & Hml & Hcells & Hunified
                            & Hrows).
      * apply Forall_app in Hml as [Hml Hl].
        apply (proj1 (Forall_singleton _ _)) in Hl.
        exists new. split; [done|].
        split; [constructor; [exact Hl|done]|].
        split; [done|]. split; [|done].
        rewrite Hcells, length_app. simpl. lia.
      * apply Forall_app. split; [done|]. constructor; [|constructor].
        left. exact Htype.
    + apply IH in Hwalk as (new & -> & Hlines & Hml & Hcells & Hunified
                            & Hrows).
      * apply Forall_app in Hml as [Hml Hl].
        apply (proj1 (Forall_singleton _ _)) in Hl.
        exists new. split; [done|].
        split; [constructor; [exact Hl|done]|].
        split; [done|]. split; [|done].
        rewrite Hcells, length_app. simpl. lia.
      * apply Forall_app. split; [done|]. constructor; [|constructor].
        right. exact Htype.
    + destruct (flushModifiedLines rows ml sbs) as [flushed|] eqn:Hflush;
        [|done].
      bind_step_in Hwalk.
      destruct (flushModifiedLines_ok_inv first hunks sbs en _ _ _ Hchange
                  Hflush) as (new1 & -> & Hml & Hcells1 & Hunified1 & Hrows1).
      apply IH in Hwalk as (new2 & -> & Hlines & _ & Hcells2 & Hunified2
                            & Hrows2); [|constructor].
      eexists (new1 ++ [_] ++ new2).
      split; [by rewrite <- !app_assoc|].
      split.
      { constructor; [|done]. unfold wellFormedLine. by rewrite Htype. }
      split; [done|].
      split.
      { rewrite !sum_list_with_app, Hcells1, Hcells2. simpl. lia. }
      split.
      { intros Hsbs. apply Forall_app. split; [by apply Hunified1|].
        apply Forall_app. split; [|by apply Hunified2].
        constructor; [|constructor]. simpl. tauto. }
      apply Forall_app. split; [done|]. apply Forall_app. split; [|done].
      constructor; [|constructor]. simpl. by exists k, hunk.
Qed.

Lemma classifierRow_shift first hunk hunks sbs en rows :
  Forall (classifierRow (first + 1) hunks sbs en) rows ->
  Forall (classifierRow first (hunk :: hunks) sbs en) rows.
Proof.
  intros Hrows. eapply Forall_impl; [exact Hrows|].
  intros [] Hrow; try done.
  destruct Hrow as (k & h & -> & Hh & ->).
  exists (S k), h. split; [lia|done].
Qed.

(** What [getDiffRows] keeps, whenever it returns. *)
Lemma hunksLoop_ok_inv sbs en hunks : forall (first : Z) outputRows out,
  hunksLoop sbs en hunks first outputRows = Ok out ->
  exists new,
    out = outputRows ++ new
    /\ Forall (fun hunk => Forall wellFormedLine (DiffHunk.lines hunk)) hunks
    /\ sum_list_with cellsOf new
       = sum_list_with (fun hunk => List.length (DiffHunk.lines hunk)) hunks
    /\ (sbs = false -> Forall (fun r => ~ isModifiedRow r) new)
    /\ Forall (classifierRow first hunks sbs en) new.
Proof.
  induction hunks as [|hunk hunks IH]; intros first outputRows out Hloop.
  - injection Hloop as <-. exists []. rewrite app_nil_r.
    repeat split; try done; constructor.
  - cbn [hunksLoop] in Hloop.
    destruct (getDiffRowsFromHunk first hunk sbs en) as [rows|] eqn:Hrows;
      [|done].
    bind_step_in Hloop.
    unfold getDiffRowsFromHunk in Hrows.
    destruct (walk_ok_inv first hunk sbs en (hunk :: hunks) O first
                (DiffHunk.lines hunk) eq_refl ltac:(simpl; lia)
                0 [] [] rows ltac:(constructor) Hrows)
      as (new1 & -> & Hlines & _ & Hcells1 & Hunified1 & Hrows1).
    apply IH in Hloop as (new2 & -> & Hhunks & Hcells2 & Hunified2 & Hrows2).
    exists (new1 ++ new2). simpl.
    split; [by rewrite <- app_assoc|]. split; [by constructor|].
    split; [rewrite sum_list_with_app, Hcells1, Hcells2; simpl; lia|].
    split.
    { intros Hsbs. apply Forall_app. split; [by apply Hunified1|].
      by apply Hunified2. }
    apply Forall_app. split; [done|]. by apply classifierRow_shift.
Qed.

Lemma hunksLoop_total sbs en hunks : forall (first : Z) outputRows,
  Forall (fun hunk => Forall wellFormedLine (DiffHunk.lines hunk)) hunks ->
  exists out, hunksLoop sbs en hunks first outputRows = Ok out.
Proof.
  induction hunks as [|hunk hunks IH]; intros first outputRows Hwf;
    [by eexists|].
  inversion_clear Hwf as [|? ? Hhunk Hhunks]. cbn [hunksLoop].
  unfold getDiffRowsFromHunk.
  destruct (walk_total first hunk sbs en (DiffHunk.lines hunk) Hhunk 0 [] [])
    as [rows ->]; [constructor|].
  bind_step. by apply IH.
Qed.

(** X1. [getDiffRows] returns rows exactly when every line of every hunk has
    the line numbers of its type (a context line both, a deleted line the
    old one, an added line the new one); otherwise it throws, in either
    display mode and whether or not expansion is enabled. *)
Theorem getDiffRows_returns_iff_lines_well_formed (diff : ITextDiff.t)
    (sbs en : bool) :
  (exists rows, getDiffRows diff sbs en = Ok rows) <-> wellFormedDiff diff.
Proof.
  unfold getDiffRows, wellFormedDiff. split.
  - intros [rows Hrows].
    by apply hunksLoop_ok_inv in Hrows as (_ & _ & Hwf & _).
  - apply hunksLoop_total.
Qed.

Lemma deleted_added_perm run :
  Forall changeLine run -> deletedOf run ++ addedOf run ≡ₚ run.
Proof.
  unfold deletedOf, addedOf.
  induction 1 as [|x run Hx _ IH]; [done|].
  rewrite !filter_cons. unfold isAdd, isDelete.
  destruct Hx as [Hx|Hx]; rewrite Hx;
    repeat case_decide; repeat case_bool_decide; try done.
  - rewrite <- IH at 3. symmetry. apply Permutation_middle.
  - simpl. by rewrite IH.
Qed.

Lemma getDataFromLine_shownDeleted (d : ModifiedLine.t)
    (tb : option ILineTokens) data :
  isDelete d = true ->
  getDataFromLine d UseOldLineNumber tb = Ok data ->
  shownDeleted data = shownOfLine (ModifiedLine.line d).
Proof.
  intros Hd Hdata. apply bool_decide_eq_true in Hd.
  apply getDataFromLine_shows in Hdata as (Hc & Hn & Ho & He & _).
  unfold shownDeleted, shownOfLine. by rewrite Hd, Hc, Hn, Ho, He.
Qed.

Lemma getDataFromLine_shownAdded (a : ModifiedLine.t)
    (ta : option ILineTokens) data :
  isAdd a = true ->
  getDataFromLine a UseNewLineNumber ta = Ok data ->
  shownAdded data = shownOfLine (ModifiedLine.line a).
Proof.
  intros Ha Hdata. apply bool_decide_eq_true in Ha.
  apply getDataFromLine_shows in Hdata as (Hc & Hn & Ho & He & _).
  unfold shownAdded, shownOfLine. by rewrite Ha, Hc, Hn, Ho, He.
Qed.

Lemma concat_shown_Forall2 {A} (f : A -> list Shown) (xs : list A) rows :
  Forall2 (fun x r => shownOfRow r = f x) xs rows ->
  concat (shownOfRow <$> rows) = concat (f <$> xs).
Proof.
  induction 1 as [|x r xs rows Hr _ IH]; [done|].
  rewrite !fmap_cons, !concat_cons. by rewrite Hr, IH.
Qed.

Lemma concat_singletons {A B} (f : A -> B) (xs : list A) :
  concat ((fun x => [f x]) <$> xs) = f <$> xs.
Proof.
  induction xs as [|x xs IH]; [done|].
  by rewrite !fmap_cons, concat_cons, IH.
Qed.

Lemma concat_pairs {A B} (f : A -> B) (ds as_ : list A) :
  List.length ds = List.length as_ ->
  concat ((fun da : A * A => [f da.1; f da.2]) <$> zip ds as_)
  ≡ₚ (f <$> ds) ++ (f <$> as_).
Proof.
  revert as_. induction ds as [|d ds IH]; intros [|a as_] Hlen; try done.
  change (zip (d :: ds) (a :: as_)) with ((d, a) :: zip ds as_).
  rewrite !fmap_cons, concat_cons. simpl. constructor.
  rewrite IH by (simpl in Hlen; lia).
  apply Permutation_middle.
Qed.

(** The rows of a run show the lines of the run, each once. *)
Lemma getModifiedRows_shown run sbs rows :
  Forall changeLine run ->
  getModifiedRows run sbs = Ok rows ->
  concat (shownOfRow <$> rows)
  ≡ₚ shownOfBuffered <$> run.
Proof.
  intros Hchange Hrows. destruct run as [|first rest] eqn:Erun.
  { by injection Hrows as <-. }
  rewrite <- Erun in *.
  destruct (getModifiedRows_ok_wf _ _ _ Hrows) as [HwfA HwfD].
  destruct (getModifiedRows_spec run sbs first rest Erun HwfA HwfD)
    as (arrays & mods & dels & adds & _ & Hrows' & Hlmods & Hldels & Hladds
        & Hpmods & Hpdels & Hpadds).
  rewrite Hrows in Hrows'. injection Hrows' as ->.
  set (sl := shownOfBuffered).
  set (A := addedOf run) in *. set (D := deletedOf run) in *.
  set (m := pairCount sbs A D) in *.
  destruct (pairCount_le sbs A D) as [HmA HmD]. fold m in HmA, HmD.
  assert (forall d, d ∈ D -> isDelete d = true) as HD.
  { intros d Hd. by apply list_elem_of_filter in Hd as [Hd _]. }
  assert (forall a, a ∈ A -> isAdd a = true) as HA.
  { intros a Ha. by apply list_elem_of_filter in Ha as [Ha _]. }
  assert (concat (shownOfRow <$> mods)
          = concat ((fun da : ModifiedLine.t * ModifiedLine.t =>
                       [sl da.1; sl da.2]) <$> zip (take m D) (take m A)))
    as Hmods.
  { apply (concat_shown_Forall2
             (fun da : ModifiedLine.t * ModifiedLine.t => [sl da.1; sl da.2])).
    apply Forall2_same_length_lookup_2.
    - rewrite length_zip, !length_take. lia.
    - intros i [d a] r Hda Hr.
      apply lookup_zip_with_Some in Hda as (d' & a' & [= -> ->] & Hd & Ha).
      apply lookup_take_Some in Hd as [Hd Hi].
      apply lookup_take_Some in Ha as [Ha _].
      destruct (Hpmods i d' a' Hd Ha Hi)
        as (r' & Hr' & bd & ad & Hbd & Had & ->).
      assert (ModifiedRow bd ad (ModifiedLine.diffLineNumber first) = r)
        as <- by congruence.
      simpl. unfold sl, shownOfBuffered.
      rewrite (getDataFromLine_shownDeleted d' _ bd)
        by eauto using list_elem_of_lookup_2.
      by rewrite (getDataFromLine_shownAdded a' _ ad)
        by eauto using list_elem_of_lookup_2. }
  assert (concat (shownOfRow <$> dels) = sl <$> drop m D) as Hdels.
  { rewrite <- (concat_singletons sl (drop m D)).
    apply (concat_shown_Forall2 (fun x => [sl x])).
    apply Forall2_same_length_lookup_2.
    - rewrite length_drop. lia.
    - intros i d r Hd Hr. rewrite lookup_drop in Hd.
      destruct (Hpdels i d Hd) as (r' & Hr' & data & Hdata & ->).
      assert (DeletedRow data (ModifiedLine.diffLineNumber first) = r)
        as <- by congruence.
      simpl. unfold sl, shownOfBuffered.
      by rewrite (getDataFromLine_shownDeleted d _ data)
        by eauto using list_elem_of_lookup_2. }
  assert (concat (shownOfRow <$> adds) = sl <$> drop m A) as Hadds.
  { rewrite <- (concat_singletons sl (drop m A)).
    apply (concat_shown_Forall2 (fun x => [sl x])).
    apply Forall2_same_length_lookup_2.
    - rewrite length_drop. lia.
    - intros i a r Ha Hr. rewrite lookup_drop in Ha.
      destruct (Hpadds i a Ha) as (r' & Hr' & data & Hdata & ->).
      assert (AddedRow data (ModifiedLine.diffLineNumber first) = r)
        as <- by congruence.
      simpl. unfold sl, shownOfBuffered.
      by rewrite (getDataFromLine_shownAdded a _ data)
        by eauto using list_elem_of_lookup_2. }
  rewrite !fmap_app, !concat_app, Hmods, Hdels, Hadds.
  rewrite (concat_pairs sl) by (rewrite !length_take; lia).
  transitivity (sl <$> (D ++ A));
    [|apply fmap_Permutation, deleted_added_perm, Hchange].
  rewrite fmap_app.
  assert (sl <$> D = (sl <$> take m D) ++ (sl <$> drop m D)) as ->
    by by rewrite <- fmap_app, take_drop.
  assert (sl <$> A = (sl <$> take m A) ++ (sl <$> drop m A)) as ->
    by by rewrite <- fmap_app, take_drop.
  rewrite <- !app_assoc. apply Permutation_app_head.
  apply Permutation_app_swap_app.
Qed.

Lemma flushModifiedLines_shown rows ml sbs out :
  Forall changeLine ml ->
  flushModifiedLines rows ml sbs = Ok out ->
  exists new,
    out = rows ++ new
    /\ concat (shownOfRow <$> new)
       ≡ₚ shownOfBuffered <$> ml.
Proof.
  intros Hchange Hflush. unfold flushModifiedLines in Hflush.
  case_bool_decide as Hlen.
  - destruct (getModifiedRows ml sbs) as [r|] eqn:Hr; [|done].
    injection Hflush as <-. exists r. split; [done|].
    by apply (getModifiedRows_shown ml sbs).
  - injection Hflush as <-. exists []. rewrite app_nil_r.
    destruct ml; [done|simpl in Hlen; lia].
Qed.

(** The rows of the lines walked show the buffered lines and the lines
    still to walk, each once. *)
Lemma walk_shown hunkIndex hunk sbs en lines :
  forall num rows ml out,
    Forall changeLine ml ->
    hunkLinesLoop hunkIndex hunk sbs en lines num rows ml = Ok out ->
    exists new,
      out = rows ++ new
      /\ concat (shownOfRow <$> new)
         ≡ₚ (shownOfBuffered <$> ml)
            ++ (shownOfLine <$> lines).
Proof.
  induction lines as [|l lines IH]; intros num rows ml out Hchange Hwalk.
  - cbn [hunkLinesLoop] in Hwalk.
    destruct (flushModifiedLines_shown _ _ _ _ Hchange Hwalk)
      as (new & -> & Hnew).
    exists new. by rewrite app_nil_r.
  - cbn [hunkLinesLoop] in Hwalk.
    destruct (DiffLine.type l) eqn:Htype.
    + destruct (flushModifiedLines rows ml sbs) as [flushed|] eqn:Hflush;
        [|done].
      bind_step_in Hwalk.
      destruct (DiffLine.oldLineNumber l) as [o|] eqn:Hold; [|done].
      destruct (DiffLine.newLineNumber l) as [n|] eqn:Hnew; [|done].
      bind_step_in Hwalk.
      destruct (flushModifiedLines_shown _ _ _ _ Hchange Hflush)
        as (new1 & -> & Hnew1).
      apply IH in Hwalk as (new2 & -> & Hnew2); [|constructor].
      exists (new1 ++ [ContextRow (DiffLine.content l) o n [] []] ++ new2).
      split; [by rewrite <- !app_assoc|].
      rewrite !fmap_app, !concat_app, Hnew1, Hnew2. simpl.
      unfold shownOfLine at 2. by rewrite Htype, Hold, Hnew.
    + apply IH in Hwalk as (new & -> & Hnew).
      * exists new. split; [done|].
        rewrite Hnew, fmap_app, <- app_assoc. done.
      * apply Forall_app. split; [done|]. constructor; [|constructor].
        left. exact Htype.
    + apply IH in Hwalk as (new & -> & Hnew).
      * exists new. split; [done|].
        rewrite Hnew, fmap_app, <- app_assoc. done.
      * apply Forall_app. split; [done|]. constructor; [|constructor].
        right. exact Htype.
    + destruct (flushModifiedLines rows ml sbs) as [flushed|] eqn:Hflush;
        [|done].
      bind_step_in Hwalk.
      destruct (flushModifiedLines_shown _ _ _ _ Hchange Hflush)
        as (new1 & -> & Hnew1).
      apply IH in Hwalk as (new2 & -> & Hnew2); [|constructor].
      eexists (new1 ++ [_] ++ new2).
      split; [by rewrite <- !app_assoc|].
      rewrite !fmap_app, !concat_app, Hnew1, Hnew2. simpl.
      unfold shownOfLine at 2. by rewrite Htype.
Qed.

Lemma hunksLoop_shown sbs en hunks : forall (first : Z) outputRows out,
  hunksLoop sbs en hunks first outputRows = Ok out ->
  exists new,
    out = outputRows ++ new
    /\ concat (shownOfRow <$> new)
       ≡ₚ shownOfLine <$> concat (DiffHunk.lines <$> hunks).
Proof.
  induction hunks as [|hunk hunks IH]; intros first outputRows out Hloop.
  - injection Hloop as <-. exists []. by rewrite app_nil_r.
  - cbn [hunksLoop] in Hloop.
    destruct (getDiffRowsFromHunk first hunk sbs en) as [rows|] eqn:Hrows;
      [|done].
    bind_step_in Hloop.
    unfold getDiffRowsFromHunk in Hrows.
    destruct (walk_shown first hunk sbs en (DiffHunk.lines hunk) 0 [] []
                rows ltac:(constructor) Hrows) as (new1 & -> & Hnew1).
    apply IH in Hloop as (new2 & -> & Hnew2).
    exists (new1 ++ new2). split; [by rewrite <- app_assoc|].
    rewrite !fmap_app, !concat_app, Hnew1, Hnew2. simpl.
    by rewrite fmap_app.
Qed.

(** X2. Whenever [getDiffRows] returns, every line of the diff is shown
    exactly once: the lines that the rows show (one per row, two for a
    Modified row; each with its type, text, line numbers, original diff
    line number and end-of-file marker) are, up to their order, the lines
    of the hunks of the diff. So counting two lines for a Modified row and
    one for any other row gives the number of lines of the diff, and in
    unified mode, where there is no Modified row, there are as many rows as
    lines. *)
Theorem rows_show_every_line_once (diff : ITextDiff.t) (sbs en : bool)
    rows :
  getDiffRows diff sbs en = Ok rows ->
  concat (shownOfRow <$> rows) ≡ₚ shownOfDiff diff
  /\ sum_list_with cellsOf rows = lineCount diff
  /\ (sbs = false ->
      Forall (fun r => ~ isModifiedRow r) rows
      /\ List.length rows = lineCount diff).
Proof.
  unfold getDiffRows, lineCount, shownOfDiff. intros Hrows.
  destruct (hunksLoop_shown _ _ _ _ _ _ Hrows) as (shown & Hshown & Hperm).
  apply hunksLoop_ok_inv in Hrows as (new & -> & _ & Hcells & Hunified & _).
  simpl in Hshown. subst shown.
  simpl. split; [done|]. split; [done|].
  intros Hsbs. split; [by apply Hunified|].
  rewrite <- Hcells. symmetry. by apply sum_cells_single, Hunified.
Qed.

End DiffRowsInvariants.

Section HunkHeaderRows.
Context `{Collaborators} `{HostCollaborators}.

(** X3. The hunk index of every Hunk-header row addresses an existing hunk
    of the diff, the row shows that hunk's expansion type (none when the diff
    cannot be expanded), and [onExpandHunk] called with this index passes its
    range check and expands exactly that hunk. *)
Theorem hunk_header_rows_address_their_hunk (c : Component.t)
    (rows : list SimplifiedDiffRow) :
  getDiffRows (State.diff (Component.state c))
    (Props.showSideBySideDiff (Component.props c)) (canExpandDiff c)
  = Ok rows ->
  forall (r : Z) content expansionType hunkIndex (kind : DiffExpansionKind),
    array_get rows r = Some (HunkRow content expansionType hunkIndex) ->
    exists hunk,
      array_get (ITextDiff.hunks (State.diff (Component.state c))) hunkIndex
      = Some hunk
      /\ expansionType
         = (if canExpandDiff c then DiffHunk.expansionType hunk
            else DiffHunkExpansionType.None)
      /\ onExpandHunk c hunkIndex kind = expandHunk c (Some hunk) kind.
Proof.
  unfold getDiffRows. intros Hrows r content e i kind Hrow.
  apply hunksLoop_ok_inv in Hrows as (new & -> & _ & _ & _ & Hclass).
  simpl in Hrow. unfold array_get in Hrow. case_decide; [done|].
  apply list_elem_of_lookup_2 in Hrow.
  rewrite Forall_forall in Hclass.
  destruct (Hclass _ Hrow) as (k & hunk & -> & Hhunk & ->).
  pose proof (lookup_lt_Some _ _ _ Hhunk) as Hk.
  assert (array_get (ITextDiff.hunks (State.diff (Component.state c)))
            (0 + Z.of_nat k) = Some hunk) as Hget.
  { unfold array_get. rewrite decide_False by lia.
    by rewrite Z.add_0_l, Nat2Z.id. }
  exists hunk. split; [done|]. split; [done|].
  unfold onExpandHunk. rewrite Hget.
  rewrite bool_decide_eq_false_2 by lia.
  rewrite bool_decide_eq_false_2 by lia. done.
Qed.

End HunkHeaderRows.

Section SearchOrder.
Context `{Collaborators}.
Implicit Types (q content : string).

Lemma matchAllFrom_sorted q content : forall (index : Z) (skip : nat),
  StronglySorted (fun a b : Z * Z => a.1 + a.2 <= b.1)
    (matchAllFrom q content index skip)
  /\ Forall (fun a : Z * Z => index + Z.of_nat skip <= a.1)
       (matchAllFrom q content index skip).
Proof.
  induction content as [|ch content IH]; intros index skip.
  - split; constructor.
  - cbn [matchAllFrom]. destruct skip as [|skip].
    + destruct (matchesAt q (String ch content)).
      * destruct (IH (index + 1) (String.length q - 1)%nat) as [Hs Hge].
        split.
        -- constructor; [done|]. eapply Forall_impl; [exact Hge|].
           intros [o l] Ho. simpl in *. unfold strlen. lia.
        -- constructor; [simpl; lia|]. eapply Forall_impl; [exact Hge|].
           intros [o l] Ho. simpl in *. lia.
      * destruct (IH (index + 1) O) as [Hs Hge]. split; [done|].
        eapply Forall_impl; [exact Hge|]. intros [o l] Ho. simpl in *. lia.
    + destruct (IH (index + 1) skip) as [Hs Hge]. split; [done|].
      eapply Forall_impl; [exact Hge|]. intros [o l] Ho. simpl in *. lia.
Qed.

Lemma hitsOfCell_sorted q (r : Z) (cell : DiffColumn.t * string) :
  StronglySorted hitBefore (hitsOfCell q r cell).
Proof.
  unfold hitsOfCell, matchAll.
  destruct (matchAllFrom_sorted q cell.2 0 O) as [Hs _].
  induction Hs as [|m ms _ IH Hm]; [constructor|].
  rewrite fmap_cons. constructor; [done|].
  rewrite Forall_fmap. eapply Forall_impl; [exact Hm|].
  intros m' Hmm. right. simpl. split; [done|]. right. done.
Qed.

Lemma cellsToScan_shapes (row : SimplifiedDiffRow) (sbs : bool) :
  cellsToScan row sbs = []
  \/ (exists cell, cellsToScan row sbs = [cell])
  \/ (exists s1 s2,
        cellsToScan row sbs
        = [(DiffColumn.Before, s1); (DiffColumn.After, s2)]).
Proof. destruct row, sbs; simpl; eauto. Qed.

Lemma hitsOfCell_row_column q (r : Z) (cell : DiffColumn.t * string) :
  Forall (fun h => h.1.1.1 = r /\ h.1.1.2 = cell.1) (hitsOfCell q r cell).
Proof.
  unfold hitsOfCell. rewrite Forall_fmap. by apply Forall_true.
Qed.

Lemma hitsOfCells_sorted q (r : Z) (row : SimplifiedDiffRow) (sbs : bool) :
  StronglySorted hitBefore
    (concat (hitsOfCell q r <$> cellsToScan row sbs)).
Proof.
  destruct (cellsToScan_shapes row sbs) as [->|[[cell ->]|(s1 & s2 & ->)]].
  - constructor.
  - simpl. rewrite app_nil_r. apply hitsOfCell_sorted.
  - simpl. rewrite app_nil_r. apply StronglySorted_app.
    split; [|split; apply hitsOfCell_sorted].
    intros h1 h2 Hh1 Hh2.
    pose proof (hitsOfCell_row_column q r (DiffColumn.Before, s1)) as H1.
    pose proof (hitsOfCell_row_column q r (DiffColumn.After, s2)) as H2.
    rewrite Forall_forall in H1, H2.
    destruct (H1 _ Hh1) as [Hr1 Hc1]. destruct (H2 _ Hh2) as [Hr2 Hc2].
    right. split; [congruence|]. left. rewrite Hc1, Hc2. simpl. lia.
Qed.

Lemma hitsOfRows_sorted q (sbs : bool) (rows : list SimplifiedDiffRow) :
  forall first : Z, StronglySorted hitBefore (hitsOfRows q sbs first rows).
Proof.
  induction rows as [|row rows IH]; intros first; [constructor|].
  rewrite hitsOfRows_cons. apply StronglySorted_app.
  split; [|split; [apply hitsOfCells_sorted|apply IH]].
  intros h1 h2 Hh1 Hh2.
  apply elem_of_hitsOfCells in Hh1 as (c1 & s1 & o1 & l1 & -> & _).
  apply elem_of_hitsOfRows
    in Hh2 as (i & row2 & c2 & s2 & o2 & l2 & -> & _).
  left. simpl. lia.
Qed.

(** X4. The hits of a search are in the order of the scan: by row, within a
    row the before column first, within a cell by offset, and a hit ends
    before the next hit of its cell starts (hits never overlap). *)
Theorem search_hits_are_ordered_and_disjoint (diff : ITextDiff.t)
    (sbs : bool) q (en : bool) (sr : SearchResults.t) :
  calcSearchTokens diff sbs q en = Ok (Some sr) ->
  StronglySorted hitBefore (SearchResults.hits sr).
Proof.
  unfold calcSearchTokens. case_bool_decide; [done|].
  destruct (getDiffRows diff sbs en) as [rows|]; [|done]. bind_step.
  intros [= <-]. rewrite hits_searchRowsLoop. apply hitsOfRows_sorted.
Qed.

End SearchOrder.

Section SearchIndexes.
Context `{Collaborators}.
Implicit Types (q content : string) (sr : SearchResults.t).

Lemma indexesAgree_empty (L : Z) : indexesAgree L SearchResults.empty.
Proof.
  split; [|split].
  - intros r c o l Hin. by apply elem_of_nil in Hin.
  - intros r c lt o tok Hlt. simpl in Hlt. by rewrite lookup_empty in Hlt.
  - intros key lt Hlt. simpl in Hlt. by rewrite lookup_empty in Hlt.
Qed.

Lemma lookup_add sr (r : Z) (c : DiffColumn.t) (o l : Z) :
  SearchResults.lookup (SearchResults.add sr r c o l)
  = <[(r, c) := <[o := IToken.mk l "search-result"]>
                  (default ∅ (SearchResults.lookup sr !! (r, c)))]>
      (SearchResults.lookup sr).
Proof.
  unfold SearchResults.add. cbn [SearchResults.lookup].
  by destruct (SearchResults.lookup sr !! (r, c)).
Qed.

Lemma hits_add sr (r : Z) (c : DiffColumn.t) (o l : Z) :
  SearchResults.hits (SearchResults.add sr r c o l)
  = SearchResults.hits sr ++ [(r, c, o, l)].
Proof. done. Qed.

Lemma indexesAgree_add (L : Z) sr (r : Z) (c : DiffColumn.t) (o : Z) :
  indexesAgree L sr -> indexesAgree L (SearchResults.add sr r c o L).
Proof.
  intros (Hhits & Htable & Hne). unfold indexesAgree.
  rewrite lookup_add, hits_add. fold (searchToken L).
  split; [|split].
  - intros r' c' o' l' Hin.
    apply elem_of_app in Hin as [Hold|Hnew].
    + destruct (Hhits r' c' o' l' Hold) as (-> & lt & Hlt & Ho').
      split; [done|].
      destruct (decide ((r, c) = (r', c'))) as [[= <- <-]|Hkey].
      * rewrite lookup_insert_eq, Hlt. eexists. split; [done|]. simpl.
        destruct (decide (o = o')) as [<-|Hoo].
        -- by rewrite lookup_insert_eq.
        -- by rewrite lookup_insert_ne.
      * exists lt. by rewrite lookup_insert_ne.
    + apply list_elem_of_singleton in Hnew as [= -> -> -> ->].
      split; [done|]. rewrite lookup_insert_eq. eexists. split; [done|].
      by rewrite lookup_insert_eq.
  - intros r' c' lt o' tok Hlt Htok.
    destruct (decide ((r, c) = (r', c'))) as [[= <- <-]|Hkey].
    + rewrite lookup_insert_eq in Hlt. injection Hlt as <-.
      destruct (decide (o = o')) as [<-|Hoo].
      * rewrite lookup_insert_eq in Htok. injection Htok as <-.
        split; [done|]. apply elem_of_app. right. by left.
      * rewrite lookup_insert_ne in Htok by done.
        destruct (SearchResults.lookup sr !! (r, c)) as [existing|] eqn:Hex;
          simpl in Htok; [|by rewrite lookup_empty in Htok].
        destruct (Htable r c existing o' tok Hex Htok) as [-> Hin].
        split; [done|]. apply elem_of_app. by left.
    + rewrite lookup_insert_ne in Hlt by done.
      destruct (Htable r' c' lt o' tok Hlt Htok) as [-> Hin].
      split; [done|]. apply elem_of_app. by left.
  - intros key lt Hlt.
    destruct (decide ((r, c) = key)) as [<-|Hkey].
    + rewrite lookup_insert_eq in Hlt. injection Hlt as <-.
      apply insert_non_empty.
    + rewrite lookup_insert_ne in Hlt by done. by apply (Hne key).
Qed.

Lemma matchAllFrom_lengths q content : forall (index : Z) (skip : nat),
  Forall (fun m : Z * Z => m.2 = strlen q)
    (matchAllFrom q content index skip).
Proof.
  induction content as [|ch content IH]; intros index skip; [constructor|].
  cbn [matchAllFrom]. destruct skip; [|by apply IH].
  destruct (matchesAt q (String ch content)); [|by apply IH].
  constructor; [done|apply IH].
Qed.

Lemma indexesAgree_addMatches (L : Z) (matches : list (Z * Z)) :
  Forall (fun m : Z * Z => m.2 = L) matches ->
  forall sr (r : Z) (c : DiffColumn.t),
    indexesAgree L sr -> indexesAgree L (addMatches sr r c matches).
Proof.
  induction 1 as [|[o l] matches Hl _ IH]; intros sr r c Hsr; [done|].
  simpl in Hl. subst l. apply IH. by apply indexesAgree_add.
Qed.

Lemma indexesAgree_addColumns q (columns : list (DiffColumn.t * string)) :
  forall sr (r : Z),
    indexesAgree (strlen q) sr ->
    indexesAgree (strlen q) (addColumns q sr r columns).
Proof.
  induction columns as [|col columns IH]; intros sr r Hsr; [done|].
  apply IH. apply indexesAgree_addMatches; [|done].
  apply matchAllFrom_lengths.
Qed.

Lemma indexesAgree_searchRowsLoop (sbs : bool) q
    (rows : list SimplifiedDiffRow) :
  forall (r : Z) sr,
    indexesAgree (strlen q) sr ->
    indexesAgree (strlen q) (searchRowsLoop sbs q rows r sr).
Proof.
  induction rows as [|row rows IH]; intros r sr Hsr; [done|].
  cbn [searchRowsLoop]. apply IH.
  destruct row; try done; by apply indexesAgree_addColumns.
Qed.

Lemma calcSearchTokens_indexesAgree (diff : ITextDiff.t) (sbs : bool) q
    (en : bool) sr :
  calcSearchTokens diff sbs q en = Ok (Some sr) ->
  indexesAgree (strlen q) sr.
Proof.
  unfold calcSearchTokens. case_bool_decide; [done|].
  destruct (getDiffRows diff sbs en) as [rows|]; [|done]. bind_step.
  intros [= <-]. apply indexesAgree_searchRowsLoop, indexesAgree_empty.
Qed.

(** X5. The two indexes of the results of a search agree: a cell has the
    search token at an offset exactly when the hit list has a hit of that
    cell at that offset, every token of the lookup table is a search token of
    the length of the query, and a cell has a table exactly when it has a
    hit. *)
Theorem search_lookup_table_agrees_with_hit_list (diff : ITextDiff.t)
    (sbs : bool) q (en : bool) sr :
  calcSearchTokens diff sbs q en = Ok (Some sr) ->
  forall (row : Z) (column : DiffColumn.t),
    (forall offset,
       (exists length,
          (row, column, offset, length) ∈ SearchResults.hits sr)
       <-> exists lineTokens,
             SearchResults.getLineTokens sr row column = Some lineTokens
             /\ lineTokens !! offset
                = Some (IToken.mk (strlen q) "search-result"))
    /\ (forall lineTokens offset token,
          SearchResults.getLineTokens sr row column = Some lineTokens ->
          lineTokens !! offset = Some token ->
          token = IToken.mk (strlen q) "search-result")
    /\ (SearchResults.getLineTokens sr row column = None
        <-> forall offset length,
              (row, column, offset, length) ∉ SearchResults.hits sr).
Proof.
  intros Hcalc row column.
  destruct (calcSearchTokens_indexesAgree _ _ _ _ _ Hcalc)
    as (Hhits & Htable & Hne).
  unfold SearchResults.getLineTokens. split; [|split].
  - intros offset. split.
    + intros [l Hin]. by destruct (Hhits _ _ _ _ Hin) as (_ & lt & ? & ?);
        exists lt.
    + intros (lt & Hlt & Htok). exists (strlen q).
      by destruct (Htable _ _ _ _ _ Hlt Htok).
  - intros lt offset token Hlt Htok.
    by destruct (Htable _ _ _ _ _ Hlt Htok).
  - split.
    + intros Hnone offset l Hin.
      destruct (Hhits _ _ _ _ Hin) as (_ & lt & Hlt & _). congruence.
    + intros Hnohit.
      destruct (SearchResults.lookup sr !! (row, column)) as [lt|] eqn:Hlt;
        [|done].
      exfalso. pose proof (Hne _ _ Hlt) as Hnonempty.
      apply map_choose in Hnonempty as (offset & token & Htok).
      destruct (Htable _ _ _ _ _ Hlt Htok) as [_ Hin].
      by apply (Hnohit offset (strlen q)).
Qed.

(** X6. Adding a hit to search results is an insert that look-ups read
    back: the hit becomes the last of the sequence and leaves the earlier
    ones in place, its token is in the table of its cell at its offset, and
    the tables of other cells and the tokens at other offsets are as
    before; an index outside the sequence addresses no hit. *)
Theorem search_results_add_then_lookup sr (r : Z) (c : DiffColumn.t)
    (o l : Z) :
  SearchResults.length (SearchResults.add sr r c o l)
  = SearchResults.length sr + 1
  /\ SearchResults.get (SearchResults.add sr r c o l)
       (SearchResults.length sr)
     = Some (Hit.mk r c o l)
  /\ (forall i, 0 <= i < SearchResults.length sr ->
        SearchResults.get (SearchResults.add sr r c o l) i
        = SearchResults.get sr i)
  /\ (forall i, i < 0 \/ SearchResults.length sr <= i ->
        SearchResults.get sr i = None)
  /\ (exists lineTokens,
        SearchResults.getLineTokens (SearchResults.add sr r c o l) r c
        = Some lineTokens
        /\ lineTokens !! o = Some (IToken.mk l "search-result")
        /\ forall o', o' <> o ->
             lineTokens !! o'
             = match SearchResults.getLineTokens sr r c with
               | Some before => before !! o'
               | None => None
               end)
  /\ (forall r' c', (r', c') <> (r, c) ->
        SearchResults.getLineTokens (SearchResults.add sr r c o l) r' c'
        = SearchResults.getLineTokens sr r' c').
Proof.
  unfold SearchResults.length, SearchResults.get, SearchResults.getLineTokens.
  rewrite lookup_add, hits_add. unfold array_get.
  split; [rewrite length_app; simpl; lia|].
  split.
  { rewrite decide_False by lia. rewrite Nat2Z.id.
    rewrite lookup_app_r by lia. by rewrite Nat.sub_diag. }
  split.
  { intros i Hi. rewrite !decide_False by lia.
    rewrite lookup_app_l by lia. done. }
  split.
  { intros i [Hi|Hi]; [by rewrite decide_True by lia|].
    rewrite decide_False by lia.
    rewrite (proj2 (lookup_ge_None _ _)) by lia. done. }
  split.
  { rewrite lookup_insert_eq. eexists. split; [done|].
    split; [by rewrite lookup_insert_eq|].
    intros o' Ho'. rewrite lookup_insert_ne by done.
    by destruct (SearchResults.lookup sr !! (r, c)). }
  intros r' c' Hkey. by rewrite lookup_insert_ne.
Qed.

End SearchIndexes.

Section SearchCase.
Context `{Collaborators}.
Implicit Types (q content : string).

Lemma foldCase_length q : forall q',
  foldCase q = foldCase q' -> String.length q = String.length q'.
Proof.
  induction q as [|a q IH]; intros [|b q'] Hfold; try done.
  simpl in Hfold. injection Hfold as _ Hfold. simpl. f_equal. by apply IH.
Qed.

Lemma matchesAt_query_case q : forall q' content,
  foldCase q = foldCase q' -> matchesAt q content = matchesAt q' content.
Proof.
  induction q as [|a q IH]; intros [|b q'] content Hfold; try done.
  simpl in Hfold. injection Hfold as Hab Hfold.
  destruct content as [|ch content]; [done|]. simpl.
  rewrite Hab. f_equal. by apply IH.
Qed.

Lemma matchesAt_content_case q : forall content content',
  foldCase content = foldCase content' ->
  matchesAt q content = matchesAt q content'.
Proof.
  induction q as [|a q IH]; intros content content' Hfold; [done|].
  destruct content as [|ch content], content' as [|ch' content'];
    try done.
  simpl in Hfold. injection Hfold as Hch Hfold. simpl.
  rewrite Hch. f_equal. by apply IH.
Qed.

Lemma matchAllFrom_case q q' content : forall content' (index : Z)
    (skip : nat),
  foldCase q = foldCase q' ->
  foldCase content = foldCase content' ->
  matchAllFrom q content index skip = matchAllFrom q' content' index skip.
Proof.
  induction content as [|ch content IH];
    intros [|ch' content'] index skip Hq Hcontent; try done.
  pose proof Hcontent as Hwhole.
  simpl in Hcontent. injection Hcontent as _ Hcontent.
  cbn [matchAllFrom]. destruct skip; [|by apply IH].
  rewrite (matchesAt_query_case q q' _ Hq).
  rewrite (matchesAt_content_case q' _ _ Hwhole).
  unfold strlen. rewrite (foldCase_length q q' Hq).
  destruct (matchesAt q' (String ch' content')).
  - f_equal. by apply IH.
  - by apply IH.
Qed.

Lemma searchRowsLoop_case (sbs : bool) q q'
    (rows : list SimplifiedDiffRow) :
  foldCase q = foldCase q' ->
  forall (r : Z) sr,
    searchRowsLoop sbs q rows r sr = searchRowsLoop sbs q' rows r sr.
Proof.
  intros Hq. induction rows as [|row rows IH]; intros r sr; [done|].
  cbn [searchRowsLoop]. rewrite IH. f_equal.
  assert (forall columns sr',
    addColumns q sr' r columns = addColumns q' sr' r columns) as Hcolumns.
  { unfold addColumns.
    induction columns as [|col columns IHc]; intros sr'; [done|].
    cbn [foldl]. rewrite IHc. do 2 f_equal.
    by apply matchAllFrom_case. }
  destruct row; try done; apply Hcolumns.
Qed.

Lemma calcSearchTokens_case (diff : ITextDiff.t) (sbs : bool) q q'
    (en : bool) :
  foldCase q = foldCase q' ->
  calcSearchTokens diff sbs q en = calcSearchTokens diff sbs q' en.
Proof.
  intros Hq. unfold calcSearchTokens, strlen.
  rewrite (foldCase_length q q' Hq). case_bool_decide; [done|].
  destruct (getDiffRows diff sbs en) as [rows|]; [|done]. bind_step.
  by rewrite (searchRowsLoop_case sbs q q' rows Hq).
Qed.

(** X8. The query of a running search is compared exactly, not up to case:
    searching again with a query that differs from the stored one only in
    case does not move to the next hit, it starts over at the first hit of
    the very same results (here the stored results are those of the stored
    query on the current diff). *)
Theorem case_changed_query_restarts_at_first_hit (c : Component.t) q q'
    (d : Direction) (sr : SearchResults.t) :
  State.searchQuery (Component.state c) = Some q ->
  State.searchResults (Component.state c) = Some sr ->
  calcSearchTokens (State.diff (Component.state c))
    (Props.showSideBySideDiff (Component.props c)) q (canExpandDiff c)
  = Ok (Some sr) ->
  SearchResults.length sr <> 0 ->
  q' <> q ->
  foldCase q' = foldCase q ->
  onSearch c q' d = Ok (finishSearch c q' sr 0).
Proof.
  intros Hq Hsr Hcalc Hlen Hne Hfold. unfold onSearch. rewrite Hsr, Hq.
  rewrite bool_decide_eq_false_2 by congruence.
  unfold restartSearch. rewrite (calcSearchTokens_case _ _ q' q _ Hfold).
  rewrite Hcalc. bind_step. by rewrite bool_decide_eq_false_2.
Qed.

End SearchCase.

Section SearchState.
Context `{Collaborators}.
Implicit Types (q : string) (c : Component.t) (sr : SearchResults.t).

Lemma get_in_range sr (i : Z) :
  0 <= i < SearchResults.length sr ->
  exists hit, SearchResults.get sr i = Some hit.
Proof.
  unfold SearchResults.length, SearchResults.get, array_get. intros Hi.
  rewrite decide_False by lia.
  destruct (lookup_lt_is_Some_2 (SearchResults.hits sr) (Z.to_nat i))
    as [[[[r col] o] l] Hhit]; [lia|].
  rewrite Hhit. eauto.
Qed.

Lemma searchStateOk_reset c (b : bool) :
  searchStateOk (Component.state (resetSearch c b)).
Proof. done. Qed.

Lemma restartSearch_ok c q c' scroll :
  restartSearch c q = Ok (c', scroll) ->
  (c' = resetSearch c true /\ scroll = None)
  \/ exists sr,
       calcSearchTokens (State.diff (Component.state c))
         (Props.showSideBySideDiff (Component.props c)) q (canExpandDiff c)
       = Ok (Some sr)
       /\ 0 < SearchResults.length sr /\ q <> EmptyString
       /\ (c', scroll) = finishSearch c q sr 0.
Proof.
  unfold restartSearch.
  destruct (calcSearchTokens _ _ q _) as [[sr|]|] eqn:Hcalc; bind_step;
    [|intros [= <- <-]; by left|done].
  case_bool_decide as Hlen; [intros [= <- <-]; by left|].
  intros [= <- <-]. right. exists sr. split; [done|].
  split; [unfold SearchResults.length in *; lia|]. split; [|done].
  intros ->. unfold calcSearchTokens in Hcalc.
  by rewrite bool_decide_eq_true_2 in Hcalc.
Qed.

Lemma finishSearch_ok c q sr (i : Z) :
  consistent sr -> q <> EmptyString -> 0 <= i < SearchResults.length sr ->
  searchStateOk (Component.state (finishSearch c q sr i).1)
  /\ exists hit,
       SearchResults.get sr i = Some hit
       /\ (finishSearch c q sr i).2 = Some (Hit.row hit).
Proof.
  intros Hcons Hq Hi. split.
  - unfold searchStateOk. simpl. split; [done|]. by exists q, i.
  - destruct (get_in_range sr i Hi) as [hit Hhit]. exists hit.
    split; [done|]. unfold finishSearch. simpl. by rewrite Hhit.
Qed.

(** X9. The handlers of the search session keep the search fields of the
    state coherent: when they are coherent before, they are after a search
    step that returns, after a cancel and after opening the search; a step
    that leaves results selects one of their hits, scrolls to the row of
    that hit and stores the query it was given; a step that leaves no
    results scrolls nowhere and keeps the search open. *)
Theorem search_handlers_keep_state_coherent c q (d : Direction)
    (c' : Component.t) (scroll : option Z) :
  searchStateOk (Component.state c) ->
  onSearch c q d = Ok (c', scroll) ->
  searchStateOk (Component.state c')
  /\ match State.searchResults (Component.state c') with
     | Some sr =>
         exists i hit,
           State.selectedSearchResult (Component.state c') = Some i
           /\ SearchResults.get sr i = Some hit
           /\ scroll = Some (Hit.row hit)
           /\ State.searchQuery (Component.state c') = Some q
     | None =>
         scroll = None /\ State.isSearching (Component.state c') = true
     end
  /\ searchStateOk (Component.state (onSearchCancel c))
  /\ searchStateOk (Component.state (showSearch c)).
Proof.
  intros Hok Hsearch.
  assert (searchStateOk (Component.state (showSearch c))) as Hshow.
  { unfold showSearch. by destruct (negb _). }
  match goal with
  | |- ?A /\ ?B /\ _ =>
      enough (A /\ B) as [HA HB]
        by (split; [exact HA|split; [exact HB|split; [done|exact Hshow]]])
  end.
  set (post := fun (c' : Component.t) (scroll : option Z) =>
    searchStateOk (Component.state c')
    /\ match State.searchResults (Component.state c') with
       | Some sr =>
           exists i hit,
             State.selectedSearchResult (Component.state c') = Some i
             /\ SearchResults.get sr i = Some hit
             /\ scroll = Some (Hit.row hit)
             /\ State.searchQuery (Component.state c') = Some q
       | None =>
           scroll = None /\ State.isSearching (Component.state c') = true
       end).
  change (post c' scroll).
  assert (forall sr i, consistent sr -> q <> EmptyString ->
            0 <= i < SearchResults.length sr ->
            finishSearch c q sr i = (c', scroll) ->
            post c' scroll) as Hfinish.
  { intros sr i Hcons Hq Hi Heq.
    destruct (finishSearch_ok c q sr i Hcons Hq Hi) as (Hst & hit & Hhit & Hs).
    rewrite Heq in Hst, Hs. simpl in Hst, Hs. split; [done|].
    unfold finishSearch in Heq. injection Heq as <- _. simpl.
    by exists i, hit. }
  assert (restartSearch c q = Ok (c', scroll) -> post c' scroll)
    as Hrestart.
  { intros Hr. apply restartSearch_ok in Hr
      as [[-> ->]|(sr & Hcalc & Hlen & Hq & Heq)]; [done|].
    apply (Hfinish sr 0); [|done|lia|done].
    eapply calcSearchTokens_consistent. exact Hcalc. }
  unfold onSearch in Hsearch. unfold searchStateOk in Hok.
  destruct (State.searchResults (Component.state c)) as [sr|] eqn:Hsr;
    [|by apply Hrestart].
  destruct Hok as (Hcons & query & i & Hquery & Hne & Hsel & Hi).
  rewrite Hquery, Hsel in Hsearch.
  case_bool_decide as Hsame; [|by apply Hrestart].
  injection Hsame as ->.
  eapply Hfinish; [exact Hcons|exact Hne| |]; cycle 1.
  - injection Hsearch as <- <-. reflexivity.
  - apply Z.rem_bound_pos; destruct d; lia.
Qed.

(** X10. An empty query ends the search results whatever the diff is: the
    search itself returns nothing without looking at the rows (so also for
    a diff whose lines are not well formed), and in a coherent state
    searching for the empty query clears query, results and selected hit
    and leaves the search open. *)
Theorem empty_query_clears_the_search c (d : Direction) :
  searchStateOk (Component.state c) ->
  (forall (diff : ITextDiff.t) (sbs en : bool),
     calcSearchTokens diff sbs EmptyString en = Ok None)
  /\ onSearch c EmptyString d = Ok (resetSearch c true, None).
Proof.
  intros Hok. split; [done|].
  unfold onSearch. unfold searchStateOk in Hok.
  destruct (State.searchResults (Component.state c)) as [sr|]; [|done].
  destruct Hok as (_ & query & i & -> & Hne & _).
  rewrite bool_decide_eq_false_2; [done|]. congruence.
Qed.

(** X11. The token of the selected hit is shown in at most one cell. The
    search tokens of a cell are one table or two, never more; they are two
    exactly when the selected index addresses a hit of this very cell of
    whose offset the table of the cell has a token, and then the first is
    the table of the cell and the second is the one "selected" token at
    the offset and of the length of that hit; so two cells that both carry
    a second table are the same cell. *)
Theorem selected_hit_token_in_at_most_one_cell c (row row' : Z)
    (column column' : DiffColumn.t) :
  (forall first second,
     getSearchTokens c row column = Some [first; second]
     <-> exists sr k hit,
           State.searchResults (Component.state c) = Some sr
           /\ State.selectedSearchResult (Component.state c) = Some k
           /\ SearchResults.get sr k = Some hit
           /\ Hit.row hit = row /\ Hit.column hit = column
           /\ SearchResults.getLineTokens sr row column = Some first
           /\ is_Some (first !! Hit.offset hit)
           /\ second = {[ Hit.offset hit :=
                            IToken.mk (Hit.length hit) "selected" ]})
  /\ (forall tables,
        getSearchTokens c row column = Some tables ->
        (exists first, tables = [first])
        \/ exists first second, tables = [first; second])
  /\ (forall first second first' second',
        getSearchTokens c row column = Some [first; second] ->
        getSearchTokens c row' column' = Some [first'; second'] ->
        row = row' /\ column = column' /\ second = second').
Proof.
  assert (forall r col first second,
            getSearchTokens c r col = Some [first; second]
            <-> exists sr k hit,
                  State.searchResults (Component.state c) = Some sr
                  /\ State.selectedSearchResult (Component.state c) = Some k
                  /\ SearchResults.get sr k = Some hit
                  /\ Hit.row hit = r /\ Hit.column hit = col
                  /\ SearchResults.getLineTokens sr r col = Some first
                  /\ is_Some (first !! Hit.offset hit)
                  /\ second = {[ Hit.offset hit :=
                                   IToken.mk (Hit.length hit) "selected" ]})
    as Hsecond.
  { intros r col first second. unfold getSearchTokens. split.
    - destruct (State.searchResults _) as [sr|]; [|done].
      destruct (SearchResults.getLineTokens sr r col) as [lt|] eqn:Hlt;
        [|done].
      destruct (State.selectedSearchResult _) as [k|]; [|done].
      destruct (SearchResults.get sr k) as [hit|] eqn:Hhit; [|done].
      repeat case_bool_decide; simpl; try done.
      destruct (lt !! Hit.offset hit) eqn:Htok; [|done].
      intros [= <- <-]. exists sr, k, hit.
      split; [done|]. split; [done|]. split; [done|]. split; [done|].
      split; [done|]. split; [done|]. split; [by eexists|done].
    - intros (sr & k & hit & -> & -> & Hhit & <- & <- & Hlt & [tok Htok]
              & ->).
      rewrite Hlt, Hhit, !bool_decide_eq_true_2 by done. simpl.
      by rewrite Htok. }
  split; [apply Hsecond|]. split.
  - intros tables. unfold getSearchTokens.
    repeat (case_match; try done); intros [= <-]; eauto.
  - intros first second first' second' Hg Hg'.
    apply Hsecond in Hg
      as (sr & k & hit & Hsr & Hk & Hhit & <- & <- & _ & _ & ->).
    apply Hsecond in Hg'
      as (sr' & k' & hit' & Hsr' & Hk' & Hhit' & <- & <- & _ & _ & ->).
    rewrite Hsr in Hsr'. injection Hsr' as <-.
    rewrite Hk in Hk'. injection Hk' as <-.
    rewrite Hhit in Hhit'. by injection Hhit' as <-.
Qed.

End SearchState.

Section DragSelection.
Context `{Collaborators}.
Implicit Types (c : Component.t) (drag : ISelection.t).

Lemma applyLines_isSelected (b : bool) (lines : list Z) :
  lawfulSelection ->
  forall (selection : DiffSelection) (l : Z),
    isSelected (applyLines b selection lines) l
    = if bool_decide (l ∈ lines) then b else isSelected selection l.
Proof.
  intros [Hsame Hother]. unfold applyLines.
  induction lines as [|x lines IH]; intros selection l; [done|].
  cbn [foldl]. rewrite IH.
  destruct (decide (l = x)) as [->|Hne].
  - rewrite Hsame. rewrite (bool_decide_eq_true_2 (x ∈ x :: lines))
      by apply list_elem_of_here.
    by destruct (bool_decide (x ∈ lines)).
  - rewrite Hother by done.
    apply (f_equal (fun t : bool => if t then b else isSelected selection l)).
    apply bool_decide_ext. rewrite elem_of_cons. tauto.
Qed.

Lemma endSelectionLoop_lines c rows fromColumn toColumn (b : bool) :
  getDiffRows (State.diff (Component.state c))
    (Props.showSideBySideDiff (Component.props c)) (canExpandDiff c)
  = Ok rows ->
  forall (n : nat) (r : Z) (selection : DiffSelection),
    endSelectionLoop c fromColumn toColumn b n r selection
    = Ok (applyLines b selection
            (concat (lineNumbersOfRow rows fromColumn toColumn
                       <$> seqZ r (Z.of_nat n)))).
Proof.
  intros Hrows. induction n as [|n IH]; intros r selection; [done|].
  cbn [endSelectionLoop].
  rewrite (endSelectionStep_rows c rows) by done. bind_step.
  rewrite IH. f_equal.
  rewrite (seqZ_cons r) by lia.
  replace (Z.pred (Z.of_nat (S n))) with (Z.of_nat n) by lia.
  replace (Z.succ r) with (r + 1) by lia.
  unfold applyLines. by rewrite fmap_cons, concat_cons, foldl_app.
Qed.

Lemma onEndSelection_lines c rows (selection : DiffSelection) drag :
  getDiffRows (State.diff (Component.state c))
    (Props.showSideBySideDiff (Component.props c)) (canExpandDiff c)
  = Ok rows ->
  getSelection c = Some selection ->
  State.temporarySelection (Component.state c) = Some drag ->
  onEndSelection c
  = Ok (setState c (withTemporarySelection (Component.state c) None),
        Some (applyLines (ISelection.isSelected drag) selection
                (releasedLines rows drag))).
Proof.
  intros Hrows Hsel Hdrag. unfold onEndSelection. rewrite Hsel, Hdrag.
  cbv zeta. rewrite (endSelectionLoop_lines c rows) by done. bind_step.
  unfold releasedLines. cbv zeta. rewrite Z2Nat.id by lia. done.
Qed.

Lemma elem_of_concat {A} (x : A) (l : list A) (ls : list (list A)) :
  x ∈ l -> l ∈ ls -> x ∈ concat ls.
Proof.
  intros Hx Hl. apply list_elem_of_In, in_concat. exists l.
  by rewrite <- !list_elem_of_In.
Qed.

Lemma elem_of_releasedLines rows drag (r l : Z) :
  Z.min (ISelectionPoint.row (ISelection.from drag))
        (ISelectionPoint.row (ISelection.to drag)) <= r
  <= Z.max (ISelectionPoint.row (ISelection.from drag))
           (ISelectionPoint.row (ISelection.to drag)) ->
  l ∈ lineNumbersOfRow rows
        (ISelectionPoint.column (ISelection.from drag))
        (ISelectionPoint.column (ISelection.to drag)) r ->
  l ∈ releasedLines rows drag.
Proof.
  intros Hr Hl. unfold releasedLines. cbv zeta.
  apply (elem_of_concat _ _ _ Hl).
  apply list_elem_of_fmap. exists r. split; [done|].
  apply elem_of_seqZ. lia.
Qed.

(** X12. With a selection model that obeys its laws, releasing a drag gives
    the selection in which exactly the diff lines of the rows of the range
    have the flag of the drag, and every other line is as it was; the drag
    is over afterwards. *)
Theorem drag_release_sets_the_flag_on_released_lines_only c
    (rows : list SimplifiedDiffRow) (selection : DiffSelection) drag :
  lawfulSelection ->
  getDiffRows (State.diff (Component.state c))
    (Props.showSideBySideDiff (Component.props c)) (canExpandDiff c)
  = Ok rows ->
  getSelection c = Some selection ->
  State.temporarySelection (Component.state c) = Some drag ->
  exists c' released,
    onEndSelection c = Ok (c', Some released)
    /\ State.temporarySelection (Component.state c') = None
    /\ forall l,
         isSelected released l
         = if bool_decide (l ∈ releasedLines rows drag)
           then ISelection.isSelected drag
           else isSelected selection l.
Proof.
  intros Hlaw Hrows Hsel Hdrag. eexists _, _.
  split; [by apply (onEndSelection_lines c rows)|]. split; [done|].
  intros l. by apply applyLines_isSelected.
Qed.

(** X13. What a cell shows as selected during a drag is what the release
    commits: for a cell of an Added, Deleted or Modified row that lies in
    the rectangle of the drag, the populated cell shows the flag of the
    drag, the released selection has that flag for the line of the cell,
    and the cell shows it again once the drag is over. *)
Theorem drag_preview_is_committed_on_release c
    (rows : list SimplifiedDiffRow) (selection : DiffSelection) drag
    (r : Z) (row : SimplifiedDiffRow) (data : SimplifiedDiffRowData.t)
    (column : DiffColumn.t) (l : Z) :
  lawfulSelection ->
  getDiffRows (State.diff (Component.state c))
    (Props.showSideBySideDiff (Component.props c)) (canExpandDiff c)
  = Ok rows ->
  getSelection c = Some selection ->
  State.temporarySelection (Component.state c) = Some drag ->
  array_get rows r = Some row ->
  (data, column)
    ∈ populatedCells (Props.showSideBySideDiff (Component.props c)) row ->
  SimplifiedDiffRowData.diffLineNumber data = Some l ->
  isInTemporarySelection r column (Some drag) = true ->
  (forall tokens,
     IDiffRowData.isSelected (getRowDataPopulated c data r column tokens)
     = ISelection.isSelected drag)
  /\ exists c' released,
       onEndSelection c = Ok (c', Some released)
       /\ isSelected released l = ISelection.isSelected drag
       /\ isInSelection l r column (Some released)
            (State.temporarySelection (Component.state c'))
          = ISelection.isSelected drag.
Proof.
  intros Hlaw Hrows Hsel Hdrag Hrow Hcell Hl Hin. split.
  - intros tokens. unfold getRowDataPopulated. cbn [IDiffRowData.isSelected].
    rewrite Hl, Hsel, Hdrag. unfold isInSelection. rewrite Hin.
    destruct (ISelection.isSelected drag); simpl.
    + apply orb_true_r.
    + apply andb_false_r.
  - assert (l ∈ releasedLines rows drag) as Hreleased.
    { unfold isInTemporarySelection in Hin. cbv zeta in Hin.
      repeat case_bool_decide; simpl in Hin; try done;
        (apply (elem_of_releasedLines rows drag r); [lia|]);
        unfold lineNumbersOfRow; rewrite Hrow;
        destruct row as [| |d ?|d ?|bd ad ?]; simpl in Hcell;
        try (by apply elem_of_nil in Hcell);
        repeat (apply elem_of_cons in Hcell as [[= -> ->]|Hcell]);
        try (by apply elem_of_nil in Hcell);
        rewrite ?Hl; simpl; try (by left);
        repeat match goal with
               | Hc : _ = ISelectionPoint.column _ |- _ => rewrite <- Hc
               end; rewrite ?Hl; simpl;
        try (by left); apply elem_of_app; right; by left. }
    eexists _, _.
    split; [by apply (onEndSelection_lines c rows)|].
    rewrite applyLines_isSelected by done.
    rewrite bool_decide_eq_true_2 by done. split; [done|].
    simpl. rewrite applyLines_isSelected by done.
    by rewrite bool_decide_eq_true_2 by done.
Qed.

(** X14. The release of a drag does not look at the column for an Added or
    a Deleted row: such a row between the two rows of the drag gets the
    flag of the drag for its line whatever the columns of the two end
    points are, also when the cell was outside the rectangle shown during
    the drag. *)
Theorem drag_release_takes_one_sided_rows_of_any_column c
    (rows : list SimplifiedDiffRow) (selection : DiffSelection) drag
    (r : Z) (row : SimplifiedDiffRow) (data : SimplifiedDiffRowData.t)
    (hunkStartLine : Z) (l : Z) :
  lawfulSelection ->
  getDiffRows (State.diff (Component.state c))
    (Props.showSideBySideDiff (Component.props c)) (canExpandDiff c)
  = Ok rows ->
  getSelection c = Some selection ->
  State.temporarySelection (Component.state c) = Some drag ->
  Z.min (ISelectionPoint.row (ISelection.from drag))
        (ISelectionPoint.row (ISelection.to drag)) <= r
  <= Z.max (ISelectionPoint.row (ISelection.from drag))
           (ISelectionPoint.row (ISelection.to drag)) ->
  array_get rows r = Some row ->
  row = AddedRow data hunkStartLine \/ row = DeletedRow data hunkStartLine ->
  SimplifiedDiffRowData.diffLineNumber data = Some l ->
  exists c' released,
    onEndSelection c = Ok (c', Some released)
    /\ isSelected released l = ISelection.isSelected drag.
Proof.
  intros Hlaw Hrows Hsel Hdrag Hr Hrow Hkind Hl.
  assert (l ∈ releasedLines rows drag) as Hreleased.
  { apply (elem_of_releasedLines rows drag r); [done|].
    unfold lineNumbersOfRow. rewrite Hrow.
    destruct Hkind as [-> | ->]; rewrite Hl; by left. }
  eexists _, _.
  split; [by apply (onEndSelection_lines c rows)|].
  rewrite applyLines_isSelected by done.
  by rewrite bool_decide_eq_true_2 by done.
Qed.

(** X15. A drag keeps its start: after the start of a selection at a cell
    and any sequence of mouse moves the temporary selection still starts at
    that cell with the flag it was started with and ends at the cell of
    the last move; both cells lie in its rectangle; nothing but the
    temporary selection has changed. Without a drag a mouse move changes
    nothing. *)
Theorem drag_keeps_start_and_follows_the_mouse c (row : Z)
    (column : DiffColumn.t) (b : bool) (moves : list (Z * DiffColumn.t)) :
  let start := ISelectionPoint.mk column row in
  let current :=
    match last moves with
    | Some move => ISelectionPoint.mk move.2 move.1
    | None => start
    end in
  let drag := ISelection.mk start current b in
  dragThrough (onStartSelection c row column b) moves
  = setState c (withTemporarySelection (Component.state c) (Some drag))
  /\ isInTemporarySelection row column (Some drag) = true
  /\ isInTemporarySelection (ISelectionPoint.row current)
       (ISelectionPoint.column current) (Some drag) = true
  /\ (State.temporarySelection (Component.state c) = None ->
      dragThrough c moves = c).
Proof.
  intros start current drag. split; [|split; [|split]].
  - subst drag current. unfold onStartSelection. fold start.
    generalize start at 2 4 as to. revert c.
    induction moves as [|[r col] moves IH] using rev_ind; intros c to.
    + done.
    + unfold dragThrough in *. rewrite foldl_app, last_snoc. cbn [foldl].
      rewrite (IH c to). done.
  - unfold isInTemporarySelection. cbv zeta. subst drag. simpl.
    rewrite !bool_decide_eq_true_2 by lia.
    by rewrite (bool_decide_eq_true_2 (column = column)).
  - unfold isInTemporarySelection. cbv zeta. subst drag. simpl.
    rewrite !bool_decide_eq_true_2 by lia.
    rewrite (bool_decide_eq_true_2
               (ISelectionPoint.column current
                = ISelectionPoint.column current)) by done.
    by rewrite orb_true_r.
  - intros Hnone. unfold dragThrough.
    induction moves as [|move moves IH]; [done|].
    cbn [foldl]. unfold onUpdateSelection at 2. by rewrite Hnone.
Qed.

(** X16. Releasing is done once: after a release that returns, a second
    release changes nothing and hands no selection on; and when the file
    has no selection the release changes nothing at all, so a drag that
    was under way stays in the state. *)
Theorem drag_release_happens_once c (c' : Component.t)
    (handed : option DiffSelection) :
  onEndSelection c = Ok (c', handed) ->
  onEndSelection c' = Ok (c', None)
  /\ (getSelection c = None -> c' = c /\ handed = None)
  /\ Component.props c' = Component.props c
  /\ State.diff (Component.state c') = State.diff (Component.state c).
Proof.
  unfold onEndSelection.
  destruct (getSelection c) as [selection|] eqn:Hsel.
  - destruct (State.temporarySelection (Component.state c)) as [drag|]
      eqn:Hdrag.
    + cbv zeta. destruct (endSelectionLoop _ _ _ _ _ _ _) as [released|];
        [|done]. bind_step. intros [= <- <-].
      unfold getSelection in *. simpl. by rewrite Hsel.
    + intros [= <- <-]. by rewrite Hsel, Hdrag.
  - intros [= <- <-]. by rewrite Hsel.
Qed.

End DragSelection.

Section Hover.
Context `{Collaborators} `{HostCollaborators}.
Implicit Types (c : Component.t).

Lemma createFullRow_frame c c' :
  Component.props c' = Component.props c ->
  State.beforeTokens (Component.state c')
  = State.beforeTokens (Component.state c) ->
  State.afterTokens (Component.state c')
  = State.afterTokens (Component.state c) ->
  State.temporarySelection (Component.state c')
  = State.temporarySelection (Component.state c) ->
  State.searchResults (Component.state c')
  = State.searchResults (Component.state c) ->
  State.selectedSearchResult (Component.state c')
  = State.selectedSearchResult (Component.state c) ->
  forall row (numRow : Z),
    createFullRow c' row numRow = createFullRow c row numRow.
Proof.
  intros Hp Hb Ha Ht Hs Hk row numRow.
  assert (forall r col, getSearchTokens c' r col = getSearchTokens c r col)
    as Hsearch.
  { intros r col. unfold getSearchTokens. by rewrite Hs, Hk. }
  assert (forall data r col t,
            getRowDataPopulated c' data r col t
            = getRowDataPopulated c data r col t) as Hcell.
  { intros data r col t. unfold getRowDataPopulated, getSelection.
    by rewrite Hsearch, Hp, Ht. }
  destruct row; unfold createFullRow;
    rewrite ?Hp, ?Hb, ?Ha, ?Hcell, ?Hsearch; done.
Qed.

Lemma hunkStartLineOf_createFullRow c row (numRow : Z) :
  hunkStartLineOf (createFullRow c row numRow)
  = match row with
    | AddedRow _ hunkStartLine | DeletedRow _ hunkStartLine
    | ModifiedRow _ _ hunkStartLine => Some hunkStartLine
    | _ => None
    end.
Proof.
  destruct row; try done. unfold createFullRow.
  by repeat case_match.
Qed.

Lemma renderRow_hover c c' :
  Component.props c' = Component.props c ->
  Component.diffToRestore c' = Component.diffToRestore c ->
  State.diff (Component.state c') = State.diff (Component.state c) ->
  State.beforeTokens (Component.state c')
  = State.beforeTokens (Component.state c) ->
  State.afterTokens (Component.state c')
  = State.afterTokens (Component.state c) ->
  State.temporarySelection (Component.state c')
  = State.temporarySelection (Component.state c) ->
  State.searchResults (Component.state c')
  = State.searchResults (Component.state c) ->
  State.selectedSearchResult (Component.state c')
  = State.selectedSearchResult (Component.state c) ->
  forall index : Z,
    renderRow c' index
    = rendered ← renderRow c index;
      Ok (withHover (State.hoveredHunk (Component.state c')) rendered).
Proof.
  intros Hp Hr Hd Hb Ha Ht Hs Hk index. unfold renderRow, canExpandDiff.
  rewrite Hp, Hd.
  destruct (getDiffRows _ _ _) as [rows|]; [|done]. bind_step.
  destruct (array_get rows index) as [row|]; [|done]. bind_step.
  unfold withHover. rewrite hunkStartLineOf_createFullRow.
  rewrite (createFullRow_frame c c') by done.
  by destruct row.
Qed.

(** X17. Hovering a group of changed rows changes the hovered flag of the
    rendered rows and nothing else: after the mouse enters the group that
    starts at a line, outside a drag, a row is rendered as before with the
    flag telling whether it belongs to that group; after the mouse leaves
    no row is flagged; and during a drag, whatever the moves, entering a
    group leaves every row flagged as before the drag. *)
Theorem hover_changes_only_the_hovered_flag c (hunkStartLine : Z)
    (index : Z) :
  (State.temporarySelection (Component.state c) = None ->
   renderRow (onMouseEnterHunk c hunkStartLine) index
   = (rendered ← renderRow c index;
      Ok (withHover (Some hunkStartLine) rendered)))
  /\ renderRow (onMouseLeaveHunk c) index
     = (rendered ← renderRow c index; Ok (withHover None rendered))
  /\ forall (row : Z) (column : DiffColumn.t) (b : bool)
       (moves : list (Z * DiffColumn.t)) (shown : SimplifiedDiffRow),
       isHunkHovered
         (onMouseEnterHunk
            (dragThrough (onStartSelection c row column b) moves)
            hunkStartLine) shown
       = isHunkHovered c shown.
Proof.
  split; [|split].
  - intros Hnone. unfold onMouseEnterHunk. rewrite Hnone.
    by rewrite (renderRow_hover c).
  - unfold onMouseLeaveHunk. by rewrite (renderRow_hover c).
  - intros row column b moves shown.
    assert (forall c0,
      (exists drag,
         State.temporarySelection (Component.state c0) = Some drag) ->
      (exists drag,
         State.temporarySelection
           (Component.state (dragThrough c0 moves)) = Some drag)
      /\ State.hoveredHunk (Component.state (dragThrough c0 moves))
         = State.hoveredHunk (Component.state c0)) as Hdrag.
    { unfold dragThrough.
      induction moves as [|move moves IH] using rev_ind; intros c0 Hc0;
        [done|].
      rewrite foldl_app. cbn [foldl].
      destruct (IH c0 Hc0) as [[drag Hdrag] Hhover].
      set (c1 := foldl _ c0 moves) in *.
      unfold onUpdateSelection. rewrite Hdrag. simpl. split; [eauto|done]. }
    destruct (Hdrag (onStartSelection c row column b)) as [[drag Hd] Hhover];
      [simpl; eauto|].
    unfold onMouseEnterHunk. rewrite Hd.
    unfold isHunkHovered. rewrite Hhover. done.
Qed.

End Hover.

Section OverlayFrames.
Context `{Collaborators}.
Implicit Types (c : Component.t).

Lemma onSearch_frame c q (d : Direction) (c' : Component.t)
    (scroll : option Z) :
  onSearch c q d = Ok (c', scroll) ->
  Component.props c' = Component.props c
  /\ Component.diffToRestore c' = Component.diffToRestore c
  /\ State.diff (Component.state c') = State.diff (Component.state c)
  /\ State.beforeTokens (Component.state c')
     = State.beforeTokens (Component.state c)
  /\ State.afterTokens (Component.state c')
     = State.afterTokens (Component.state c)
  /\ State.temporarySelection (Component.state c')
     = State.temporarySelection (Component.state c)
  /\ State.hoveredHunk (Component.state c')
     = State.hoveredHunk (Component.state c).
Proof.
  assert (restartSearch c q = Ok (c', scroll) ->
          Component.props c' = Component.props c
          /\ Component.diffToRestore c' = Component.diffToRestore c
          /\ State.diff (Component.state c') = State.diff (Component.state c)
          /\ State.beforeTokens (Component.state c')
             = State.beforeTokens (Component.state c)
          /\ State.afterTokens (Component.state c')
             = State.afterTokens (Component.state c)
          /\ State.temporarySelection (Component.state c')
             = State.temporarySelection (Component.state c)
          /\ State.hoveredHunk (Component.state c')
             = State.hoveredHunk (Component.state c)) as Hrestart.
  { unfold restartSearch.
    destruct (calcSearchTokens _ _ _ _) as [[sr|]|]; bind_step;
      [|by intros [= <- <-]|done].
    case_bool_decide; by intros [= <- <-]. }
  unfold onSearch.
  destruct (State.searchResults (Component.state c)) as [sr|]; [|done].
  case_bool_decide; [|done]. by intros [= <- <-].
Qed.

(** X18. A search step changes the search fields of the state only: props,
    shown diff, expansion buffer, syntax tokens, drag and hover are as
    before, so the rows of the diff are the same and every cell shows the
    same selected flag. *)
Theorem search_step_leaves_rows_and_selection_alone c q (d : Direction)
    (c' : Component.t) (scroll : option Z) :
  onSearch c q d = Ok (c', scroll) ->
  Component.props c' = Component.props c
  /\ Component.diffToRestore c' = Component.diffToRestore c
  /\ getDiffRows (State.diff (Component.state c'))
       (Props.showSideBySideDiff (Component.props c')) (canExpandDiff c')
     = getDiffRows (State.diff (Component.state c))
         (Props.showSideBySideDiff (Component.props c)) (canExpandDiff c)
  /\ State.hoveredHunk (Component.state c')
     = State.hoveredHunk (Component.state c)
  /\ forall data (row : Z) (column : DiffColumn.t) tokens,
       IDiffRowData.isSelected
         (getRowDataPopulated c' data row column tokens)
       = IDiffRowData.isSelected
           (getRowDataPopulated c data row column tokens).
Proof.
  intros Hsearch.
  destruct (onSearch_frame _ _ _ _ _ Hsearch)
    as (Hp & Hr & Hd & Hb & Ha & Ht & Hh).
  split; [done|]. split; [done|].
  split; [unfold canExpandDiff; by rewrite Hp, Hd|]. split; [done|].
  intros data row column tokens.
  unfold getRowDataPopulated, getSelection.
  cbn [IDiffRowData.isSelected]. by rewrite Hp, Ht.
Qed.

(** X19. A drag changes the temporary selection only: from its start
    through any moves the props, the shown diff and the expansion buffer
    are as before, so the rows of the diff are the same, and every cell
    carries the same tokens. *)
Theorem drag_leaves_rows_and_tokens_alone c (row : Z)
    (column : DiffColumn.t) (b : bool) (moves : list (Z * DiffColumn.t)) :
  let c' := dragThrough (onStartSelection c row column b) moves in
  Component.props c' = Component.props c
  /\ Component.diffToRestore c' = Component.diffToRestore c
  /\ getDiffRows (State.diff (Component.state c'))
       (Props.showSideBySideDiff (Component.props c')) (canExpandDiff c')
     = getDiffRows (State.diff (Component.state c))
         (Props.showSideBySideDiff (Component.props c)) (canExpandDiff c)
  /\ forall data (r : Z) (col : DiffColumn.t) tokens,
       IDiffRowData.tokens (getRowDataPopulated c' data r col tokens)
       = IDiffRowData.tokens (getRowDataPopulated c data r col tokens).
Proof.
  intros c'.
  assert (forall c0,
    Component.props (dragThrough c0 moves) = Component.props c0
    /\ Component.diffToRestore (dragThrough c0 moves)
       = Component.diffToRestore c0
    /\ withTemporarySelection (Component.state (dragThrough c0 moves)) None
       = withTemporarySelection (Component.state c0) None) as Hmoves.
  { unfold dragThrough.
    induction moves as [|move moves IH] using rev_ind; intros c0; [done|].
    rewrite foldl_app. cbn [foldl].
    destruct (IH c0) as (Hp & Hr & Hs).
    set (c1 := foldl _ c0 moves) in *. unfold onUpdateSelection.
    destruct (State.temporarySelection _); [|done].
    simpl. split; [done|]. split; [done|]. rewrite <- Hs. done. }
  destruct (Hmoves (onStartSelection c row column b)) as (Hp & Hr & Hs).
  fold c' in Hp, Hr, Hs. simpl in Hp, Hr, Hs.
  assert (State.diff (Component.state c') = State.diff (Component.state c)
          /\ State.searchResults (Component.state c')
             = State.searchResults (Component.state c)
          /\ State.selectedSearchResult (Component.state c')
             = State.selectedSearchResult (Component.state c))
    as (Hd & Hsr & Hk).
  { unfold withTemporarySelection in Hs. by injection Hs. }
  split; [done|]. split; [done|].
  split; [unfold canExpandDiff; by rewrite Hp, Hd|].
  intros data r col tokens. unfold getRowDataPopulated, getSearchTokens.
  cbn [IDiffRowData.tokens]. by rewrite Hsr, Hk.
Qed.

End OverlayFrames.

Section ExpansionMenu.
Context `{Collaborators} `{HostCollaborators}.
Implicit Types (c : Component.t).

(** X20. The menu item for expansion toggles: while nothing is buffered
    the item expands the whole file; after running it the item offered is
    the one that collapses, it has no enabled field and is the only item of
    the menu of a hunk header; running that one gives back the component
    as it was, for which the item expands again. *)
Theorem expand_menu_item_toggles c (contents : IFileContents.t)
    (updatedDiff : ITextDiff.t) :
  Props.fileContents (Component.props c) = Some contents ->
  canExpandDiff c = true ->
  Component.diffToRestore c = None ->
  expandWholeTextDiff (State.diff (Component.state c))
                      (IFileContents.newContents contents)
  = Some updatedDiff ->
  exists item,
    buildExpandMenuItem c = Some item
    /\ IMenuItem.action item = ExpandWholeFileAction
    /\ exists item',
         buildExpandMenuItem (runMenuAction c (IMenuItem.action item))
         = Some item'
         /\ IMenuItem.action item' = CollapseExpandedLinesAction
         /\ IMenuItem.enabled item' = None
         /\ onContextMenuExpandHunk
              (runMenuAction c (IMenuItem.action item))
            = Some [item']
         /\ runMenuAction (runMenuAction c (IMenuItem.action item))
              (IMenuItem.action item')
            = c.
Proof.
  intros Hcontents Hcan Hbuffer Hexpand.
  unfold buildExpandMenuItem at 1. rewrite Hcan, Hbuffer. cbn [negb].
  eexists. split; [done|]. split; [done|]. cbn [IMenuItem.action].
  assert (runMenuAction c ExpandWholeFileAction
          = {| Component.props := Component.props c;
               Component.state := withDiff (Component.state c) updatedDiff;
               Component.diffToRestore :=
                 Some (State.diff (Component.state c)) |}) as ->.
  { unfold runMenuAction, onExpandWholeFile.
    by rewrite Hcontents, Hcan, Hexpand. }
  unfold onContextMenuExpandHunk, buildExpandMenuItem.
  assert (canExpandDiff
            {| Component.props := Component.props c;
               Component.state := withDiff (Component.state c) updatedDiff;
               Component.diffToRestore :=
                 Some (State.diff (Component.state c)) |} = true) as ->
    by exact Hcan.
  cbn [negb Component.diffToRestore].
  eexists. split; [done|]. split; [done|]. split; [done|]. split; [done|].
  cbn [IMenuItem.action runMenuAction]. unfold onCollapseExpandedLines.
  cbn [Component.diffToRestore Component.props Component.state].
  rewrite withDiff_withDiff_same. destruct c. simpl in *. by subst.
Qed.

Lemma onExpandHunk_frame c (hunkIndex : Z) (kind : DiffExpansionKind) :
  Component.props (onExpandHunk c hunkIndex kind) = Component.props c
  /\ Component.diffToRestore (onExpandHunk c hunkIndex kind)
     = Component.diffToRestore c
  /\ withDiff (Component.state (onExpandHunk c hunkIndex kind))
       (State.diff (Component.state c))
     = Component.state c.
Proof.
  assert (withDiff (Component.state c) (State.diff (Component.state c))
          = Component.state c) as Hsame by by destruct (Component.state c).
  unfold onExpandHunk, expandHunk.
  repeat case_match; simpl; done.
Qed.

(** X21. Expanding hunks changes the shown diff and nothing else: after any
    sequence of hunk expansions the props and the expansion buffer are as
    before and the state differs in its diff only; so collapsing afterwards
    gives exactly what collapsing before them would have given when a diff
    is buffered, and changes nothing when none is; collapsing twice is
    collapsing once. *)
Theorem hunk_expansions_keep_the_restore_buffer c
    (expansions : list (Z * DiffExpansionKind)) :
  let c' := expandThrough c expansions in
  Component.props c' = Component.props c
  /\ Component.diffToRestore c' = Component.diffToRestore c
  /\ withDiff (Component.state c') (State.diff (Component.state c))
     = Component.state c
  /\ onCollapseExpandedLines c'
     = match Component.diffToRestore c with
       | Some _ => onCollapseExpandedLines c
       | None => c'
       end
  /\ onCollapseExpandedLines (onCollapseExpandedLines c')
     = onCollapseExpandedLines c'.
Proof.
  intros c'.
  assert (Component.props c' = Component.props c
          /\ Component.diffToRestore c' = Component.diffToRestore c
          /\ withDiff (Component.state c') (State.diff (Component.state c))
             = Component.state c) as (Hp & Hr & Hs).
  { subst c'. unfold expandThrough.
    induction expansions as [|[i kind] expansions IH] using rev_ind.
    - simpl. by destruct (Component.state c).
    - rewrite foldl_app. cbn [foldl]. destruct IH as (Hp & Hr & Hs).
      set (c1 := foldl _ c expansions) in *.
      destruct (onExpandHunk_frame c1 i kind) as (Hp1 & Hr1 & Hs1).
      simpl in *. rewrite Hp1, Hr1. split; [done|]. split; [done|].
      rewrite <- Hs, <- Hs1. done. }
  split; [done|]. split; [done|]. split; [done|]. split.
  - unfold onCollapseExpandedLines. rewrite Hr, Hp.
    destruct (Component.diffToRestore c) as [d|]; [|done].
    replace (withDiff (Component.state c) d)
      with (withDiff (Component.state c') d); [done|].
    by rewrite <- Hs.
  - unfold onCollapseExpandedLines.
    destruct (Component.diffToRestore c') eqn:Hbuffer; simpl;
      by rewrite ?Hbuffer.
Qed.

(** X22. The index given to the expansion of a hunk is checked against -1
    and the number of hunks, not against other negative numbers: for -1
    and for an index at or beyond the number of hunks nothing happens; an
    index inside the hunks expands that hunk; for an index below -1 the
    expansion is asked for with no hunk; without expandable contents
    nothing happens at all. *)
Theorem hunk_expansion_index_guards c (hunkIndex : Z)
    (kind : DiffExpansionKind) :
  let hunks := ITextDiff.hunks (State.diff (Component.state c)) in
  (hunkIndex = -1 \/ Z.of_nat (List.length hunks) <= hunkIndex ->
   onExpandHunk c hunkIndex kind = c)
  /\ (0 <= hunkIndex < Z.of_nat (List.length hunks) ->
      exists hunk,
        hunks !! Z.to_nat hunkIndex = Some hunk
        /\ onExpandHunk c hunkIndex kind = expandHunk c (Some hunk) kind)
  /\ (hunkIndex < -1 ->
      onExpandHunk c hunkIndex kind = expandHunk c None kind)
  /\ (canExpandDiff c = false -> onExpandHunk c hunkIndex kind = c).
Proof.
  intros hunks. unfold onExpandHunk. fold hunks.
  split; [|split; [|split]].
  - intros [->|Hlen].
    + done.
    + rewrite (bool_decide_eq_true_2 (_ <= _)) by done.
      by rewrite orb_true_r.
  - intros Hi. rewrite !bool_decide_eq_false_2 by lia. cbn [orb].
    destruct (lookup_lt_is_Some_2 hunks (Z.to_nat hunkIndex)) as [hunk Hh];
      [lia|].
    exists hunk. split; [done|]. unfold array_get.
    rewrite decide_False by lia. by rewrite Hh.
  - intros Hi. rewrite !bool_decide_eq_false_2 by lia. cbn [orb].
    unfold array_get. by rewrite decide_True by lia.
  - intros Hcan. destruct (_ || _); [done|]. unfold expandHunk.
    rewrite Hcan. by destruct (Props.fileContents _).
Qed.

End ExpansionMenu.

Section Keys.
Context `{Collaborators} `{HostCollaborators}.
Implicit Types (c : Component.t) (event : KeyboardEvent.t).

(** X23. A key press opens the search or does nothing: the search is open
    afterwards exactly when it was open before or the default action of
    the event was prevented; a press that is not taken, or one that comes
    while the search is open, leaves the component as it is, so a running
    search keeps its query and results; a press that is taken while the
    search is closed opens it empty. An event whose default was already
    prevented, one with shift or alt, or one of another key is never
    taken, nor is one with the control key of the other platform. *)
Theorem find_key_opens_search_once c event :
  let c' := (onWindowKeyDown c event).1 in
  let taken := (onWindowKeyDown c event).2 in
  State.isSearching (Component.state c')
  = State.isSearching (Component.state c) || taken
  /\ (State.isSearching (Component.state c) = true \/ taken = false ->
      c' = c)
  /\ (taken = true -> State.isSearching (Component.state c) = false ->
      c' = resetSearch c true)
  /\ (KeyboardEvent.defaultPrevented event = true
      \/ KeyboardEvent.shiftKey event = true
      \/ KeyboardEvent.altKey event = true
      \/ KeyboardEvent.key event <> "f" ->
      taken = false)
  /\ (KeyboardEvent.ctrlKey event = DARWIN -> taken = false)
  /\ (onWindowKeyDown c' event).1 = c'.
Proof.
  intros c' taken. subst c' taken. unfold onWindowKeyDown, showSearch.
  destruct (KeyboardEvent.defaultPrevented event);
    [simpl; rewrite orb_false_r; by repeat split; try tauto|].
  destruct DARWIN, (KeyboardEvent.metaKey event),
    (KeyboardEvent.ctrlKey event), (KeyboardEvent.shiftKey event),
    (KeyboardEvent.altKey event);
    cbn [negb andb orb fst snd];
    try (rewrite orb_false_r; by repeat split; try tauto);
    (case_bool_decide as Hkey; cbn [negb andb orb fst snd];
     [|rewrite orb_false_r; by repeat split; try tauto];
     destruct (State.isSearching (Component.state c)) eqn:Hs;
     cbn [negb andb orb fst snd]; rewrite ?Hs;
     repeat split; try done; try tauto;
     try (intros [?|?]; done);
     try (intros [?|[?|[?|?]]]; done)).
Qed.

End Keys.

Section Updates.
Context `{Collaborators} `{HostCollaborators}.
Implicit Types (m prev : Mounted.t).

(** X24. An update whose props bring a diff with another text resets the
    shown diff to the diff of the props and empties the expansion buffer,
    so that collapsing afterwards changes nothing; nothing else of the
    state changes; an update whose props bring the same text changes
    nothing; and the update that follows the reset ([componentDidUpdate]
    with the same props and the state from before the reset as the
    previous ones) changes nothing more. *)
Theorem update_resets_diff_when_text_changes m prev :
  let m' := (componentDidUpdate m prev).1 in
  let c := Mounted.component m in
  let c' := Mounted.component m' in
  Component.props c' = Component.props c
  /\ (componentDidUpdate m' m).1 = m'
  /\ (ITextDiff.text (Props.diff (Component.props c))
      = ITextDiff.text
          (Props.diff (Component.props (Mounted.component prev))) ->
      m' = m)
  /\ (ITextDiff.text (Props.diff (Component.props c))
      <> ITextDiff.text
           (Props.diff (Component.props (Mounted.component prev))) ->
      Component.diffToRestore c' = None
      /\ State.diff (Component.state c') = Props.diff (Component.props c)
      /\ onCollapseExpandedLines c' = c'
      /\ withDiff (Component.state c') (State.diff (Component.state c))
         = Component.state c).
Proof.
  intros m' c c'. subst m' c c'. unfold componentDidUpdate. cbn [fst].
  case_bool_decide as Htext.
  - split; [done|]. split.
    + cbn [withComponent Mounted.component Component.props].
      by rewrite bool_decide_eq_false_2 by tauto.
    + split; [done|]. intros _. simpl.
      rewrite withDiff_withDiff_same. done.
  - split; [done|]. split.
    + by rewrite bool_decide_eq_false_2 by tauto.
    + split; [done|]. intros Hne. by destruct Htext.
Qed.

(** X25. Highlighting that was started by the update that resets the diff
    is kept or dropped by the text of the diff: when it completes on the
    component as the reset left it, its result is applied when the text of
    the diff of the props is the text that was shown, and is dropped when
    the texts differ; in the second case, and only then, the update that
    follows the reset ([componentDidUpdate] with the same props and the
    state from before the reset as the previous ones) starts highlighting
    again; that update never scrolls to the top. *)
Theorem highlight_across_diff_reset m prev (oldTokens newTokens : ITokens) :
  ITextDiff.text (Props.diff (Component.props (Mounted.component m)))
  <> ITextDiff.text
       (Props.diff (Component.props (Mounted.component prev))) ->
  let m' := (componentDidUpdate m prev).1 in
  let changed :=
    bool_decide
      (ITextDiff.text (Props.diff (Component.props (Mounted.component m)))
       <> ITextDiff.text
            (State.diff (Component.state (Mounted.component m)))) in
  initDiffSyntaxMode_complete m' m oldTokens newTokens
  = (if changed then m'
     else withComponent m'
            (setState (Mounted.component m')
               (withLineTokens (Component.state (Mounted.component m'))
                  oldTokens newTokens)))
  /\ UpdateEffects.initDiffSyntaxMode (componentDidUpdate m' m).2 = changed
  /\ UpdateEffects.clearListRowsHeightCache (componentDidUpdate m' m).2
     = changed
  /\ UpdateEffects.scrollToTop (componentDidUpdate m' m).2 = false.
Proof.
  intros Htext m' changed.
  assert (highlightParametersEqual m' m
            (Component.state (Mounted.component m'))
            (Component.state (Mounted.component m)) = negb changed)
    as Hequal.
  { subst m' changed. unfold componentDidUpdate. cbn [fst].
    rewrite bool_decide_eq_true_2 by done.
    unfold highlightParametersEqual, contentsFileId. simpl.
    rewrite (bool_decide_eq_true_2 (Mounted.propsIdentity m = _)) by done.
    cbn [orb andb].
    repeat case_bool_decide; simpl; try done; tauto. }
  split; [|split; [|split]].
  - unfold initDiffSyntaxMode_complete. rewrite Hequal.
    by destruct changed.
  - unfold componentDidUpdate at 1. cbn [snd UpdateEffects.initDiffSyntaxMode].
    rewrite Hequal. by destruct changed.
  - unfold componentDidUpdate at 1.
    cbn [snd UpdateEffects.clearListRowsHeightCache].
    rewrite Hequal. by destruct changed.
  - unfold componentDidUpdate at 1. cbn [snd UpdateEffects.scrollToTop].
    subst m'. unfold componentDidUpdate. cbn [fst].
    rewrite bool_decide_eq_true_2 by done. simpl.
    rewrite (bool_decide_eq_false_2 (Mounted.fileId m <> _)) by tauto.
    apply andb_false_r.
Qed.

End Updates.

(** * Examples on the sample diff *)

#[local] Existing Instance sample.

(** The run of the sample hunk in side-by-side mode: one Modified row. *)
Lemma sample_run_rows :
  DiffHunk.lines sampleHunk
  = [sampleHeader; sampleFoo] ++ [sampleBar; sampleFooBar] ++ [sampleBaz]
  /\ Forall wellFormedLine (DiffHunk.lines sampleHunk)
  /\ opens [sampleHeader; sampleFoo]
  /\ [sampleBar; sampleFooBar] <> []
  /\ Forall isChange [sampleBar; sampleFooBar]
  /\ closes [sampleBaz]
  /\ exists rowsBefore mods rowsAfter,
       getDiffRowsFromHunk 0 sampleHunk true true
       = Ok (rowsBefore ++ mods ++ rowsAfter)
       /\ List.length rowsBefore = 2%nat
       /\ List.length rowsAfter = 1%nat
       /\ Forall2 (fun da r => exists tb ta,
                     modifiedRowShows 2 da.1 da.2 tb ta r)
            [(ModifiedLine.mk sampleBar 2, ModifiedLine.mk sampleFooBar 3)]
            mods.
Proof.
  assert (Forall wellFormedLine (DiffHunk.lines sampleHunk)) as Hwf.
  { repeat (apply List.Forall_cons; [cbv; eauto|]). apply List.Forall_nil. }
  assert (opens [sampleHeader; sampleFoo]) as Hopen.
  { unfold opens, isChange. simpl. intros [|]; discriminate. }
  assert (Forall isChange [sampleBar; sampleFooBar]) as Hchange.
  { repeat (apply List.Forall_cons; [cbv; eauto|]). apply List.Forall_nil. }
  assert (closes [sampleBaz]) as Hclose.
  { unfold closes, isChange. simpl. intros [|]; discriminate. }
  split; [reflexivity|]. split; [exact Hwf|]. split; [exact Hopen|].
  split; [discriminate|]. split; [exact Hchange|]. split; [exact Hclose|].
  destruct (run_becomes_modified_deleted_added_rows 0 sampleHunk true true
              [sampleHeader; sampleFoo] [sampleBar; sampleFooBar] [sampleBaz]
              eq_refl Hwf Hopen ltac:(discriminate) Hchange Hclose)
    as (rowsBefore & mods & dels & adds & rowsAfter & Hrows & Hbefore
        & Hafter & _ & _ & Hmods & Hdels & Hadds & _).
  vm_compute in Hbefore, Hafter.
  injection Hbefore as <-. injection Hafter as <-.
  apply Forall2_nil_inv_l in Hdels as ->.
  apply Forall2_nil_inv_l in Hadds as ->.
  exists (take 2 (sampleRows true)), mods, (drop 3 (sampleRows true)).
  split; [by rewrite Hrows, !app_nil_r|].
  split; [reflexivity|]. split; [reflexivity|]. exact Hmods.
Defined.

(** Emphasis tokens of the pair of the sample run: both lines are short and
    there is one line on each side. *)
Lemma sample_run_emphasis :
  Forall hasNew (addedOf sampleRun)
  /\ Forall hasOld (deletedOf sampleRun)
  /\ deletedOf sampleRun !! O = Some (ModifiedLine.mk sampleBar 2)
  /\ addedOf sampleRun !! O = Some (ModifiedLine.mk sampleFooBar 3)
  /\ exists arrays rows beforeData afterData,
       computeDiffTokens (addedOf sampleRun) (deletedOf sampleRun) = Ok arrays
       /\ getModifiedRows sampleRun true = Ok rows
       /\ slotAt arrays.1 O = Some (sampleGetDiffTokens "bar" "Foo bar").1
       /\ slotAt arrays.2 O = Some (sampleGetDiffTokens "bar" "Foo bar").2
       /\ rows !! O = Some (ModifiedRow beforeData afterData 2)
       /\ SimplifiedDiffRowData.tokens beforeData
          = [(sampleGetDiffTokens "bar" "Foo bar").1]
       /\ SimplifiedDiffRowData.tokens afterData
          = [(sampleGetDiffTokens "bar" "Foo bar").2].
Proof.
  assert (Forall hasNew (addedOf sampleRun)) as HwfA.
  { apply List.Forall_cons; [by eexists|apply List.Forall_nil]. }
  assert (Forall hasOld (deletedOf sampleRun)) as HwfD.
  { apply List.Forall_cons; [by eexists|apply List.Forall_nil]. }
  split; [exact HwfA|]. split; [exact HwfD|].
  split; [reflexivity|]. split; [reflexivity|].
  destruct (emphasis_tokens_iff_equal_counts_and_short_lines sampleRun true O
              (ModifiedLine.mk sampleBar 2) (ModifiedLine.mk sampleFooBar 3)
              HwfA HwfD eq_refl eq_refl)
    as (arrays & rows & Harrays & Hrows & Hs1 & Hs2 & _ & _ & Hsbs & _).
  destruct (Hsbs eq_refl) as (bd & ad & start & Hrow & Hbd & Had).
  exists arrays, rows, bd, ad.
  split; [done|]. split; [done|]. split; [exact Hs1|]. split; [exact Hs2|].
  rewrite Hs1 in Hbd. rewrite Hs2 in Had.
  split; [|by split].
  rewrite Hrow. vm_compute in Hrows. injection Hrows as <-.
  vm_compute in Hrow. by injection Hrow as _ _ <-.
Defined.

(** Whole-file expansion of the sample diff and back. *)
Lemma sample_expand_then_collapse :
  Props.fileContents (Component.props (sampleComponent true))
  = Some {| IFileContents.canBeExpanded := true;
            IFileContents.newContents := ["foo"; "Foo bar"; "baz"] |}
  /\ canExpandDiff (sampleComponent true) = true
  /\ is_Some (expandWholeTextDiff sampleDiff ["foo"; "Foo bar"; "baz"])
  /\ Component.diffToRestore (onExpandWholeFile (sampleComponent true))
     = Some sampleDiff
  /\ State.diff (Component.state (onExpandWholeFile (sampleComponent true)))
     <> sampleDiff
  /\ State.diff
       (Component.state
          (onCollapseExpandedLines (onExpandWholeFile (sampleComponent true))))
     = sampleDiff
  /\ Component.diffToRestore
       (onCollapseExpandedLines (onExpandWholeFile (sampleComponent true)))
     = None.
Proof.
  split; [reflexivity|]. split; [reflexivity|].
  split; [by eexists|].
  assert (expandWholeTextDiff
            (State.diff (Component.state (sampleComponent true)))
            ["foo"; "Foo bar"; "baz"]
          = Some (default sampleDiff
                    (sampleExpandWholeTextDiff sampleDiff
                       ["foo"; "Foo bar"; "baz"]))) as Hexpand.
  { vm_compute. reflexivity. }
  destruct (expand_whole_file_then_collapse (sampleComponent true)
              {| IFileContents.canBeExpanded := true;
                 IFileContents.newContents := ["foo"; "Foo bar"; "baz"] |}
              _ eq_refl eq_refl Hexpand)
    as (Hkept & Hcurrent & Hback & Hcleared & _).
  split; [exact Hkept|]. split; [|split; [exact Hback|exact Hcleared]].
  rewrite Hcurrent. vm_compute. discriminate.
Defined.

(** C7, as stated, fails: searching the sample diff for "qux" finds nothing
    and leaves the search box open ([isSearching] stays set), whereas
    cancelling closes it; the two resulting components differ. *)
Lemma zero_hit_search_differs_from_cancel :
  strlen "qux" <> 0
  /\ SearchResults.hits (sampleResults true "qux") = []
  /\ onSearch (sampleComponent true) "qux" next
     = Ok (resetSearch (sampleComponent true) true, None)
  /\ State.isSearching
       (Component.state (resetSearch (sampleComponent true) true)) = true
  /\ State.isSearching
       (Component.state (onSearchCancel (sampleComponent true))) = false
  /\ onSearch (sampleComponent true) "qux" next
     <> Ok (onSearchCancel (sampleComponent true), None).
Proof.
  split; [by vm_compute|]. split; [reflexivity|]. split; [reflexivity|].
  split; [reflexivity|]. split; [reflexivity|].
  intros E.
  apply (f_equal (fun r => match r with
                           | Ok (c, _) =>
                               State.isSearching (Component.state c)
                           | Fatal => false
                           end)) in E.
  vm_compute in E. discriminate.
Qed.

(** A search without hits on the sample diff. *)
Lemma sample_zero_hit_search :
  strlen "qux" <> 0
  /\ (State.searchQuery (Component.state (sampleComponent true)) <> Some "qux"
      \/ State.searchResults (Component.state (sampleComponent true)) = None)
  /\ calcSearchTokens sampleDiff true "qux" true
     = Ok (Some (sampleResults true "qux"))
  /\ SearchResults.length (sampleResults true "qux") = 0
  /\ onSearch (sampleComponent true) "qux" previous
     = Ok (resetSearch (sampleComponent true) true, None)
  /\ State.isSearching
       (Component.state (resetSearch (sampleComponent true) true)) = true.
Proof.
  assert (strlen "qux" <> 0) as Hq by (by vm_compute).
  split; [exact Hq|]. split; [by right|].
  split; [reflexivity|]. split; [reflexivity|].
  destruct (zero_hit_search_resets_but_keeps_searching (sampleComponent true)
              "qux" previous (sampleResults true "qux") Hq
              (or_intror eq_refl) eq_refl eq_refl)
    as (Hsearch & _ & _ & _ & _ & _ & _ & Hopen & _).
  split; [exact Hsearch|exact Hopen].
Defined.

(** Two hits for "foo" in unified mode: "next" goes 0, 1, 0; "previous" from
    0 goes to 1; the new query "ba" starts again at hit 0. *)
Lemma sample_search_navigation :
  State.searchQuery (Component.state sampleSearched) = Some "foo"
  /\ State.searchResults (Component.state sampleSearched)
     = Some (sampleResults false "foo")
  /\ State.selectedSearchResult (Component.state sampleSearched) = Some 0
  /\ SearchResults.length (sampleResults false "foo") = 2
  /\ "ba" <> "foo"
  /\ calcSearchTokens sampleDiff false "ba" true
     = Ok (Some (sampleResults false "ba"))
  /\ SearchResults.length (sampleResults false "ba") = 3
  /\ onSearch sampleSearched "foo" next
     = Ok (finishSearch sampleSearched "foo" (sampleResults false "foo") 1)
  /\ onSearch
       (finishSearch sampleSearched "foo" (sampleResults false "foo") 1).1
       "foo" next
     = Ok (finishSearch
             (finishSearch sampleSearched "foo"
                (sampleResults false "foo") 1).1
             "foo" (sampleResults false "foo") 0)
  /\ onSearch sampleSearched "foo" previous
     = Ok (finishSearch sampleSearched "foo" (sampleResults false "foo") 1)
  /\ onSearch sampleSearched "ba" next
     = Ok (finishSearch sampleSearched "ba" (sampleResults false "ba") 0).
Proof.
  split; [reflexivity|]. split; [reflexivity|]. split; [reflexivity|].
  split; [reflexivity|]. split; [discriminate|]. split; [reflexivity|].
  split; [reflexivity|].
  destruct (search_navigation_wraps sampleSearched "foo"
              (sampleResults false "foo") 0
              eq_refl eq_refl eq_refl eq_refl ltac:(lia))
    as (_ & _ & Hprev & _ & Hcycle & Hnew).
  destruct (Hcycle eq_refl eq_refl) as [Hnext1 Hnext2].
  split; [exact Hnext1|]. split; [exact Hnext2|].
  split; [exact (Hprev eq_refl)|].
  exact (proj1 (Hnew "ba" (sampleResults false "ba") next
                  ltac:(discriminate) eq_refl eq_refl)).
Defined.

(** C9, as stated, fails: in unified mode the Context row "foo" of the
    sample diff is scanned in its before column only. The description has
    both columns scanned, which would add a hit in the after column. *)
Lemma unified_search_skips_after_column_of_context_rows :
  sampleRows false !! 1%nat = Some (ContextRow "foo" 1 1 [] [])
  /\ matchAll "foo" "foo" = [(0, 3)]
  /\ (DiffColumn.After, "foo")
       ∈ cellsToScanAsDescribed (ContextRow "foo" 1 1 [] []) false
  /\ enumerateColumnContents (ContextRow "foo" 1 1 [] []) false
     = [(DiffColumn.Before, "foo")]
  /\ calcSearchTokens sampleDiff false "foo" true
     = Ok (Some (sampleResults false "foo"))
  /\ SearchResults.hits (sampleResults false "foo")
     = [(1, DiffColumn.Before, 0, 3); (3, DiffColumn.Before, 0, 3)]
  /\ (1, DiffColumn.After, 0, 3) ∉ SearchResults.hits (sampleResults false "foo").
Proof.
  split; [reflexivity|]. split; [reflexivity|].
  split; [apply elem_of_cons; right; apply elem_of_cons; by left|].
  split; [reflexivity|]. split; [reflexivity|].
  assert (SearchResults.hits (sampleResults false "foo")
          = [(1, DiffColumn.Before, 0, 3); (3, DiffColumn.Before, 0, 3)])
    as Hhits by reflexivity.
  split; [exact Hhits|]. rewrite Hhits.
  intros Hin. apply elem_of_cons in Hin as [Hin|Hin]; [discriminate|].
  apply elem_of_cons in Hin as [Hin|Hin]; [discriminate|].
  by apply elem_of_nil in Hin.
Qed.

(** The hits for "foo" in the sample diff, side by side. *)
Lemma sample_search_hits :
  "foo" <> EmptyString
  /\ getDiffRows sampleDiff true true = Ok (sampleRows true)
  /\ exists sr,
       calcSearchTokens sampleDiff true "foo" true = Ok (Some sr)
       /\ SearchResults.hits sr
          = [(1, DiffColumn.Before, 0, 3); (1, DiffColumn.After, 0, 3);
             (2, DiffColumn.After, 0, 3)].
Proof.
  split; [discriminate|]. split; [reflexivity|].
  destruct (search_scans_cells_by_row_type sampleDiff true "foo" true
              (sampleRows true) ltac:(discriminate) eq_refl)
    as (sr & Hcalc & Hhits & _).
  exists sr. split; [exact Hcalc|]. rewrite Hhits. reflexivity.
Defined.

(** Releasing the sample drag (rows 0 to 5, from the before to the after
    column, additive): only the Modified row 2 contributes, with its two
    line numbers 2 and 3. *)
Lemma sample_drag_release :
  getDiffRows (State.diff (Component.state sampleDragging))
    (Props.showSideBySideDiff (Component.props sampleDragging))
    (canExpandDiff sampleDragging)
  = Ok (sampleRows true)
  /\ getDiffLineNumber sampleDragging 0 DiffColumn.Before = Ok None
  /\ getDiffLineNumber sampleDragging 1 DiffColumn.After = Ok None
  /\ getDiffLineNumber sampleDragging 4 DiffColumn.After = Ok None
  /\ getDiffLineNumber sampleDragging (-1) DiffColumn.Before = Ok None
  /\ exists c,
       onEndSelection sampleDragging = Ok (c, Some ({[2; 3]} : gset Z))
       /\ State.temporarySelection (Component.state c) = None.
Proof.
  assert (getDiffRows (State.diff (Component.state sampleDragging))
            (Props.showSideBySideDiff (Component.props sampleDragging))
            (canExpandDiff sampleDragging)
          = Ok (sampleRows true)) as Hrows by reflexivity.
  split; [exact Hrows|].
  destruct (only_changed_rows_contribute_to_drag_release sampleDragging
              (sampleRows true) Hrows) as (Hnull & _ & Hrelease).
  split; [apply Hnull; right; left; by eexists _, _, _|].
  split; [apply Hnull; right; right; by eexists _, _, _, _, _|].
  split; [apply Hnull; by left|].
  split; [apply Hnull; by left|].
  eexists. split.
  - rewrite (Hrelease {[3]} _ eq_refl eq_refl). reflexivity.
  - reflexivity.
Defined.

(** C3. The code at the failing input: the sample component in
    side-by-side mode with syntax tokens and the search for "foo", Context
    row "foo" (row 1). Its before column, which holds the selected hit, gets
    the syntax token first and the search tokens after it, which is not the
    described order (search tokens, then syntax tokens) that the cells of
    Added, Deleted and Modified rows get from [getRowDataPopulated]. *)
Lemma context_row_puts_syntax_before_search :
  getTokens 1 (State.beforeTokens (Component.state sampleHighlighted))
  = Some {[ 0 := IToken.mk 3 "cm-variable" ]}
  /\ searchPart sampleHighlighted 1 DiffColumn.Before
     = [ {[ 0 := IToken.mk 3 "search-result" ]};
         {[ 0 := IToken.mk 3 "selected" ]} ]
  /\ createFullRow sampleHighlighted (ContextRow "foo" 1 1 [] []) 1
     = FullContextRow "foo" 1 1
         [ {[ 0 := IToken.mk 3 "cm-variable" ]};
           {[ 0 := IToken.mk 3 "search-result" ]};
           {[ 0 := IToken.mk 3 "selected" ]} ]
         [ {[ 0 := IToken.mk 3 "cm-variable" ]};
           {[ 0 := IToken.mk 3 "search-result" ]} ]
  /\ [ {[ 0 := IToken.mk 3 "cm-variable" ]};
       {[ 0 := IToken.mk 3 "search-result" ]};
       {[ 0 := IToken.mk 3 "selected" ]} ]
     <> describedOrder []
          (searchPart sampleHighlighted 1 DiffColumn.Before)
          (getTokens 1
             (State.beforeTokens (Component.state sampleHighlighted))).
Proof.
  split; [reflexivity|]. split; [reflexivity|]. split; [reflexivity|].
  vm_compute. discriminate.
Qed.

(** The Modified row of the sample: emphasis, then search, then syntax. *)
Lemma sample_modified_row_tokens :
  (forall sr,
     State.searchResults (Component.state sampleHighlighted) = Some sr ->
     consistent sr)
  /\ exists beforeData afterData,
       createFullRow sampleHighlighted
         (ModifiedRow
            (SimplifiedDiffRowData.mk "bar" 2 (Some 2) false
               [(sampleGetDiffTokens "bar" "Foo bar").1])
            (SimplifiedDiffRowData.mk "Foo bar" 2 (Some 3) false
               [(sampleGetDiffTokens "bar" "Foo bar").2])
            2) 2
       = FullModifiedRow beforeData afterData 2
       /\ IDiffRowData.tokens beforeData
          = [ {[ 0 := IToken.mk 3 "diff-delete-inner" ]} ]
       /\ IDiffRowData.tokens afterData
          = [ {[ 0 := IToken.mk 7 "diff-add-inner" ]};
              {[ 0 := IToken.mk 3 "search-result" ]};
              {[ 0 := IToken.mk 7 "cm-string" ]} ].
Proof.
  assert (forall sr,
            State.searchResults (Component.state sampleHighlighted) = Some sr ->
            consistent sr) as Hcons.
  { intros sr Hsr.
    apply (calcSearchTokens_consistent sampleDiff true "foo" true).
    vm_compute in Hsr. injection Hsr as <-. vm_compute. reflexivity. }
  split; [exact Hcons|].
  destruct (changed_row_tokens_in_described_order sampleHighlighted
              2 Hcons) as (_ & _ & Hmodified & Htokens & _).
  eexists _, _. split; [apply Hmodified|].
  rewrite !Htokens. split; reflexivity.
Defined.

(** C4, as stated, fails: the table of the old file has no entry for line 3,
    yet the before column of the Context row "baz" gets syntax tokens, those
    of the table of the new file; and for the Context row "foo" the after
    column gets the tokens of the table of the old file, not those that the
    table of the new file has for its line. *)
Lemma context_row_borrows_tokens_of_other_file :
  getTokens 3 (State.beforeTokens (Component.state sampleHighlighted)) = None
  /\ getTokens 3 (State.afterTokens (Component.state sampleHighlighted))
     = Some {[ 0 := IToken.mk 3 "cm-def" ]}
  /\ searchPart sampleHighlighted 3 DiffColumn.Before = []
  /\ createFullRow sampleHighlighted (ContextRow "baz" 3 3 [] []) 3
     = FullContextRow "baz" 3 3
         [ {[ 0 := IToken.mk 3 "cm-def" ]} ]
         [ {[ 0 := IToken.mk 3 "cm-def" ]} ]
  /\ createFullRow sampleHighlighted (ContextRow "baz" 3 3 [] []) 3
     <> FullContextRow "baz" 3 3 [] [ {[ 0 := IToken.mk 3 "cm-def" ]} ]
  /\ getTokens 1 (State.afterTokens (Component.state sampleHighlighted))
     = Some {[ 0 := IToken.mk 3 "cm-keyword" ]}
  /\ createFullRow sampleHighlighted (ContextRow "foo" 1 1 [] []) 1
     = FullContextRow "foo" 1 1
         [ {[ 0 := IToken.mk 3 "cm-variable" ]};
           {[ 0 := IToken.mk 3 "search-result" ]};
           {[ 0 := IToken.mk 3 "selected" ]} ]
         [ {[ 0 := IToken.mk 3 "cm-variable" ]};
           {[ 0 := IToken.mk 3 "search-result" ]} ].
Proof.
  split; [reflexivity|]. split; [reflexivity|]. split; [reflexivity|].
  split; [reflexivity|]. split; [|split; reflexivity].
  vm_compute. discriminate.
Qed.


(** ** Examples for the further properties *)

#[local] Existing Instance sampleHost.

Lemma sampleRows_ok (sbs : bool) :
  getDiffRows sampleDiff sbs true = Ok (sampleRows sbs).
Proof. by destruct sbs; vm_compute. Qed.

Lemma sampleResults_ok (sbs : bool) :
  calcSearchTokens sampleDiff sbs "foo" true
  = Ok (Some (sampleResults sbs "foo")).
Proof. by destruct sbs; vm_compute. Qed.

Lemma sampleSearched_coherent :
  searchStateOk (Component.state sampleSearched).
Proof.
  assert (State.searchResults (Component.state sampleSearched)
          = Some (sampleResults false "foo")) as Hsr by by vm_compute.
  unfold searchStateOk. rewrite Hsr. split.
  - exact (calcSearchTokens_consistent _ _ _ _ _ (sampleResults_ok false)).
  - exists "foo", 0.
    split; [by vm_compute|]. split; [done|]. split; [by vm_compute|].
    assert (SearchResults.length (sampleResults false "foo") = 2) as ->
      by by vm_compute.
    lia.
Qed.

Lemma sample_selection_lawful : lawfulSelection.
Proof.
  split.
  - intros s l b. simpl. unfold sampleIsSelected, sampleWithLineSelection.
    destruct b.
    + apply bool_decide_eq_true_2, elem_of_union. left.
      by apply elem_of_singleton.
    + apply bool_decide_eq_false_2. rewrite elem_of_difference.
      rewrite elem_of_singleton. tauto.
  - intros s l l' b Hne. simpl.
    unfold sampleIsSelected, sampleWithLineSelection.
    apply bool_decide_ext. destruct b.
    + rewrite elem_of_union, elem_of_singleton.
      split; [intros [->|Hin]; [by destruct Hne|done]|by right].
    + rewrite elem_of_difference, elem_of_singleton.
      split; [by intros [Hin _]|intros Hin; split; [done|congruence]].
Qed.

(** The unified rows of the sample diff: five lines in five rows. *)
Lemma sample_rows_show_every_line :
  getDiffRows sampleDiff false true = Ok (sampleRows false)
  /\ concat (shownOfRow <$> sampleRows false) ≡ₚ shownOfDiff sampleDiff
  /\ sum_list_with cellsOf (sampleRows false) = lineCount sampleDiff
  /\ (false = false ->
      Forall (fun r => ~ isModifiedRow r) (sampleRows false)
      /\ List.length (sampleRows false) = lineCount sampleDiff).
Proof.
  split; [apply sampleRows_ok|].
  exact (rows_show_every_line_once sampleDiff false true (sampleRows false)
           (sampleRows_ok false)).
Defined.

(** The header row of the sample diff addresses its one hunk. *)
Lemma sample_hunk_header_row :
  getDiffRows (State.diff (Component.state (sampleComponent true)))
    (Props.showSideBySideDiff (Component.props (sampleComponent true)))
    (canExpandDiff (sampleComponent true))
  = Ok (sampleRows true)
  /\ array_get (sampleRows true) 0
     = Some (HunkRow "@@ -1,3 +1,3 @@" DiffHunkExpansionType.Both 0)
  /\ exists hunk,
       array_get
         (ITextDiff.hunks (State.diff (Component.state (sampleComponent true))))
         0
       = Some hunk
       /\ DiffHunkExpansionType.Both
          = (if canExpandDiff (sampleComponent true)
             then DiffHunk.expansionType hunk
             else DiffHunkExpansionType.None)
       /\ onExpandHunk (sampleComponent true) 0 true
          = expandHunk (sampleComponent true) (Some hunk) true.
Proof.
  assert (getDiffRows (State.diff (Component.state (sampleComponent true)))
            (Props.showSideBySideDiff
               (Component.props (sampleComponent true)))
            (canExpandDiff (sampleComponent true))
          = Ok (sampleRows true)) as Hrows by by vm_compute.
  assert (array_get (sampleRows true) 0
          = Some (HunkRow "@@ -1,3 +1,3 @@" DiffHunkExpansionType.Both 0))
    as Hrow by by vm_compute.
  split; [exact Hrows|]. split; [exact Hrow|].
  exact (hunk_header_rows_address_their_hunk (sampleComponent true)
           (sampleRows true) Hrows 0 _ _ 0 true Hrow).
Defined.

(** The hits of "foo" in the sample diff are in scan order. *)
Lemma sample_hits_ordered :
  calcSearchTokens sampleDiff true "foo" true
  = Ok (Some (sampleResults true "foo"))
  /\ StronglySorted hitBefore (SearchResults.hits (sampleResults true "foo")).
Proof.
  split; [apply sampleResults_ok|].
  exact (search_hits_are_ordered_and_disjoint sampleDiff true "foo" true
           (sampleResults true "foo") (sampleResults_ok true)).
Defined.

(** The lookup table of the hits of "foo" agrees with the hit list in the
    before column of row 1. *)
Lemma sample_lookup_agrees :
  calcSearchTokens sampleDiff true "foo" true
  = Ok (Some (sampleResults true "foo"))
  /\ (forall offset,
        (exists length,
           (1, DiffColumn.Before, offset, length)
             ∈ SearchResults.hits (sampleResults true "foo"))
        <-> exists lineTokens,
              SearchResults.getLineTokens (sampleResults true "foo") 1
                DiffColumn.Before = Some lineTokens
              /\ lineTokens !! offset
                 = Some (IToken.mk (strlen "foo") "search-result")).
Proof.
  split; [apply sampleResults_ok|].
  exact (proj1 (search_lookup_table_agrees_with_hit_list sampleDiff true
                  "foo" true (sampleResults true "foo")
                  (sampleResults_ok true) 1 DiffColumn.Before)).
Defined.

(** After searching "foo", searching "FOO" starts over on the same hits. *)
Lemma sample_case_changed_query :
  State.searchQuery (Component.state sampleSearched) = Some "foo"
  /\ "FOO" <> "foo"
  /\ foldCase "FOO" = foldCase "foo"
  /\ onSearch sampleSearched "FOO" next
     = Ok (finishSearch sampleSearched "FOO" (sampleResults false "foo") 0).
Proof.
  assert (State.searchQuery (Component.state sampleSearched) = Some "foo")
    as Hq by by vm_compute.
  assert (State.searchResults (Component.state sampleSearched)
          = Some (sampleResults false "foo")) as Hsr by by vm_compute.
  assert (calcSearchTokens (State.diff (Component.state sampleSearched))
            (Props.showSideBySideDiff (Component.props sampleSearched))
            "foo" (canExpandDiff sampleSearched)
          = Ok (Some (sampleResults false "foo"))) as Hcalc by by vm_compute.
  assert (SearchResults.length (sampleResults false "foo") <> 0) as Hlen
    by by vm_compute.
  assert ("FOO" <> "foo") as Hne by done.
  assert (foldCase "FOO" = foldCase "foo") as Hfold by by vm_compute.
  split; [exact Hq|]. split; [exact Hne|]. split; [exact Hfold|].
  exact (case_changed_query_restarts_at_first_hit sampleSearched "foo" "FOO"
           next (sampleResults false "foo") Hq Hsr Hcalc Hlen Hne Hfold).
Defined.

(** Going to the next hit of "foo" keeps the search state coherent. *)
Lemma sample_search_stays_coherent :
  searchStateOk (Component.state sampleSearched)
  /\ exists c' scroll,
       onSearch sampleSearched "foo" next = Ok (c', scroll)
       /\ searchStateOk (Component.state c')
       /\ scroll = Some 3.
Proof.
  split; [exact sampleSearched_coherent|].
  assert (State.searchQuery (Component.state sampleSearched) = Some "foo")
    as Hq by by vm_compute.
  assert (State.searchResults (Component.state sampleSearched)
          = Some (sampleResults false "foo")) as Hsr by by vm_compute.
  assert (State.selectedSearchResult (Component.state sampleSearched)
          = Some 0) as Hi by by vm_compute.
  pose proof (onSearch_continues sampleSearched "foo" next
                (sampleResults false "foo") 0 Hq Hsr Hi) as Hs.
  unfold finishSearch in Hs.
  eexists _, _. split; [exact Hs|].
  split; [|by vm_compute].
  exact (proj1 (search_handlers_keep_state_coherent sampleSearched "foo" next
                  _ _ sampleSearched_coherent Hs)).
Defined.

(** The empty query ends the search for "foo". *)
Lemma sample_empty_query :
  searchStateOk (Component.state sampleSearched)
  /\ onSearch sampleSearched EmptyString previous
     = Ok (resetSearch sampleSearched true, None).
Proof.
  split; [exact sampleSearched_coherent|].
  exact (proj2 (empty_query_clears_the_search sampleSearched previous
                  sampleSearched_coherent)).
Defined.

(** Releasing the sample drag over all rows selects lines 2 and 3. *)
Lemma sample_release_lines :
  lawfulSelection
  /\ releasedLines (sampleRows true) (ISelection.mk
       (ISelectionPoint.mk DiffColumn.Before 0)
       (ISelectionPoint.mk DiffColumn.After 5) true) = [2; 3]
  /\ exists c' released,
       onEndSelection sampleDragging = Ok (c', Some released)
       /\ State.temporarySelection (Component.state c') = None
       /\ forall l,
            isSelected released l
            = if bool_decide
                   (l ∈ releasedLines (sampleRows true) (ISelection.mk
                      (ISelectionPoint.mk DiffColumn.Before 0)
                      (ISelectionPoint.mk DiffColumn.After 5) true))
              then true
              else isSelected ({[3]} : gset Z) l.
Proof.
  split; [exact sample_selection_lawful|]. split; [by vm_compute|].
  assert (getDiffRows (State.diff (Component.state sampleDragging))
            (Props.showSideBySideDiff (Component.props sampleDragging))
            (canExpandDiff sampleDragging)
          = Ok (sampleRows true)) as Hrows by by vm_compute.
  assert (getSelection sampleDragging = Some ({[3]} : gset Z)) as Hsel
    by done.
  assert (State.temporarySelection (Component.state sampleDragging)
          = Some (ISelection.mk (ISelectionPoint.mk DiffColumn.Before 0)
                    (ISelectionPoint.mk DiffColumn.After 5) true)) as Hdrag
    by done.
  exact (drag_release_sets_the_flag_on_released_lines_only sampleDragging
           (sampleRows true) _ _ sample_selection_lawful Hrows Hsel Hdrag).
Defined.

(** The after cell of the Modified row of the sample drag shows selected
    and is selected on release. *)
Lemma sample_preview_committed :
  lawfulSelection
  /\ exists beforeData afterData,
       array_get (sampleRows true) 2
       = Some (ModifiedRow beforeData afterData 2)
       /\ SimplifiedDiffRowData.diffLineNumber afterData = Some 3
       /\ isInTemporarySelection 2 DiffColumn.After
            (State.temporarySelection (Component.state sampleDragging))
          = true
       /\ IDiffRowData.isSelected
            (getRowDataPopulated sampleDragging afterData 2 DiffColumn.After
               None)
          = true
       /\ exists c' released,
            onEndSelection sampleDragging = Ok (c', Some released)
            /\ isSelected released 3 = true.
Proof.
  split; [exact sample_selection_lawful|].
  assert (getDiffRows (State.diff (Component.state sampleDragging))
            (Props.showSideBySideDiff (Component.props sampleDragging))
            (canExpandDiff sampleDragging)
          = Ok (sampleRows true)) as Hrows by by vm_compute.
  assert (getSelection sampleDragging = Some ({[3]} : gset Z)) as Hsel
    by done.
  assert (State.temporarySelection (Component.state sampleDragging)
          = Some (ISelection.mk (ISelectionPoint.mk DiffColumn.Before 0)
                    (ISelectionPoint.mk DiffColumn.After 5) true)) as Hdrag
    by done.
  destruct (array_get (sampleRows true) 2) as [[| | | |bd ad h]|] eqn:Hrow;
    try (by vm_compute in Hrow).
  assert (h = 2) as -> by (vm_compute in Hrow; congruence).
  assert (SimplifiedDiffRowData.diffLineNumber ad = Some 3) as Hl
    by (vm_compute in Hrow; injection Hrow as _ <-; reflexivity).
  assert (isInTemporarySelection 2 DiffColumn.After
            (Some (ISelection.mk (ISelectionPoint.mk DiffColumn.Before 0)
                     (ISelectionPoint.mk DiffColumn.After 5) true)) = true)
    as Hin by done.
  assert ((ad, DiffColumn.After)
            ∈ populatedCells
                (Props.showSideBySideDiff (Component.props sampleDragging))
                (ModifiedRow bd ad 2)) as Hcell
    by (apply list_elem_of_further, list_elem_of_here).
  destruct (drag_preview_is_committed_on_release sampleDragging
              (sampleRows true) _ _ 2 _ ad DiffColumn.After 3
              sample_selection_lawful Hrows Hsel Hdrag Hrow Hcell Hl Hin)
    as (Hshown & c' & released & Hend & Hreleased & _).
  exists bd, ad. split; [done|]. split; [done|].
  split; [by rewrite Hdrag|]. split; [apply Hshown|].
  by exists c', released.
Defined.

(** A drag in the before column of the unified sample takes the line of
    the Added row with it. *)
Lemma sample_release_one_sided :
  lawfulSelection
  /\ exists data,
       array_get (sampleRows false) 3 = Some (AddedRow data 2)
       /\ SimplifiedDiffRowData.diffLineNumber data = Some 3
       /\ exists c' released,
            onEndSelection sampleDraggingUnified = Ok (c', Some released)
            /\ isSelected released 3 = false.
Proof.
  split; [exact sample_selection_lawful|].
  assert (getDiffRows (State.diff (Component.state sampleDraggingUnified))
            (Props.showSideBySideDiff
               (Component.props sampleDraggingUnified))
            (canExpandDiff sampleDraggingUnified)
          = Ok (sampleRows false)) as Hrows by by vm_compute.
  assert (getSelection sampleDraggingUnified = Some ({[3]} : gset Z))
    as Hsel by done.
  assert (State.temporarySelection (Component.state sampleDraggingUnified)
          = Some (ISelection.mk (ISelectionPoint.mk DiffColumn.Before 1)
                    (ISelectionPoint.mk DiffColumn.Before 3) false))
    as Hdrag by done.
  destruct (array_get (sampleRows false) 3) as [[| |data h| |]|] eqn:Hrow;
    try (by vm_compute in Hrow).
  assert (h = 2) as -> by (vm_compute in Hrow; congruence).
  assert (SimplifiedDiffRowData.diffLineNumber data = Some 3) as Hl
    by (vm_compute in Hrow; injection Hrow as <-; reflexivity).
  exists data. split; [done|]. split; [done|].
  exact (drag_release_takes_one_sided_rows_of_any_column
           sampleDraggingUnified (sampleRows false) _ _ 3 _ data 2 3
           sample_selection_lawful Hrows Hsel Hdrag
           ltac:(simpl; lia) Hrow (or_introl eq_refl) Hl).
Defined.

(** The sample drag is released once. *)
Lemma sample_release_once :
  exists c' handed,
    onEndSelection sampleDragging = Ok (c', handed)
    /\ onEndSelection c' = Ok (c', None).
Proof.
  assert (getDiffRows (State.diff (Component.state sampleDragging))
            (Props.showSideBySideDiff (Component.props sampleDragging))
            (canExpandDiff sampleDragging)
          = Ok (sampleRows true)) as Hrows by by vm_compute.
  assert (getSelection sampleDragging = Some ({[3]} : gset Z)) as Hsel
    by done.
  assert (State.temporarySelection (Component.state sampleDragging)
          = Some (ISelection.mk (ISelectionPoint.mk DiffColumn.Before 0)
                    (ISelectionPoint.mk DiffColumn.After 5) true)) as Hdrag
    by done.
  pose proof (onEndSelection_lines sampleDragging (sampleRows true) _ _
                Hrows Hsel Hdrag) as Hend.
  eexists _, _. split; [exact Hend|].
  exact (proj1 (drag_release_happens_once sampleDragging _ _ Hend)).
Defined.

(** Searching "foo" in the sample component leaves its rows alone. *)
Lemma sample_search_frame :
  exists c' scroll,
    onSearch (sampleComponent true) "foo" next = Ok (c', scroll)
    /\ Component.props c' = Component.props (sampleComponent true)
    /\ Component.diffToRestore c' = None.
Proof.
  assert (onSearch (sampleComponent true) "foo" next
          = Ok (finishSearch (sampleComponent true) "foo"
                  (sampleResults true "foo") 0)) as Hs.
  { rewrite onSearch_restarts by by right. unfold restartSearch.
    change (calcSearchTokens _ _ "foo" _)
      with (calcSearchTokens sampleDiff true "foo" true).
    rewrite sampleResults_ok. bind_step.
    by rewrite bool_decide_eq_false_2 by by vm_compute. }
  unfold finishSearch in Hs.
  eexists _, _. split; [exact Hs|].
  destruct (search_step_leaves_rows_and_selection_alone
              (sampleComponent true) "foo" next _ _ Hs)
    as (Hp & Hr & _).
  by split.
Defined.

(** The menu item of the sample component toggles. *)
Lemma sample_menu_toggles :
  canExpandDiff (sampleComponent true) = true
  /\ Component.diffToRestore (sampleComponent true) = None
  /\ exists item,
       buildExpandMenuItem (sampleComponent true) = Some item
       /\ IMenuItem.label item = "Expand whole file"
       /\ exists item',
            buildExpandMenuItem
              (runMenuAction (sampleComponent true) (IMenuItem.action item))
            = Some item'
            /\ IMenuItem.action item' = CollapseExpandedLinesAction
            /\ runMenuAction
                 (runMenuAction (sampleComponent true)
                    (IMenuItem.action item))
                 (IMenuItem.action item')
               = sampleComponent true.
Proof.
  assert (canExpandDiff (sampleComponent true) = true) as Hcan by done.
  split; [exact Hcan|]. split; [done|].
  destruct (sampleExpandWholeTextDiff sampleDiff ["foo"; "Foo bar"; "baz"])
    as [updatedDiff|] eqn:Hexpand; [|by vm_compute in Hexpand].
  destruct (expand_menu_item_toggles (sampleComponent true) _ updatedDiff
              eq_refl Hcan eq_refl Hexpand)
    as (item & Hitem & Haction & item' & Hitem' & Haction' & _ & _ & Hback).
  exists item. split; [exact Hitem|].
  split; [by injection Hitem as <-|].
  exists item'. by repeat split.
Defined.

(** Highlighting started when the other diff arrives is dropped and
    started again. *)
Lemma sample_highlight_dropped :
  ITextDiff.text
    (Props.diff (Component.props (Mounted.component sampleMountedNewProps)))
  <> ITextDiff.text
       (Props.diff (Component.props (Mounted.component sampleMounted)))
  /\ initDiffSyntaxMode_complete
       (componentDidUpdate sampleMountedNewProps sampleMounted).1
       sampleMountedNewProps sampleBeforeTable sampleAfterTable
     = (componentDidUpdate sampleMountedNewProps sampleMounted).1
  /\ UpdateEffects.initDiffSyntaxMode
       (componentDidUpdate
          (componentDidUpdate sampleMountedNewProps sampleMounted).1
          sampleMountedNewProps).2
     = true.
Proof.
  assert (ITextDiff.text
            (Props.diff
               (Component.props (Mounted.component sampleMountedNewProps)))
          <> ITextDiff.text
               (Props.diff
                  (Component.props (Mounted.component sampleMounted))))
    as Htext by done.
  split; [exact Htext|].
  destruct (highlight_across_diff_reset sampleMountedNewProps sampleMounted
              sampleBeforeTable sampleAfterTable Htext)
    as (Hcomplete & Hagain & _).
  split; [exact Hcomplete|exact Hagain].
Defined.
